(** * Perp-arbitrage aggregator: price cache, alert gate, broadcast throttle

    A shallow embedding of the backend services of the repository:

    - [services/alert.service.ts]       ([saveAlert] and its dedup cache),
    - [services/aggregator.service.ts]  ([createPair], [ensurePair], [isFresh],
      [throttledBroadcast], [performBroadcast], [updateAndRecalculate],
      [handleUpdate], [getPriceCache], [startScheduler]),
    - [services/exchanges/LighterService.ts] and [ExtendedService.ts]
      ([fetchMarkets]).

    Conventions of the embedding.

    - Prices and spreads are JavaScript numbers; they are idealised as
      rationals ([Q]), rounding is not modelled.  Timestamps are integer
      milliseconds ([Z]).
    - Module-level [let]/[const] bindings become fields of an explicit state
      record that every handler takes and returns.
    - One handler turn (one callback run to completion by the event loop)
      reads one clock value: every [Date.now()] of the turn is the [now]
      argument of the handler.
    - [db.run] and [setTimeout] complete in a later turn: the write that was
      issued and the timer that was armed are kept in the state and are
      completed by events of their own. *)

From Stdlib Require Import ZArith QArith List Bool Lia.
From stdpp Require Import gmap strings list.

Local Open Scope string_scope.
Local Open Scope list_scope.
Local Open Scope Z_scope.

(** ** Numbers *)

(** A numeric field of an aggregated pair: a number, or the no-signal value
    written by the recomputation when no quote contributes.  Whatever
    JavaScript value stands for no-signal, the two comparisons below that
    the aggregator makes on these fields are false on it. *)
Inductive Num : Type :=
  | NoSignal
  | Val (q : Q).

Definition Qlt_bool (x y : Q) : bool := negb (Qle_bool y x).

(** [n > 0] *)
Definition Num_gt0 (n : Num) : bool :=
  match n with
  | Val q => Qlt_bool 0 q
  | NoSignal => false
  end.

(** [n >= c] *)
Definition Num_ge (n : Num) (c : Q) : bool :=
  match n with
  | Val q => Qle_bool c q
  | NoSignal => false
  end.

(** ** Constants *)

(** alert.service.ts *)
Definition CACHE_TTL : Z := 60000.

(** aggregator.service.ts *)
Definition ALERT_THRESHOLD : Q := 5 # 10.
Definition STALE_THRESHOLD : Z := 30000.
Definition DB_SAVE_THROTTLE : Z := 5000.
Definition BROADCAST_THROTTLE : Z := 1000.

(** ** Data model *)

(** [interface ExchangePrice] *)
Record ExchangePrice : Type := mkExchangePrice {
  bid : Q;
  ask : Q;
  timestamp : Z;
  source : string
}.

(** [TimestampedPrice], the payload of an 'update' event of a venue service
    (declared in HybridExchangeService; the fields are the ones [handleUpdate]
    reads). *)
Record TimestampedPrice : Type := mkTimestampedPrice {
  tp_symbol : string;
  tp_bid : Q;
  tp_ask : Q;
  tp_timestamp : Z;
  tp_source : string
}.

(** The four per-venue keys of an [AggregatedPair] that [startScheduler]
    passes to [handleUpdate]. *)
Inductive ExchangeName : Type := Vest | Lighter | Paradex | Extended.

Definition ExchangeName_eqb (a b : ExchangeName) : bool :=
  match a, b with
  | Vest, Vest | Lighter, Lighter | Paradex, Paradex | Extended, Extended => true
  | _, _ => false
  end.

(** The [name] of the venue's service object. *)
Definition exchangeLabel (e : ExchangeName) : string :=
  match e with
  | Vest => "VEST"
  | Lighter => "LIGHTER"
  | Paradex => "PARADEX"
  | Extended => "EXTENDED"
  end.

(** [interface AggregatedPair] *)
Record AggregatedPair : Type := mkAggregatedPair {
  symbol : string;
  vest : ExchangePrice;
  lighter : ExchangePrice;
  paradex : ExchangePrice;
  extended : ExchangePrice;
  bestBid : Num;
  bestAsk : Num;
  bestBidEx : option string;
  bestAskEx : option string;
  realSpread : Num;
  potentialProfit : option Q
}.

(** [pair[exchangeName]] *)
Definition getEx (pair : AggregatedPair) (e : ExchangeName) : ExchangePrice :=
  match e with
  | Vest => vest pair
  | Lighter => lighter pair
  | Paradex => paradex pair
  | Extended => extended pair
  end.

(** Assignment of the four fields of [pair[exchangeName]]. *)
Definition setEx (pair : AggregatedPair) (e : ExchangeName) (x : ExchangePrice)
  : AggregatedPair :=
  {| symbol := symbol pair;
     vest := if ExchangeName_eqb e Vest then x else vest pair;
     lighter := if ExchangeName_eqb e Lighter then x else lighter pair;
     paradex := if ExchangeName_eqb e Paradex then x else paradex pair;
     extended := if ExchangeName_eqb e Extended then x else extended pair;
     bestBid := bestBid pair;
     bestAsk := bestAsk pair;
     bestBidEx := bestBidEx pair;
     bestAskEx := bestAskEx pair;
     realSpread := realSpread pair;
     potentialProfit := potentialProfit pair |}.

(** ** The price cache: a JavaScript object keyed by symbol

    Own string keys keep their insertion order, which is the order of
    [Object.values]; the cache is an association list without duplicate
    keys.  Symbols are taken not to name a property of [Object.prototype]. *)
Definition Cache : Type := list (string * AggregatedPair).

Fixpoint cache_get (c : Cache) (k : string) : option AggregatedPair :=
  match c with
  | [] => None
  | (k', p) :: c' => if String.eqb k k' then Some p else cache_get c' k
  end.

(** [c[k] = p]: overwrite in place, or append a new key. *)
Fixpoint cache_set (c : Cache) (k : string) (p : AggregatedPair) : Cache :=
  match c with
  | [] => [(k, p)]
  | (k', p') :: c' =>
      if String.eqb k k' then (k', p) :: c' else (k', p') :: cache_set c' k p
  end.

Definition cache_keys (c : Cache) : list string := map fst c.
Definition cache_values (c : Cache) : list AggregatedPair := map snd c.

(** ** alert.service.ts *)

(** A row of the [alerts] table, columns in the order of the INSERT. *)
Record AlertRow : Type := mkAlertRow {
  row_timestamp : Z;
  row_symbol : string;
  row_spread : Num;
  exchange_buy : option string;
  exchange_sell : option string;
  price_buy : Num;
  price_sell : Num
}.

(** The module state of alert.service.ts together with the table it writes.
    [inflight] holds the rows of the [db.run] calls whose callback has not
    run yet. *)
Record AlertStore : Type := mkAlertStore {
  alertCache : gmap string Z;
  alerts : list AlertRow;
  inflight : list AlertRow;
  alertLog : list string
}.

Definition emptyAlertStore : AlertStore :=
  {| alertCache := ∅; alerts := []; inflight := []; alertLog := [] |}.

(** What the synchronous part of [saveAlert] does with its promise. *)
Inductive SaveAlertCall : Type :=
  | Deduplicated          (* resolve(null) *)
  | WriteIssued.          (* db.run called, promise still pending *)

(** How a promise of [saveAlert] settles. *)
Inductive Settlement : Type :=
  | Resolved (id : option Z)
  | Rejected (err : string).

(** Result handed by the database to the callback of [db.run]. *)
Inductive DbOutcome : Type :=
  | DbOk
  | DbErr (err : string).

(** [lastAlertTime && (now - lastAlertTime < CACHE_TTL)] *)
Definition tooSoon (lastAlertTime : option Z) (now : Z) : bool :=
  match lastAlertTime with
  | Some t => negb (t =? 0) && (now - t <? CACHE_TTL)
  | None => false
  end.

(** The parameter array of the INSERT:
    [[now, symbol, realSpread, bestAskEx, bestBidEx, bestAsk, bestBid]]. *)
Definition alertRow (opportunity : AggregatedPair) (now : Z) : AlertRow :=
  {| row_timestamp := now;
     row_symbol := symbol opportunity;
     row_spread := realSpread opportunity;
     exchange_buy := bestAskEx opportunity;
     exchange_sell := bestBidEx opportunity;
     price_buy := bestAsk opportunity;
     price_sell := bestBid opportunity |}.

(** [saveAlert(opportunity)], up to the call of [db.run]. *)
Definition saveAlert (opportunity : AggregatedPair) (now : Z) (s : AlertStore)
  : AlertStore * SaveAlertCall :=
  let lastAlertTime := alertCache s !! symbol opportunity in
  if tooSoon lastAlertTime now then (s, Deduplicated)
  else
    ({| alertCache := alertCache s;
        alerts := alerts s;
        inflight := inflight s ++ [alertRow opportunity now];
        alertLog := alertLog s |},
     WriteIssued).

(** Removal of the [i]-th element. *)
Fixpoint remove_nth {A : Type} (i : nat) (l : list A) : list A :=
  match l, i with
  | [], _ => []
  | _ :: l', O => l'
  | x :: l', S j => x :: remove_nth j l'
  end.

(** The callback of the [i]-th pending [db.run]: on an error the promise is
    rejected and the dedup cache is left alone; otherwise the row is in the
    table, the cache takes the [now] of the call, and the promise resolves
    with the row id. *)
Definition saveAlert_callback (i : nat) (out : DbOutcome) (s : AlertStore)
  : AlertStore * option Settlement :=
  match nth_error (inflight s) i with
  | None => (s, None)
  | Some row =>
      match out with
      | DbErr err =>
          ({| alertCache := alertCache s;
              alerts := alerts s;
              inflight := remove_nth i (inflight s);
              alertLog := alertLog s ++ ["Error saving alert:"] |},
           Some (Rejected err))
      | DbOk =>
          let table := alerts s ++ [row] in
          ({| alertCache := <[row_symbol row := row_timestamp row]> (alertCache s);
              alerts := table;
              inflight := remove_nth i (inflight s);
              alertLog := alertLog s |},
           Some (Resolved (Some (Z.of_nat (length table)))))
      end
  end.

(** ** aggregator.service.ts *)

(** Argument of a [saveSpread] call (db/database, fire and forget). *)
Record SpreadMetric : Type := mkSpreadMetric {
  m_symbol : string;
  m_spread : Num;
  m_bestBid : Num;
  m_bestAsk : Num;
  m_bestBidEx : option string;
  m_bestAskEx : option string
}.

(** The module-level bindings of the aggregator, the alert service it
    imports, the timers it has armed, and what it has handed to its
    collaborators ([saveSpread] calls, broadcasts, error log). *)
Record State : Type := mkState {
  PRICE_CACHE : Cache;
  wsBroadcaster : bool;
  lastDbSave : gmap string Z;
  lastBroadcastTime : Z;
  broadcastPending : bool;
  timers : list Z;
  alertStore : AlertStore;
  savedSpreads : list SpreadMetric;
  broadcasts : list (Z * Cache);
  errorLog : list string
}.

(** The state when the modules have been loaded. *)
Definition initialState : State :=
  {| PRICE_CACHE := [];
     wsBroadcaster := false;
     lastDbSave := ∅;
     lastBroadcastTime := 0;
     broadcastPending := false;
     timers := [];
     alertStore := emptyAlertStore;
     savedSpreads := [];
     broadcasts := [];
     errorLog := [] |}.

(** Assignment to [PRICE_CACHE], or to a pair it holds. *)
Definition with_cache (st : State) (c : Cache) : State :=
  {| PRICE_CACHE := c;
     wsBroadcaster := wsBroadcaster st;
     lastDbSave := lastDbSave st;
     lastBroadcastTime := lastBroadcastTime st;
     broadcastPending := broadcastPending st;
     timers := timers st;
     alertStore := alertStore st;
     savedSpreads := savedSpreads st;
     broadcasts := broadcasts st;
     errorLog := errorLog st |}.

(** The state after a call into alert.service.ts. *)
Definition with_alertStore (st : State) (a : AlertStore) : State :=
  {| PRICE_CACHE := PRICE_CACHE st;
     wsBroadcaster := wsBroadcaster st;
     lastDbSave := lastDbSave st;
     lastBroadcastTime := lastBroadcastTime st;
     broadcastPending := broadcastPending st;
     timers := timers st;
     alertStore := a;
     savedSpreads := savedSpreads st;
     broadcasts := broadcasts st;
     errorLog := errorLog st |}.

(** The per-venue entry of a new pair. *)
Definition emptyPrice : ExchangePrice :=
  {| bid := 0; ask := 0; timestamp := 0; source := "none" |}.

(** [createPair(symbol)] *)
Definition createPair (sym : string) : AggregatedPair :=
  {| symbol := sym;
     vest := emptyPrice;
     lighter := emptyPrice;
     paradex := emptyPrice;
     extended := emptyPrice;
     bestBid := Val 0;
     bestAsk := Val 0;
     bestBidEx := None;
     bestAskEx := None;
     realSpread := Val 0;
     potentialProfit := None |}.

(** [isFresh(timestamp)] *)
Definition isFresh (now : Z) (ts : Z) : bool :=
  (0 <? ts) && (now - ts <=? STALE_THRESHOLD).

(** [performBroadcast] hands the snapshot to the broadcaster and records the
    time; [snapshot] is the result of [getPriceCache()]. *)
Definition performBroadcast_with (snapshot : Cache) (now : Z) (st : State) : State :=
  if wsBroadcaster st then
    if (0 <? length snapshot)%nat then
      {| PRICE_CACHE := PRICE_CACHE st;
         wsBroadcaster := wsBroadcaster st;
         lastDbSave := lastDbSave st;
         lastBroadcastTime := now;
         broadcastPending := broadcastPending st;
         timers := timers st;
         alertStore := alertStore st;
         savedSpreads := savedSpreads st;
         broadcasts := (now, snapshot) :: broadcasts st;
         errorLog := errorLog st |}
    else st
  else st.

(** Assignment to [broadcastPending], with the armed timers. *)
Definition set_pending (st : State) (b : bool) (ts : list Z) : State :=
  {| PRICE_CACHE := PRICE_CACHE st;
     wsBroadcaster := wsBroadcaster st;
     lastDbSave := lastDbSave st;
     lastBroadcastTime := lastBroadcastTime st;
     broadcastPending := b;
     timers := ts;
     alertStore := alertStore st;
     savedSpreads := savedSpreads st;
     broadcasts := broadcasts st;
     errorLog := errorLog st |}.

(** The four venues in the order of the fields of [AggregatedPair]. *)
Definition VENUES : list ExchangeName := [Vest; Lighter; Paradex; Extended].

Section Recompute.

(** Modelled from the spec: the configured venue priority of the
    recomputation; a lower rank wins a tie. *)
Variable venueRank : ExchangeName -> nat.

(** The recomputation reads a pair through a filter on its venues, the
    second argument of [calculateSpreads]. *)
Variable keep : ExchangeName -> ExchangePrice -> bool.

(** Modelled from the spec: membership of a venue's quote in F; it passes
    the filter and has bid > 0 and ask > 0. *)
Definition contributes (pair : AggregatedPair) (e : ExchangeName) : bool :=
  keep e (getEx pair e)
  && Qlt_bool 0 (bid (getEx pair e))
  && Qlt_bool 0 (ask (getEx pair e)).

(** Modelled from the spec: the venues whose quote is in F. *)
Definition contributing (pair : AggregatedPair) : list ExchangeName :=
  List.filter (contributes pair) VENUES.

(** Modelled from the spec: [w] takes the best bid from [v] with a higher
    bid, or with the same bid and a better rank. *)
Definition beatsBid (pair : AggregatedPair) (v w : ExchangeName) : bool :=
  Qlt_bool (bid (getEx pair v)) (bid (getEx pair w))
  || (Qeq_bool (bid (getEx pair v)) (bid (getEx pair w))
      && (venueRank w <? venueRank v)%nat).

(** Modelled from the spec: [w] takes the best ask from [v] with a lower
    ask, or with the same ask and a better rank. *)
Definition beatsAsk (pair : AggregatedPair) (v w : ExchangeName) : bool :=
  Qlt_bool (ask (getEx pair w)) (ask (getEx pair v))
  || (Qeq_bool (ask (getEx pair v)) (ask (getEx pair w))
      && (venueRank w <? venueRank v)%nat).

(** Modelled from the spec: the venue that no later venue of the list
    beats. *)
Definition pickBest (beats : ExchangeName -> ExchangeName -> bool)
    (first : ExchangeName) (rest : list ExchangeName) : ExchangeName :=
  fold_left (fun cur w => if beats cur w then w else cur) rest first.

(** Modelled from the spec: [(bestBid - bestAsk) / bestAsk * 100]. *)
Definition spreadPct (bb ba : Q) : Q := ((bb - ba) / ba * 100)%Q.

(** Modelled from the spec: the recomputation of one symbol by
    [calculateSpreads] of services/spread.service, which is not among the
    sources.  F is the set of quotes that pass the filter and have bid > 0
    and ask > 0; when F is empty the best prices, their venues and the
    spread are cleared to no-signal; otherwise bestBid is the maximum bid
    and bestAsk the minimum ask over F, ties going to the venue of better
    rank, and the spread is (bestBid - bestAsk) / bestAsk * 100.  The
    per-venue quotes and the other fields are left as they are. *)
Definition recomputePair (pair : AggregatedPair) : AggregatedPair :=
  match contributing pair with
  | [] =>
      {| symbol := symbol pair;
         vest := vest pair; lighter := lighter pair;
         paradex := paradex pair; extended := extended pair;
         bestBid := NoSignal;
         bestAsk := NoSignal;
         bestBidEx := None;
         bestAskEx := None;
         realSpread := NoSignal;
         potentialProfit := potentialProfit pair |}
  | first :: rest =>
      let vb := pickBest (beatsBid pair) first rest in
      let va := pickBest (beatsAsk pair) first rest in
      {| symbol := symbol pair;
         vest := vest pair; lighter := lighter pair;
         paradex := paradex pair; extended := extended pair;
         bestBid := Val (bid (getEx pair vb));
         bestAsk := Val (ask (getEx pair va));
         bestBidEx := Some (exchangeLabel vb);
         bestAskEx := Some (exchangeLabel va);
         realSpread := Val (spreadPct (bid (getEx pair vb)) (ask (getEx pair va)));
         potentialProfit := potentialProfit pair |}
  end.

(** Modelled from the spec: [calculateSpreads(cache, filter)] of
    services/spread.service, which is not among the sources; it recomputes
    every pair of the cache object in place. *)
Definition calculateSpreads (cache : Cache) : Cache :=
  map (fun kp => (fst kp, recomputePair (snd kp))) cache.

End Recompute.

(** The filter that [updateAndRecalculate] passes to [calculateSpreads]:
    [(exchange, data) => isFresh(data.timestamp)]. *)
Definition freshFilter (now : Z) : ExchangeName -> ExchangePrice -> bool :=
  fun (exchange : ExchangeName) (data : ExchangePrice) =>
    isFresh now (timestamp data).

Section Aggregator.

(** [ALLOWED_SYMBOLS] of the configuration module. *)
Variable ALLOWED_SYMBOLS : list string.

(** Configured venue priority of the recomputation. *)
Variable venueRank : ExchangeName -> nat.

(** [ALLOWED_SYMBOLS.includes(symbol)] *)
Definition allowed (sym : string) : bool :=
  existsb (String.eqb sym) ALLOWED_SYMBOLS.

(** [ensurePair(symbol)] *)
Definition ensurePair (sym : string) (st : State)
  : State * option AggregatedPair :=
  if negb (allowed sym) then (st, None)
  else
    match cache_get (PRICE_CACHE st) sym with
    | Some existing => (st, Some existing)
    | None =>
        let created := createPair sym in
        (with_cache st (cache_set (PRICE_CACHE st) sym created), Some created)
    end.

(** [getPriceCache()] *)
Definition getPriceCache (st : State) : Cache :=
  fold_left
    (fun filtered sym =>
       match cache_get (PRICE_CACHE st) sym with
       | Some entry => cache_set filtered sym entry
       | None => filtered
       end)
    ALLOWED_SYMBOLS [].

(** [performBroadcast()] *)
Definition performBroadcast (now : Z) (st : State) : State :=
  performBroadcast_with (getPriceCache st) now st.

(** [throttledBroadcast()]; the timer armed by [setTimeout] is recorded
    by its due time. *)
Definition throttledBroadcast (now : Z) (st : State) : State :=
  if broadcastPending st then st
  else
    let timeSinceLast := now - lastBroadcastTime st in
    if BROADCAST_THROTTLE <=? timeSinceLast then performBroadcast now st
    else
      set_pending st true
        (timers st ++ [now + (BROADCAST_THROTTLE - timeSinceLast)]).

(** The callback given to [setTimeout] by [throttledBroadcast]. *)
Definition trailingBroadcast (now : Z) (st : State) : State :=
  let st' := performBroadcast now st in
  set_pending st' false (timers st').

(** The body of the [forEach] of [updateAndRecalculate]. *)
Definition checkPair (now : Z) (st : State) (pair : AggregatedPair) : State :=
  if Num_gt0 (bestBid pair) && Num_gt0 (bestAsk pair) then
    let lastSave := default 0 (lastDbSave st !! symbol pair) in
    let st1 :=
      if DB_SAVE_THROTTLE <=? now - lastSave then
        {| PRICE_CACHE := PRICE_CACHE st;
           wsBroadcaster := wsBroadcaster st;
           lastDbSave := <[symbol pair := now]> (lastDbSave st);
           lastBroadcastTime := lastBroadcastTime st;
           broadcastPending := broadcastPending st;
           timers := timers st;
           alertStore := alertStore st;
           savedSpreads :=
             savedSpreads st ++
             [{| m_symbol := symbol pair;
                 m_spread := realSpread pair;
                 m_bestBid := bestBid pair;
                 m_bestAsk := bestAsk pair;
                 m_bestBidEx := bestBidEx pair;
                 m_bestAskEx := bestAskEx pair |}];
           broadcasts := broadcasts st;
           errorLog := errorLog st |}
      else st in
    if Num_ge (realSpread pair) ALERT_THRESHOLD then
      with_alertStore st1 (fst (saveAlert pair now (alertStore st1)))
    else st1
  else st.

(** [updateAndRecalculate()] *)
Definition updateAndRecalculate (now : Z) (st : State) : State :=
  let st1 :=
    with_cache st
      (calculateSpreads venueRank (freshFilter now) (PRICE_CACHE st)) in
  let st2 := fold_left (checkPair now) (cache_values (PRICE_CACHE st1)) st1 in
  throttledBroadcast now st2.

(** [handleUpdate(exchangeName, data)] *)
Definition handleUpdate (exchangeName : ExchangeName) (data : TimestampedPrice)
    (now : Z) (st : State) : State :=
  match ensurePair (tp_symbol data) st with
  | (_, None) => st
  | (st1, Some entry) =>
      let target :=
        {| bid := tp_bid data;
           ask := tp_ask data;
           timestamp := tp_timestamp data;
           source := tp_source data |} in
      let st2 :=
        with_cache st1
          (cache_set (PRICE_CACHE st1) (tp_symbol data)
             (setEx entry exchangeName target)) in
      updateAndRecalculate now st2
  end.

(** The cache initialisation of [startScheduler()]: what a call does to
    the bindings of the module.  A call also registers one more 'update'
    listener on each venue service ([Scheduler] below); an event that
    reaches n listeners runs [handleUpdate] n times, which a trace shows
    as n [EvUpdate] turns in a row. *)
Definition startScheduler (st : State) : State :=
  with_cache st
    (fold_left (fun c sym => cache_set c sym (createPair sym))
       ALLOWED_SYMBOLS []).

(** [setWebSocketBroadcaster(broadcaster)] *)
Definition setWebSocketBroadcaster (st : State) : State :=
  {| PRICE_CACHE := PRICE_CACHE st;
     wsBroadcaster := true;
     lastDbSave := lastDbSave st;
     lastBroadcastTime := lastBroadcastTime st;
     broadcastPending := broadcastPending st;
     timers := timers st;
     alertStore := alertStore st;
     savedSpreads := savedSpreads st;
     broadcasts := broadcasts st;
     errorLog := errorLog st |}.

(** The callback of a pending alert write, followed by the [.catch] that
    [updateAndRecalculate] attached to the promise. *)
Definition alertWriteDone (i : nat) (out : DbOutcome) (st : State) : State :=
  match saveAlert_callback i out (alertStore st) with
  | (a, Some (Rejected _)) =>
      {| PRICE_CACHE := PRICE_CACHE st;
         wsBroadcaster := wsBroadcaster st;
         lastDbSave := lastDbSave st;
         lastBroadcastTime := lastBroadcastTime st;
         broadcastPending := broadcastPending st;
         timers := timers st;
         alertStore := a;
         savedSpreads := savedSpreads st;
         broadcasts := broadcasts st;
         errorLog := errorLog st ++ ["Failed to save alert"] |}
  | (a, _) => with_alertStore st a
  end.

(** ** Turns of the event loop *)

Inductive Event : Type :=
  | EvStart
  | EvSetBroadcaster
  | EvUpdate (exchangeName : ExchangeName) (data : TimestampedPrice) (now : Z)
  | EvTimer (i : nat) (now : Z)
  | EvAlertDb (i : nat) (out : DbOutcome).

(** One turn.  A timer runs its callback only when it is armed and due;
    it is then removed from the armed timers. *)
Definition step (st : State) (ev : Event) : State :=
  match ev with
  | EvStart => startScheduler st
  | EvSetBroadcaster => setWebSocketBroadcaster st
  | EvUpdate e data now => handleUpdate e data now st
  | EvTimer i now =>
      match nth_error (timers st) i with
      | Some due =>
          if due <=? now then
            trailingBroadcast now
              (set_pending st (broadcastPending st) (remove_nth i (timers st)))
          else st
      | None => st
      end
  | EvAlertDb i out => alertWriteDone i out st
  end.

Definition run (st : State) (evs : list Event) : State :=
  fold_left step evs st.

(** The clock reading of a turn, when it takes one. *)
Definition eventTime (ev : Event) : option Z :=
  match ev with
  | EvUpdate _ _ now => Some now
  | EvTimer _ now => Some now
  | _ => None
  end.

(** The clock readings of a trace never go back, starting from [t0]. *)
Fixpoint monotone (t0 : Z) (evs : list Event) : bool :=
  match evs with
  | [] => true
  | ev :: evs' =>
      match eventTime ev with
      | Some t => (t0 <=? t) && monotone t evs'
      | None => monotone t0 evs'
      end
  end.

(** The clock reading of the last turn of a trace. *)
Definition clockAfter (t0 : Z) (evs : list Event) : Z :=
  fold_left (fun t ev => default t (eventTime ev)) evs t0.

(** Turns that neither touch the price cache nor signal a change. *)
Definition isQuiet (ev : Event) : bool :=
  match ev with
  | EvSetBroadcaster | EvAlertDb _ _ => true
  | _ => false
  end.

End Aggregator.

(** ** Venue adapters: [fetchMarkets]

    The body of a response is any JSON value; property reads and method
    calls on it raise TypeError the way the JavaScript runtime does. *)

Unset Elimination Schemes.
Inductive JsVal : Type :=
  | JUndefined
  | JNull
  | JBool (b : bool)
  | JNum (q : Q)
  | JNaN
  | JStr (s : string)
  | JArr (items : list JsVal)
  | JObj (fields : list (string * JsVal)).
Set Elimination Schemes.

(** The result of a numeric conversion. *)
Inductive JsNumber : Type :=
  | NaN
  | Fin (q : Q).

(** A computation that returns or throws. *)
Inductive Outcome (A : Type) : Type :=
  | Normal (a : A)
  | Thrown (error : string).
Arguments Normal {A} a.
Arguments Thrown {A} error.

#[global] Instance Outcome_ret : MRet Outcome := fun A a => Normal a.
#[global] Instance Outcome_bind : MBind Outcome := fun A B k c =>
  match c with
  | Normal a => k a
  | Thrown e => Thrown e
  end.

Definition TypeError : string := "TypeError".

(** Truthiness *)
Definition truthy (v : JsVal) : bool :=
  match v with
  | JUndefined | JNull | JNaN => false
  | JBool b => b
  | JNum q => negb (Qeq_bool q 0)
  | JStr s => negb (String.eqb s "")
  | JArr _ | JObj _ => true
  end.

Fixpoint fields_get (fields : list (string * JsVal)) (k : string) : JsVal :=
  match fields with
  | [] => JUndefined
  | (k', v) :: rest => if String.eqb k k' then v else fields_get rest k
  end.

(** [v.k] for a property name [k] that is not on a prototype: a field of
    an object (listed without repeated keys), [undefined] on the other
    values, TypeError on [null] and [undefined]. *)
Definition getProp (v : JsVal) (k : string) : Outcome JsVal :=
  match v with
  | JUndefined | JNull => Thrown TypeError
  | JObj fields => Normal (fields_get fields k)
  | _ => Normal JUndefined
  end.

(** [v === s] for a string literal [s] *)
Definition isStr (v : JsVal) (s : string) : bool :=
  match v with
  | JStr s' => String.eqb s' s
  | _ => false
  end.

(** [a || b], with [b] evaluated only when [a] is falsy *)
Definition orElse (a : JsVal) (b : Outcome JsVal) : Outcome JsVal :=
  if truthy a then Normal a else b.

(** [s.includes(sep)] on a string *)
Definition str_includes (s sep : string) : bool :=
  match String.index 0 sep s with
  | Some _ => true
  | None => false
  end.

(** [s.split(sep)[0]] on a string, for a non-empty [sep] *)
Definition str_splitFirst (s sep : string) : string :=
  match String.index 0 sep s with
  | Some i => String.substring 0 i s
  | None => s
  end.

(** [v.includes(sep)]: the method of strings and of arrays; any other value
    has no callable [includes]. *)
Definition callIncludes (v : JsVal) (sep : string) : Outcome bool :=
  match v with
  | JStr s => Normal (str_includes s sep)
  | JArr items => Normal (existsb (fun x => isStr x sep) items)
  | _ => Thrown TypeError
  end.

(** [v.split(sep)[0]]: only strings have [split]. *)
Definition callSplitFirst (v : JsVal) (sep : string) : Outcome JsVal :=
  match v with
  | JStr s => Normal (JStr (str_splitFirst s sep))
  | _ => Thrown TypeError
  end.

Definition lowerAscii (c : Ascii.ascii) : Ascii.ascii :=
  let n := Ascii.nat_of_ascii c in
  if ((65 <=? n) && (n <=? 90))%nat then Ascii.ascii_of_nat (n + 32) else c.

Fixpoint toLowerCase (s : string) : string :=
  match s with
  | EmptyString => EmptyString
  | String c s' => String (lowerAscii c) (toLowerCase s')
  end.

(** What [axios.get] settles to. *)
Inductive AxiosResult : Type :=
  | AxiosError (message : string)
  | AxiosResponse (data : JsVal).

(** [await axios.get(...)] *)
Definition awaitGet (r : AxiosResult) : Outcome JsVal :=
  match r with
  | AxiosError message => Thrown message
  | AxiosResponse data => Normal data
  end.

(** [interface MarketData]; the symbol is whatever value the adapter put
    there. *)
Record MarketData : Type := mkMarketData {
  md_symbol : JsVal;
  md_bid : Q;
  md_ask : Q
}.

Inductive LogLevel : Type := DEBUG | ERROR.

Record LogEntry : Type := mkLogEntry {
  level : LogLevel;
  tag : string;
  message : string
}.

(** [n > 0] *)
Definition positive (n : JsNumber) : option Q :=
  match n with
  | Fin q => if Qlt_bool 0 q then Some q else None
  | NaN => None
  end.

(** [items.forEach(body)] where the last statement of [body] pushes to
    [results]: the accumulated results, and the error if a call threw. *)
Fixpoint forEach (body : JsVal -> Outcome (option MarketData))
    (items : list JsVal) (results : list MarketData)
  : list MarketData * option string :=
  match items with
  | [] => (results, None)
  | m :: rest =>
      match body m with
      | Normal (Some r) => forEach body rest (results ++ [r])
      | Normal None => forEach body rest results
      | Thrown e => (results, Some e)
      end
  end.

(** [v.forEach(...)]: only arrays have it. *)
Definition asArray (v : JsVal) : Outcome (list JsVal) :=
  match v with
  | JArr items => Normal items
  | _ => Thrown TypeError
  end.

Module LighterService.
Section Lighter.

(** [isCrypto] and [parsePrice] of BaseExchangeService, which is not
    among the sources; they may return or throw. *)
Variable isCrypto : JsVal -> Outcome bool.
Variable parsePrice : JsVal -> Outcome JsNumber.

Definition TAG : string := "Lighter".

(** The callback of [markets.forEach]. *)
Definition eachMarket (m : JsVal) : Outcome (option MarketData) :=
  market_type ← getProp m "market_type";
  if negb (isStr market_type "perp") then Normal None
  else
    status ← getProp m "status";
    if negb (isStr status "active") then Normal None
    else
      sym0 ← getProp m "symbol";
      dashed ← callIncludes sym0 "--";
      sym ← (if dashed : bool then callSplitFirst sym0 "--" else Normal sym0);
      crypto ← isCrypto sym;
      if negb crypto then Normal None
      else
        best_bid ← getProp m "best_bid";
        bidArg ← orElse best_bid (getProp m "last_trade_price");
        bestBid ← parsePrice bidArg;
        best_ask ← getProp m "best_ask";
        askArg ← orElse best_ask (getProp m "last_trade_price");
        bestAsk ← parsePrice askArg;
        match positive bestBid, positive bestAsk with
        | Some b, Some a =>
            Normal (Some {| md_symbol := sym; md_bid := b; md_ask := a |})
        | _, _ => Normal None
        end.

(** The [try] block: the results, or the error that was thrown. *)
Definition tryBlock (response : AxiosResult) : Outcome (list MarketData) :=
  data ← awaitGet response;
  details ← getProp data "order_book_details";
  markets ← orElse details (Normal (JArr []));
  items ← asArray markets;
  match forEach eachMarket items [] with
  | (results, None) => Normal results
  | (_, Some e) => Thrown e
  end.

(** [fetchMarkets()]: what the promise settles to, and the log entries
    (the debug entry without the count it interpolates). *)
Definition fetchMarkets (response : AxiosResult)
  : Outcome (list MarketData) * list LogEntry :=
  match tryBlock response with
  | Normal results =>
      (Normal results,
       [{| level := DEBUG; tag := TAG;
           message := "Returning pairs with real bid/ask" |}])
  | Thrown e =>
      (Normal [],
       [{| level := ERROR; tag := TAG; message := "Error fetching markets" |}])
  end.

End Lighter.
End LighterService.

Module ExtendedService.
Section Extended.

(** [ALLOWED_SYMBOLS] of the configuration module. *)
Variable ALLOWED_SYMBOLS : list string.

(** The built-in [parseFloat]; it does not throw on a JSON value. *)
Variable parseFloat : JsVal -> JsNumber.

Definition TAG : string := "Extended".

(** [ALLOWED_SYMBOLS.includes(v)] *)
Definition allowedVal (v : JsVal) : bool :=
  existsb (isStr v) ALLOWED_SYMBOLS.

(** The callback of [markets.forEach]. *)
Definition eachMarket (market : JsVal) : Outcome (option MarketData) :=
  marketName ← getProp market "name";
  if negb (truthy marketName) then Normal None
  else
    dashed ← callIncludes marketName "-";
    if negb dashed then Normal None
    else
      baseSymbol ← callSplitFirst marketName "-";
      if negb (allowedVal baseSymbol) then Normal None
      else
        active ← getProp market "active";
        status ← getProp market "status";
        if negb (match active with JBool true => true | _ => false end)
           || negb (isStr status "ACTIVE")
        then Normal None
        else
          stats ← getProp market "marketStats";
          if negb (truthy stats) then Normal None
          else
            bidPrice ← getProp stats "bidPrice";
            if negb (truthy bidPrice) then Normal None
            else
              askPrice ← getProp stats "askPrice";
              if negb (truthy askPrice) then Normal None
              else
                match positive (parseFloat bidPrice),
                      positive (parseFloat askPrice) with
                | Some b, Some a =>
                    Normal
                      (Some {| md_symbol := baseSymbol; md_bid := b; md_ask := a |})
                | _, _ => Normal None
                end.

(** [res.data.status?.toLowerCase() !== 'ok'] *)
Definition statusNotOk (data : JsVal) : Outcome bool :=
  status ← getProp data "status";
  match status with
  | JUndefined | JNull => Normal true
  | JStr s => Normal (negb (String.eqb (toLowerCase s) "ok"))
  | _ => Thrown TypeError
  end.

(** How the [try] block ends. *)
Inductive TryEnd : Type :=
  | EarlyReturn                      (* [return results] of the guard *)
  | Completed
  | Caught (e : string).

(** The [try] block: [results] as the block leaves it, and how it ended. *)
Definition tryBlock (response : AxiosResult) : list MarketData * TryEnd :=
  match awaitGet response with
  | Thrown e => ([], Caught e)
  | Normal data =>
      if negb (truthy data) then ([], EarlyReturn)
      else
        match statusNotOk data with
        | Thrown e => ([], Caught e)
        | Normal true => ([], EarlyReturn)
        | Normal false =>
            match getProp data "data" with
            | Thrown e => ([], Caught e)
            | Normal (JArr markets) =>
                match forEach eachMarket markets [] with
                | (results, None) => (results, Completed)
                | (results, Some e) => (results, Caught e)
                end
            | Normal _ => ([], EarlyReturn)
            end
        end
  end.

(** [fetchMarkets()]: what the promise settles to, and the log entries. *)
Definition fetchMarkets (response : AxiosResult)
  : Outcome (list MarketData) * list LogEntry :=
  match tryBlock response with
  | (results, Caught e) =>
      (Normal results,
       [{| level := ERROR; tag := TAG;
           message := String.append "REST fetch failed: " e |}])
  | (results, _) => (Normal results, [])
  end.

End Extended.
End ExtendedService.

(** ** Vocabulary of the properties *)

(** The quote of venue [e] in [p] is in F at time [now]: fresh (timestamp
    positive, age at most the staleness window) with bid > 0 and ask > 0. *)
Definition freshValid (now : Z) (p : AggregatedPair) (e : ExchangeName) : Prop :=
  0 < timestamp (getEx p e)
  /\ now - timestamp (getEx p e) <= STALE_THRESHOLD
  /\ (0 < bid (getEx p e))%Q
  /\ (0 < ask (getEx p e))%Q.

(** [bestBid] is the maximum bid and [bestAsk] the minimum ask over F, and
    both are no-signal when F is empty. *)
Definition bestOver (now : Z) (p : AggregatedPair) : Prop :=
  ((forall v, ~ freshValid now p v) ->
     bestBid p = NoSignal /\ bestAsk p = NoSignal)
  /\
  (forall v0, freshValid now p v0 ->
     exists vb va,
       freshValid now p vb /\ freshValid now p va
       /\ bestBid p = Val (bid (getEx p vb))
       /\ bestAsk p = Val (ask (getEx p va))
       /\ forall v, freshValid now p v ->
            (bid (getEx p v) <= bid (getEx p vb))%Q
            /\ (ask (getEx p va) <= ask (getEx p v))%Q).

(** The quote that [handleUpdate] stores for an update. *)
Definition quoteOf (data : TimestampedPrice) : ExchangePrice :=
  {| bid := tp_bid data;
     ask := tp_ask data;
     timestamp := tp_timestamp data;
     source := tp_source data |}.

(** The pair that an accepted update writes to: the cached one, or a new
    empty one. *)
Definition entryFor (sym : string) (st : State) : AggregatedPair :=
  match cache_get (PRICE_CACHE st) sym with
  | Some existing => existing
  | None => createPair sym
  end.

(** The venue ranking of the worked examples: the order of the fields. *)
Definition fieldOrder (e : ExchangeName) : nat :=
  match e with
  | Vest => 0
  | Lighter => 1
  | Paradex => 2
  | Extended => 3
  end%nat.

(** The allow-list of the worked examples. *)
Definition btcOnly : list string := ["BTC"].

(** A Vest quote stamped 2000. *)
Definition vestAt2000 : TimestampedPrice :=
  {| tp_symbol := "BTC"; tp_bid := 100; tp_ask := 101;
     tp_timestamp := 2000; tp_source := "rest" |}.

(** A Vest quote stamped before [vestAt2000]. *)
Definition vestAt1000 : TimestampedPrice :=
  {| tp_symbol := "BTC"; tp_bid := 90; tp_ask := 91;
     tp_timestamp := 1000; tp_source := "rest" |}.

(** C2 as the specification words it: an upsert whose timestamp is strictly
    older than the stored quote's leaves the stored quote unchanged. *)
Definition olderUpsertIsNoOp (ALLOWED_SYMBOLS : list string)
    (venueRank : ExchangeName -> nat) : Prop :=
  forall (st : State) (e : ExchangeName) (data : TimestampedPrice) (now : Z)
         (p : AggregatedPair),
    cache_get (PRICE_CACHE st) (tp_symbol data) = Some p ->
    tp_timestamp data < timestamp (getEx p e) ->
    exists p',
      cache_get
        (PRICE_CACHE (handleUpdate ALLOWED_SYMBOLS venueRank e data now st))
        (tp_symbol data) = Some p'
      /\ getEx p' e = getEx p e.

(** The gate of [updateAndRecalculate] on a recomputed pair: both best
    prices positive and the spread at or above the alert threshold. *)
Definition qualifies (p : AggregatedPair) : bool :=
  Num_gt0 (bestBid p) && Num_gt0 (bestAsk p)
  && Num_ge (realSpread p) ALERT_THRESHOLD.

(** A qualifying pair whose symbol is not inside a cool-down recorded in
    the dedup cache: [saveAlert] issues a write for it. *)
Definition issues (now : Z) (dedup : gmap string Z) (p : AggregatedPair) : bool :=
  qualifies p && negb (tooSoon (dedup !! symbol p) now).

(** A Vest quote with a crossed book (bid above ask). *)
Definition vestCrossed : TimestampedPrice :=
  {| tp_symbol := "BTC"; tp_bid := 102; tp_ask := 100;
     tp_timestamp := 1000; tp_source := "rest" |}.

(** C4 as the specification words it: a pair to which no quote contributes
    carries the no-signal sentinel as its spread, not a number. *)
Definition unpopulatedSpreadIsSentinel (ALLOWED_SYMBOLS : list string) : Prop :=
  forall (st : State) (sym : string) (p : AggregatedPair),
    cache_get (getPriceCache ALLOWED_SYMBOLS (startScheduler ALLOWED_SYMBOLS st)) sym
    = Some p ->
    (forall now v, ~ freshValid now p v) ->
    realSpread p = NoSignal.

(** The spec's scenario: Vest quotes 100 / 100.2 and Paradex quotes
    102 / 102.5. *)
Definition vestQuote : TimestampedPrice :=
  {| tp_symbol := "BTC"; tp_bid := 100; tp_ask := 1002 # 10;
     tp_timestamp := 5000; tp_source := "rest" |}.

(** The Paradex quote of the scenario. *)
Definition paradexQuote : TimestampedPrice :=
  {| tp_symbol := "BTC"; tp_bid := 102; tp_ask := 1025 # 10;
     tp_timestamp := 5001; tp_source := "ws" |}.

(** The pair of the scenario after its recomputation: best bid 102 at
    Paradex, best ask 100.2 at Vest. *)
Definition btcOpportunity : AggregatedPair :=
  recomputePair fieldOrder (freshFilter 5001)
    (setEx (setEx (createPair "BTC") Vest (quoteOf vestQuote))
       Paradex (quoteOf paradexQuote)).

(** C5 as the specification words it: a failed write keeps the dedup
    timestamp of its attempt, so a second qualifying event inside the
    cool-down is suppressed. *)
Definition failedAttemptStartsCooldown : Prop :=
  forall (s : AlertStore) (p : AggregatedPair) (now now' : Z) (err : string),
    snd (saveAlert p now s) = WriteIssued ->
    0 < now -> now <= now' -> now' - now < CACHE_TTL ->
    let s1 := fst (saveAlert p now s) in
    let s2 := fst (saveAlert_callback (length (inflight s)) (DbErr err) s1) in
    snd (saveAlert p now' s2) = Deduplicated.

(** Broadcast times, newest first, each at least one throttle window after
    the one before it. *)
Fixpoint spaced (log : list (Z * Cache)) : Prop :=
  match log with
  | [] => True
  | later :: earlier =>
      match earlier with
      | [] => True
      | previous :: _ => fst previous + BROADCAST_THROTTLE <= fst later
      end
      /\ spaced earlier
  end.

(** The time of the latest broadcast of a log, 0 when there is none. *)
Definition latest (log : list (Z * Cache)) : Z :=
  match log with
  | [] => 0
  | b :: _ => fst b
  end.

(** The throttle invariant at clock reading [t]. *)
Definition throttleInv (t : Z) (st : State) : Prop :=
  lastBroadcastTime st <= t
  /\ spaced (broadcasts st)
  /\ lastBroadcastTime st = latest (broadcasts st)
  /\ ((broadcastPending st = false /\ timers st = [])
      \/ (broadcastPending st = true
          /\ timers st = [lastBroadcastTime st + BROADCAST_THROTTLE])).

(** The fields of the state that the throttle reads and writes. *)
Definition throttleView (st : State) : Z * bool * list Z * list (Z * Cache) :=
  (lastBroadcastTime st, broadcastPending st, timers st, broadcasts st).

(** A trace that exercises the throttle: start, register the broadcaster,
    and two accepted updates 1 ms apart. *)
Definition burstTrace : list Event :=
  [EvStart; EvSetBroadcaster;
   EvUpdate Vest vestQuote 5000; EvUpdate Paradex paradexQuote 5001].

(** C7 as the specification words it: a signal that arrives when no
    broadcast happened within the last window is broadcast immediately. *)
Definition idleSignalBroadcastsAtOnce (ALLOWED_SYMBOLS : list string)
    (venueRank : ExchangeName -> nat) : Prop :=
  forall (evs : list Event) (e : ExchangeName) (data : TimestampedPrice)
         (now : Z),
    monotone 0 (evs ++ [EvUpdate e data now]) = true ->
    let st := run ALLOWED_SYMBOLS venueRank initialState evs in
    allowed ALLOWED_SYMBOLS (tp_symbol data) = true ->
    wsBroadcaster st = true ->
    BROADCAST_THROTTLE <= now - latest (broadcasts st) ->
    exists payload,
      broadcasts (handleUpdate ALLOWED_SYMBOLS venueRank e data now st)
      = (now, payload) :: broadcasts st.

(** The cache holds exactly the allow-listed symbols. *)
Definition symbolsAreAllowList (ALLOWED_SYMBOLS : list string) (st : State) : Prop :=
  forall s, In s (cache_keys (PRICE_CACHE st)) <-> In s ALLOWED_SYMBOLS.

(** The alert row [row] was issued along the trace [evs] from [st0]: some
    update of the trace, handled at [now], left in the cache a pair [p] that
    passes the gate, and [row] is the row that [saveAlert] builds from [p]
    at [now]. *)
Definition issuedAlong (ALLOWED_SYMBOLS : list string)
    (venueRank : ExchangeName -> nat) (st0 : State) (evs : list Event)
    (row : AlertRow) (p : AggregatedPair) (now : Z) : Prop :=
  exists evs1 e data evs2,
    evs = evs1 ++ EvUpdate e data now :: evs2
    /\ In p (cache_values
               (PRICE_CACHE
                  (run ALLOWED_SYMBOLS venueRank st0
                     (evs1 ++ [EvUpdate e data now]))))
    /\ qualifies p = true
    /\ row = alertRow p now.

(** An [isCrypto] for the examples: every symbol passes. *)
Definition acceptAll (v : JsVal) : Outcome bool := Normal true.

(** A [parsePrice] for the examples: a number as it is, 0 otherwise. *)
Definition numberOrZero (v : JsVal) : Outcome JsNumber :=
  match v with
  | JNum q => Normal (Fin q)
  | _ => Normal (Fin 0)
  end.

(** A [parseFloat] for the examples, on numbers only. *)
Definition numberOrNaN (v : JsVal) : JsNumber :=
  match v with
  | JNum q => Fin q
  | _ => NaN
  end.

(** A well-formed Lighter record. *)
Definition lighterBtc : JsVal :=
  JObj [("market_type", JStr "perp"); ("status", JStr "active");
        ("symbol", JStr "BTC"); ("best_bid", JNum 100); ("best_ask", JNum 101)].

(** A Lighter record without its [symbol] field. *)
Definition lighterNoSymbol : JsVal :=
  JObj [("market_type", JStr "perp"); ("status", JStr "active");
        ("best_bid", JNum 100); ("best_ask", JNum 101)].

(** A Lighter response with the given records. *)
Definition lighterBody (records : list JsVal) : AxiosResult :=
  AxiosResponse (JObj [("order_book_details", JArr records)]).

(** A well-formed Extended record. *)
Definition extendedBtc : JsVal :=
  JObj [("name", JStr "BTC-USD"); ("active", JBool true);
        ("status", JStr "ACTIVE");
        ("marketStats", JObj [("bidPrice", JNum 100); ("askPrice", JNum 101)])].

(** An ok Extended response with the given records. *)
Definition extendedBody (records : list JsVal) : AxiosResult :=
  AxiosResponse (JObj [("status", JStr "OK"); ("data", JArr records)]).

(** The entry that the [catch] of Lighter's [fetchMarkets] logs. *)
Definition lighterError : LogEntry :=
  {| level := ERROR; tag := "Lighter"; message := "Error fetching markets" |}.

(** The entry that the [catch] of Extended's [fetchMarkets] logs. *)
Definition extendedError (e : string) : LogEntry :=
  {| level := ERROR; tag := "Extended";
     message := String.append "REST fetch failed: " e |}.

(** ** Further vocabulary: metrics, alert calls *)

(** The [saveSpread] calls of a list that are for symbol [s]. *)
Definition metricsFor (s : string) (l : list SpreadMetric) : list SpreadMetric :=
  List.filter (fun m => String.eqb (m_symbol m) s) l.

(** The [saveSpread] calls made by each turn of a trace, each with the clock
    reading of its turn and its symbol, in the order of the calls. *)
Fixpoint metricLog (ALLOWED_SYMBOLS : list string)
    (venueRank : ExchangeName -> nat) (st : State) (evs : list Event)
  : list (Z * string) :=
  match evs with
  | [] => []
  | ev :: evs' =>
      let st' := step ALLOWED_SYMBOLS venueRank st ev in
      map (fun m => (default 0 (eventTime ev), m_symbol m))
        (skipn (length (savedSpreads st)) (savedSpreads st'))
      ++ metricLog ALLOWED_SYMBOLS venueRank st' evs'
  end.

(** Entries of a log for the same key are at least [gap] apart, in the
    order of the log. *)
Fixpoint spacedPerKey (gap : Z) (log : list (Z * string)) : Prop :=
  match log with
  | [] => True
  | a :: rest =>
      (forall b, In b rest -> snd b = snd a -> fst a + gap <= fst b)
      /\ spacedPerKey gap rest
  end.

(** A turn of alert.service.ts on its own: a call of [saveAlert], or the
    callback of a pending write. *)
Inductive AlertEvent : Type :=
  | AlertCall (opportunity : AggregatedPair) (now : Z)
  | AlertDone (i : nat) (out : DbOutcome).

Definition alertStep (s : AlertStore) (ev : AlertEvent) : AlertStore :=
  match ev with
  | AlertCall opportunity now => fst (saveAlert opportunity now s)
  | AlertDone i out => fst (saveAlert_callback i out s)
  end.

Definition alertRun (s : AlertStore) (evs : list AlertEvent) : AlertStore :=
  fold_left alertStep evs s.

(** Along the trace, from clock reading [t0]: the clock is positive and
    never goes back, and [saveAlert] is not called for a symbol while a
    write for that symbol is pending. *)
Fixpoint oneWritePerSymbol (t0 : Z) (s : AlertStore) (evs : list AlertEvent)
  : Prop :=
  match evs with
  | [] => True
  | ev :: evs' =>
      match ev with
      | AlertCall opportunity now =>
          0 < now /\ t0 <= now
          /\ (forall r, In r (inflight s) -> row_symbol r <> symbol opportunity)
          /\ oneWritePerSymbol now (alertStep s ev) evs'
      | AlertDone _ _ => oneWritePerSymbol t0 (alertStep s ev) evs'
      end
  end.

(** The rows of a table as (timestamp, symbol). *)
Definition rowKeys (rows : list AlertRow) : list (Z * string) :=
  map (fun r => (row_timestamp r, row_symbol r)) rows.

(** What one turn did to the [saveSpread] throttle: it made the calls [new],
    at most one per symbol, each for a symbol whose last call was at least
    [DB_SAVE_THROTTLE] before [now], and recorded [now] for those symbols
    and nothing else. *)
Definition metricsAdvance (now : Z) (st st' : State) (new : list SpreadMetric)
  : Prop :=
  savedSpreads st' = savedSpreads st ++ new
  /\ List.NoDup (map m_symbol new)
  /\ forall s,
       (In s (map m_symbol new)
        /\ lastDbSave st' !! s = Some now
        /\ DB_SAVE_THROTTLE <= now - default 0 (lastDbSave st !! s))
       \/ (~ In s (map m_symbol new)
           /\ lastDbSave st' !! s = lastDbSave st !! s).

(** A trace with three Vest updates, at 5000, 6000 and 10000. *)
Definition threeUpdates : list Event :=
  [EvStart;
   EvUpdate Vest vestQuote 5000;
   EvUpdate Vest vestQuote 6000;
   EvUpdate Vest vestQuote 10000].

(** A payload that [performBroadcast] may hand over: a non-empty snapshot
    of some cache. *)
Definition isSnapshot (ALLOWED_SYMBOLS : list string) (payload : Cache) : Prop :=
  payload <> [] /\ exists st, payload = getPriceCache ALLOWED_SYMBOLS st.

(** The invariant of alert.service.ts at clock reading [t], when calls are
    made one write per symbol at a time. *)
Definition dedupInv (t : Z) (s : AlertStore) : Prop :=
  (forall r, In r (alerts s) ->
     exists tl, alertCache s !! row_symbol r = Some tl /\ row_timestamp r <= tl)
  /\ spacedPerKey CACHE_TTL (rowKeys (alerts s))
  /\ (forall sym tl, alertCache s !! sym = Some tl ->
        0 < tl <= t /\ In (tl, sym) (rowKeys (alerts s)))
  /\ (forall r, In r (inflight s) ->
        0 < row_timestamp r <= t
        /\ forall tl, alertCache s !! row_symbol r = Some tl ->
             tl + CACHE_TTL <= row_timestamp r)
  /\ List.NoDup (map row_symbol (inflight s)).

(** Calls of [saveAlert] for the scenario's pair at 1000, 2000 and 61000,
    each write called back before the next call. *)
Definition serialAlerts : list AlertEvent :=
  [AlertCall btcOpportunity 1000; AlertDone 0 DbOk;
   AlertCall btcOpportunity 2000;
   AlertCall btcOpportunity 61000; AlertDone 0 DbOk].

(** A trace with one broadcast: a Vest update after the broadcaster was
    registered. *)
Definition broadcastOnce : list Event :=
  [EvStart; EvSetBroadcaster; EvUpdate Vest vestQuote 5000].

(** The payload most recently handed to the broadcaster, with the clock
    reading of the hand-over. *)
Definition lastBroadcast (st : State) : Z * Cache :=
  hd (0, []) (broadcasts st).

(** Every pair of the cache sits under its own symbol, which is on the
    allow-list. *)
Definition cacheOwnSymbols (ALLOWED_SYMBOLS : list string) (st : State) : Prop :=
  forall k p, In (k, p) (PRICE_CACHE st) ->
    symbol p = k /\ In k ALLOWED_SYMBOLS.

(** What has left the aggregator for the database is for allow-listed
    symbols: the [saveSpread] calls, the alert rows written and the alert
    rows of pending writes. *)
Definition outputsAllowed (ALLOWED_SYMBOLS : list string) (st : State) : Prop :=
  (forall m, In m (savedSpreads st) -> In (m_symbol m) ALLOWED_SYMBOLS)
  /\ (forall r, In r (alerts (alertStore st)) ->
        In (row_symbol r) ALLOWED_SYMBOLS)
  /\ (forall r, In r (inflight (alertStore st)) ->
        In (row_symbol r) ALLOWED_SYMBOLS).

(** ** Paradex: REST fallback and WebSocket feed *)

(** [s.endsWith(suffix)] on a string *)
Definition str_endsWith (s suffix : string) : bool :=
  let n := String.length s in
  let m := String.length suffix in
  (m <=? n)%nat && String.eqb (String.substring (n - m) m s) suffix.

(** The test [v?.endsWith(suffix)]: [undefined], so false, on [null] and
    [undefined]; the method on a string; no other value has a callable
    [endsWith]. *)
Definition optEndsWith (v : JsVal) (suffix : string) : Outcome bool :=
  match v with
  | JUndefined | JNull => Normal false
  | JStr s => Normal (str_endsWith s suffix)
  | _ => Thrown TypeError
  end.

(** class ParadexService *)
Module ParadexService.
Section Paradex.

Variable ALLOWED_SYMBOLS : list string.

(** The built-in [parseFloat]: it converts its argument to a string
    first, which throws TypeError on an object that has no callable
    [toString] or [valueOf] giving a primitive. *)
Variable parseFloat : JsVal -> Outcome JsNumber.

Definition TAG : string := "Paradex".
Definition maxReconnectAttempts : Z := 5.
Definition reconnectDelay : Z := 3000.

(** The callback of [forEach], in [fetchMarkets] and in [processMarketData]
    alike: the record that is pushed, or handed to [onWsUpdate]. *)
Definition eachMarket (m : JsVal) : Outcome (option MarketData) :=
  sym0 ← getProp m "symbol";
  suffixed ← optEndsWith sym0 "-USD-PERP";
  if negb suffixed then Normal None
  else
    sym1 ← getProp m "symbol";
    symbol ← callSplitFirst sym1 "-";
    if negb (ExtendedService.allowedVal ALLOWED_SYMBOLS symbol) then Normal None
    else
      bid0 ← getProp m "bid";
      bidArg ← orElse bid0 (Normal (JNum 0));
      bid ← parseFloat bidArg;
      ask0 ← getProp m "ask";
      askArg ← orElse ask0 (Normal (JNum 0));
      ask ← parseFloat askArg;
      match positive bid, positive ask with
      | Some b, Some a =>
          Normal (Some {| md_symbol := symbol; md_bid := b; md_ask := a |})
      | _, _ => Normal None
      end.

(** The [try] block of [fetchMarkets]. *)
Definition tryBlock (response : AxiosResult) : Outcome (list MarketData) :=
  data ← awaitGet response;
  results ← getProp data "results";
  markets ← orElse results (Normal (JArr []));
  items ← asArray markets;
  match forEach eachMarket items [] with
  | (result, None) => Normal result
  | (_, Some e) => Thrown e
  end.

(** [fetchMarkets()]: what the promise settles to, and the log entries. *)
Definition fetchMarkets (response : AxiosResult)
  : Outcome (list MarketData) * list LogEntry :=
  match tryBlock response with
  | Normal result => (Normal result, [])
  | Thrown e =>
      (Normal [],
       [{| level := ERROR; tag := TAG;
           message := "Error fetching markets via REST" |}])
  end.

(** [processMarketData(data)]: the [onWsUpdate] calls it makes, in order,
    and the error if it threw. *)
Definition processMarketData (data : JsVal) : list MarketData * option string :=
  let updates := match data with JArr items => items | _ => [data] end in
  forEach eachMarket updates [].

(** What [handleWsMessage] does with a message. *)
Inductive WsEffect : Type :=
  | Subscribed                          (* the confirmation is logged *)
  | Updates (calls : list MarketData).  (* the [onWsUpdate] calls made *)

(** The [try] block of [handleWsMessage], given what [JSON.parse] gave. *)
Definition handleWsMessage_try (parsed : Outcome JsVal)
  : list MarketData * Outcome bool :=
  match parsed with
  | Thrown e => ([], Thrown e)
  | Normal message =>
      match
        (result ← getProp message "result";
         if truthy result
         then channel ← getProp result "channel";
              Normal (isStr channel "markets_summary")
         else Normal false)
      with
      | Thrown e => ([], Thrown e)
      | Normal true => ([], Normal true)
      | Normal false =>
          match
            (params ← getProp message "params";
             if truthy params
             then channel ← getProp params "channel";
                  if isStr channel "markets_summary"
                  then marketData ← getProp params "data";
                       Normal (if truthy marketData then Some marketData else None)
                  else Normal None
             else Normal None)
          with
          | Thrown e => ([], Thrown e)
          | Normal None => ([], Normal false)
          | Normal (Some marketData) =>
              match processMarketData marketData with
              | (calls, None) => (calls, Normal false)
              | (calls, Some e) => (calls, Thrown e)
              end
          end
      end
  end.

(** [handleWsMessage(data)]: the [catch] drops the error. *)
Definition handleWsMessage (parsed : Outcome JsVal) : WsEffect :=
  match handleWsMessage_try parsed with
  | (_, Normal true) => Subscribed
  | (calls, _) => Updates calls
  end.

(** What [scheduleReconnect] does besides counting. *)
Inductive ReconnectAction : Type :=
  | ArmTimer (delay : Z)     (* setTimeout(() => this.connectWebSocket(), delay) *)
  | StartFallback            (* this.startFallback() *)
  | NoAction.

(** [scheduleReconnect()], given [reconnectAttempts] and [fallbackActive]:
    the new [reconnectAttempts] and what was done. *)
Definition scheduleReconnect (reconnectAttempts : Z) (fallbackActive : bool)
  : Z * ReconnectAction :=
  if reconnectAttempts <? maxReconnectAttempts then
    let attempts := reconnectAttempts + 1 in
    (attempts, ArmTimer (Z.min (reconnectDelay * 2 ^ (attempts - 1)) 30000))
  else
    (reconnectAttempts, if negb fallbackActive then StartFallback else NoAction).

(** 'close' events in a row, each seeing the given [fallbackActive]: the
    actions taken. *)
Fixpoint closesInARow (reconnectAttempts : Z) (fallbackActive : list bool)
  : list ReconnectAction :=
  match fallbackActive with
  | [] => []
  | f :: rest =>
      let '(attempts, action) := scheduleReconnect reconnectAttempts f in
      action :: closesInARow attempts rest
  end.

End Paradex.
End ParadexService.

(** A Paradex record for the examples. *)
Definition paradexBtc : JsVal :=
  JObj [("symbol", JStr "BTC-USD-PERP"); ("bid", JNum 100); ("ask", JNum 101)].

(** A [markets_summary] message carrying [data]. *)
Definition paradexMessage (data : JsVal) : Outcome JsVal :=
  Normal (JObj [("params",
                 JObj [("channel", JStr "markets_summary"); ("data", data)])]).

(** A REST response listing [records]. *)
Definition paradexBody (records : list JsVal) : AxiosResult :=
  AxiosResponse (JObj [("results", JArr records)]).

(** A record on which the callback of Paradex's [forEach] can read
    [symbol] and test it: the record is not [null] or [undefined], and its
    [symbol] is a string or is missing. *)
Definition readable (m : JsVal) : bool :=
  match getProp m "symbol" with
  | Normal (JStr _ | JUndefined | JNull) => true
  | _ => false
  end.

(** A record whose prices the callback goes on to parse: its [symbol] is a
    string that ends in [-USD-PERP] and starts with an allow-listed
    symbol. *)
Definition priced (ALLOWED_SYMBOLS : list string) (m : JsVal) : bool :=
  match getProp m "symbol" with
  | Normal (JStr s) =>
      str_endsWith s "-USD-PERP"
      && ExtendedService.allowedVal ALLOWED_SYMBOLS (JStr (str_splitFirst s "-"))
  | _ => false
  end.

(** [m[field] || 0], the argument of [parseFloat], for a record that is
    not [null] or [undefined]. *)
Definition priceArg (m : JsVal) (field : string) : JsVal :=
  match getProp m field with
  | Normal v => if truthy v then v else JNum 0
  | Thrown _ => JNum 0
  end.

(** [parseFloat] returns on [v]. *)
Definition parses (parseFloat : JsVal -> Outcome JsNumber) (v : JsVal) : bool :=
  match parseFloat v with
  | Normal _ => true
  | Thrown _ => false
  end.

(** A record that the callback of Paradex's [forEach] gets through: it is
    readable and, when its prices are parsed, [parseFloat] returns on its
    bid and on its ask. *)
Definition passes (ALLOWED_SYMBOLS : list string)
    (parseFloat : JsVal -> Outcome JsNumber) (m : JsVal) : bool :=
  readable m
  && (negb (priced ALLOWED_SYMBOLS m)
      || (parses parseFloat (priceArg m "bid")
          && parses parseFloat (priceArg m "ask"))).

(** A [parseFloat] for the examples: a number as it is, TypeError on an
    object or an array (as on one without a callable [toString]), NaN
    otherwise. *)
Definition parseFloatOrThrow (v : JsVal) : Outcome JsNumber :=
  match v with
  | JNum q => Normal (Fin q)
  | JObj _ | JArr _ => Thrown TypeError
  | _ => Normal NaN
  end.

(** A Paradex record whose bid is an object without a callable
    [toString]. *)
Definition paradexUnparsable : JsVal :=
  JObj [("symbol", JStr "BTC-USD-PERP");
        ("bid", JObj [("toString", JNum 1)]); ("ask", JNum 1)].

(** The entry that the [catch] of Paradex's [fetchMarkets] logs. *)
Definition paradexError : LogEntry :=
  {| level := ERROR; tag := "Paradex";
     message := "Error fetching markets via REST" |}.

(** ** Metrics repository: [saveTopPairsToDb] *)

(** [Math.abs] *)
Definition Math_abs (q : Q) : Q := if Qlt_bool q 0 then (- q)%Q else q.

(** Every number of the list is at least as large as every later one. *)
Fixpoint descending (l : list Q) : Prop :=
  match l with
  | [] => True
  | a :: rest => (forall b, In b rest -> (b <= a)%Q) /\ descending rest
  end.

Module MetricsRepository.
Section Repository.

Variable ALLOWED_SYMBOLS : list string.

(** The number that the no-signal value of [realSpread] converts to. *)
Variable noSignal : JsNumber.

(** [p.realSpread] as a number. *)
Definition spreadNumber (p : AggregatedPair) : JsNumber :=
  match realSpread p with
  | Val q => Fin q
  | NoSignal => noSignal
  end.

(** [p.realSpread > -10 && Math.abs(p.realSpread) < 50] *)
Definition inRange (p : AggregatedPair) : bool :=
  match spreadNumber p with
  | Fin q => Qlt_bool (- (10)) q && Qlt_bool (Math_abs q) 50
  | NaN => false
  end.

(** The number that the comparator [(a, b) => b.realSpread - a.realSpread]
    orders by; it is only called on pairs that passed the filter, whose
    [realSpread] is not NaN. *)
Definition spreadKey (p : AggregatedPair) : Q :=
  match spreadNumber p with
  | Fin q => q
  | NaN => 0
  end.

(** [Array.prototype.sort] with that comparator: descending, and stable. *)
Fixpoint insertDesc (p : AggregatedPair) (sorted : list AggregatedPair)
  : list AggregatedPair :=
  match sorted with
  | [] => [p]
  | p' :: rest =>
      if Qlt_bool (spreadKey p) (spreadKey p')
      then p' :: insertDesc p rest
      else p :: sorted
  end.

Fixpoint sortDesc (l : list AggregatedPair) : list AggregatedPair :=
  match l with
  | [] => []
  | p :: rest => insertDesc p (sortDesc rest)
  end.

(** [Object.values(cache).filter(...).sort(...).slice(0, 5)] *)
Definition topPairs (cache : Cache) : list AggregatedPair :=
  firstn 5 (sortDesc (List.filter inRange (cache_values cache))).

(** [saveTopPairsToDb()] in the aggregator state [st] at clock reading
    [now]: [None] when it returns before preparing a statement, otherwise
    the [stmt.run] calls, each as the timestamp and the pair whose fields
    are the other arguments. *)
Definition saveTopPairsToDb (st : State) (now : Z)
  : option (list (Z * AggregatedPair)) :=
  let pairs := topPairs (getPriceCache ALLOWED_SYMBOLS st) in
  if (length pairs =? 0)%nat then None
  else Some (map (fun p => (now, p)) pairs).

End Repository.
End MetricsRepository.

(** ** Logger (utils/logger.js and utils/app-logger.ts)

    The value of the environment variable LOG_LEVEL is taken to be a
    string of ASCII characters. *)

Module Logger.

Definition upperAscii (c : Ascii.ascii) : Ascii.ascii :=
  let n := Ascii.nat_of_ascii c in
  if ((97 <=? n) && (n <=? 122))%nat then Ascii.ascii_of_nat (n - 32) else c.

(** [s.toUpperCase()] *)
Fixpoint toUpperCase (s : string) : string :=
  match s with
  | EmptyString => EmptyString
  | String c s' => String (upperAscii c) (toUpperCase s')
  end.

Inductive Level : Type := DEBUG | INFO | WARN | ERROR.

(** The object [LOG_LEVELS]: its own properties. *)
Definition LOG_LEVELS : list (string * Z) :=
  [("DEBUG", 0); ("INFO", 1); ("WARN", 2); ("ERROR", 3)].

(** [LOG_LEVELS.DEBUG] and the like. *)
Definition levelNumber (l : Level) : Z :=
  match l with
  | DEBUG => 0
  | INFO => 1
  | WARN => 2
  | ERROR => 3
  end.

Definition levelName (l : Level) : string :=
  match l with
  | DEBUG => "DEBUG"
  | INFO => "INFO"
  | WARN => "WARN"
  | ERROR => "ERROR"
  end.

(** The property names that [LOG_LEVELS] inherits from [Object.prototype]. *)
Definition inheritedKeys : list string :=
  ["constructor"; "hasOwnProperty"; "isPrototypeOf"; "propertyIsEnumerable";
   "toLocaleString"; "toString"; "valueOf"; "__defineGetter__";
   "__defineSetter__"; "__lookupGetter__"; "__lookupSetter__"; "__proto__"].

(** What reading [LOG_LEVELS[k]] finds. *)
Inductive Found : Type :=
  | Own (n : Z)       (* one of the four numbers *)
  | Inherited         (* a member of [Object.prototype], not a number *)
  | Missing.          (* [undefined] *)

Fixpoint ownLevel (levels : list (string * Z)) (k : string) : option Z :=
  match levels with
  | [] => None
  | (k', n) :: rest => if String.eqb k k' then Some n else ownLevel rest k
  end.

Definition readLevel (k : string) : Found :=
  match ownLevel LOG_LEVELS k with
  | Some n => Own n
  | None =>
      if existsb (String.eqb k) inheritedKeys then Inherited else Missing
  end.

(** [CURRENT_LEVEL] of logger.js, for the value of LOG_LEVEL if it is set:
    [LOG_LEVELS[process.env.LOG_LEVEL?.toUpperCase()] ?? LOG_LEVELS.INFO].
    [None] stands for a value that is not a number, on which every
    comparison is false. *)
Definition CURRENT_LEVEL_js (env : option string) : option Z :=
  let key := match env with
             | Some s => toUpperCase s
             | None => "undefined"
             end in
  match readLevel key with
  | Own n => Some n
  | Inherited => None
  | Missing => Some (levelNumber INFO)
  end.

(** [CURRENT_LEVEL] of app-logger.ts:
    [(RAW_LEVEL && RAW_LEVEL in LOG_LEVELS) ? LOG_LEVELS[RAW_LEVEL] : LOG_LEVELS.INFO]. *)
Definition CURRENT_LEVEL_ts (env : option string) : option Z :=
  match env with
  | None => Some (levelNumber INFO)
  | Some s =>
      let RAW_LEVEL := toUpperCase s in
      if String.eqb RAW_LEVEL "" then Some (levelNumber INFO)
      else
        match readLevel RAW_LEVEL with
        | Own n => Some n
        | Inherited => None
        | Missing => Some (levelNumber INFO)
        end
  end.

(** [CURRENT_LEVEL <= LOG_LEVELS.X] *)
Definition enabled (CURRENT_LEVEL : option Z) (l : Level) : bool :=
  match CURRENT_LEVEL with
  | Some c => c <=? levelNumber l
  | None => false
  end.

(** [formatMessage(level, tag, message)], with the timestamp it reads. *)
Definition formatMessage (timestamp level tag message : string) : string :=
  String.append timestamp
    (String.append " ["
       (String.append level
          (String.append "] ["
             (String.append tag (String.append "] " message))))).

Inductive Console : Type := ConsoleLog | ConsoleWarn | ConsoleError.

(** A call of a console method: the formatted line and the second
    argument, if one is passed. *)
Record Written : Type := mkWritten {
  console : Console;
  line : string;
  extra : option JsVal
}.

Definition debug (CURRENT_LEVEL : option Z) (timestamp tag message : string)
    (data : JsVal) : option Written :=
  if enabled CURRENT_LEVEL DEBUG then
    let formatted := formatMessage timestamp "DEBUG" tag message in
    Some {| console := ConsoleLog; line := formatted;
            extra := if truthy data then Some data else None |}
  else None.

Definition info (CURRENT_LEVEL : option Z) (timestamp tag message : string)
    (data : JsVal) : option Written :=
  if enabled CURRENT_LEVEL INFO then
    let formatted := formatMessage timestamp "INFO" tag message in
    Some {| console := ConsoleLog; line := formatted;
            extra := if truthy data then Some data else None |}
  else None.

Definition warn (CURRENT_LEVEL : option Z) (timestamp tag message : string)
    (data : JsVal) : option Written :=
  if enabled CURRENT_LEVEL WARN then
    let formatted := formatMessage timestamp "WARN" tag message in
    Some {| console := ConsoleWarn; line := formatted;
            extra := if truthy data then Some data else None |}
  else None.

(** [error.message || error], for a truthy [error] *)
Definition messageOf (error : JsVal) : JsVal :=
  match getProp error "message" with
  | Normal m => if truthy m then m else error
  | Thrown _ => error
  end.

Definition error (CURRENT_LEVEL : option Z) (timestamp tag message : string)
    (error : JsVal) : option Written :=
  if enabled CURRENT_LEVEL ERROR then
    let formatted := formatMessage timestamp "ERROR" tag message in
    Some {| console := ConsoleError; line := formatted;
            extra := if truthy error then Some (messageOf error) else None |}
  else None.

(** The method of [logger] for a level. *)
Definition method (l : Level)
  : option Z -> string -> string -> string -> JsVal -> option Written :=
  match l with
  | DEBUG => debug
  | INFO => info
  | WARN => warn
  | ERROR => error
  end.

(** A character in the range a to z. *)
Definition isLower (c : Ascii.ascii) : bool :=
  let n := Ascii.nat_of_ascii c in ((97 <=? n) && (n <=? 122))%nat.

Fixpoint hasLower (s : string) : bool :=
  match s with
  | EmptyString => false
  | String c s' => isLower c || hasLower s'
  end.

End Logger.

(** ** Vest: REST polling with per-symbol depth requests *)

(** [v.length] *)
Definition getLength (v : JsVal) : Outcome JsVal :=
  match v with
  | JUndefined | JNull => Thrown TypeError
  | JArr items => Normal (JNum (inject_Z (Z.of_nat (length items))))
  | JStr s => Normal (JNum (inject_Z (Z.of_nat (String.length s))))
  | JObj fields => Normal (fields_get fields "length")
  | _ => Normal JUndefined
  end.

(** [v[0]] *)
Definition getFirst (v : JsVal) : Outcome JsVal :=
  match v with
  | JUndefined | JNull => Thrown TypeError
  | JArr items => Normal (hd JUndefined items)
  | JStr s =>
      Normal match s with
             | EmptyString => JUndefined
             | String c _ => JStr (String c EmptyString)
             end
  | JObj fields => Normal (fields_get fields "0")
  | _ => Normal JUndefined
  end.

(** [v?.member]: [undefined] on [null] and [undefined], else the read. *)
Definition optChain (v : JsVal) (read : JsVal -> Outcome JsVal) : Outcome JsVal :=
  match v with
  | JUndefined | JNull => Normal JUndefined
  | _ => read v
  end.

(** [v.endsWith(suffix)]: only strings have the method. *)
Definition callEndsWith (v : JsVal) (suffix : string) : Outcome bool :=
  match v with
  | JStr s => Normal (str_endsWith s suffix)
  | _ => Thrown TypeError
  end.

(** [items.forEach(body)] where [body] ends by pushing to a list. *)
Fixpoint forEachPush {A : Type} (body : JsVal -> Outcome (option A))
    (items : list JsVal) (pushed : list A) : Outcome (list A) :=
  match items with
  | [] => Normal pushed
  | x :: rest =>
      match body x with
      | Normal (Some a) => forEachPush body rest (pushed ++ [a])
      | Normal None => forEachPush body rest pushed
      | Thrown e => Thrown e
      end
  end.

(** class VestService (REST only, on the hybrid base class) *)
Module VestService.
Section Vest.

Variable ALLOWED_SYMBOLS : list string.

(** The built-in [parseFloat]. *)
Variable parseFloat : JsVal -> JsNumber.

(** [CONCURRENCY] of the configuration module. *)
Variable CONCURRENCY : nat.

(** What the depth request settles to for the entry of [symbolsToFetch] at
    a position. *)
Variable depth : nat -> AxiosResult.

Definition TAG : string := "Vest".

(** An entry of [symbolsToFetch]. *)
Record Queued : Type := mkQueued {
  base : JsVal;
  querySym : JsVal
}.

(** The [try] block of [fetchDepth]. *)
Definition fetchDepth_try (response : AxiosResult)
  : Outcome (option (JsNumber * JsNumber)) :=
  data ← awaitGet response;
  bids ← optChain data (fun d => getProp d "bids");
  bidsLength ← optChain bids getLength;
  if negb (truthy bidsLength) then Normal None
  else
    asks ← optChain data (fun d => getProp d "asks");
    asksLength ← optChain asks getLength;
    if negb (truthy asksLength) then Normal None
    else
      bids' ← getProp data "bids";
      bid0 ← getFirst bids';
      bid00 ← getFirst bid0;
      bidArg ← orElse bid00 (Normal (JNum 0));
      asks' ← getProp data "asks";
      ask0 ← getFirst asks';
      ask00 ← getFirst ask0;
      askArg ← orElse ask00 (Normal (JNum 0));
      Normal (Some (parseFloat bidArg, parseFloat askArg)).

(** [fetchDepth(symbol)], given what the request settles to: [None] is
    [null]. *)
Definition fetchDepth (response : AxiosResult) : option (JsNumber * JsNumber) :=
  match fetchDepth_try response with
  | Normal data => data
  | Thrown _ => None
  end.

(** The callback of [tickers.forEach]. *)
Definition eachTicker (t : JsVal) : Outcome (option Queued) :=
  sym ← getProp t "symbol";
  suffixed ← callEndsWith sym "-PERP";
  if negb suffixed then Normal None
  else
    sym1 ← getProp t "symbol";
    baseSymbol ← callSplitFirst sym1 "-";
    if negb (ExtendedService.allowedVal ALLOWED_SYMBOLS baseSymbol)
    then Normal None
    else
      sym2 ← getProp t "symbol";
      Normal (Some {| base := baseSymbol; querySym := sym2 |}).

(** The [try] block up to the loop: [symbolsToFetch]. *)
Definition queueSymbols (response : AxiosResult) : Outcome (list Queued) :=
  data ← awaitGet response;
  tickers0 ← getProp data "tickers";
  tickers ← orElse tickers0 (Normal (JArr []));
  items ← asArray tickers;
  forEachPush eachTicker items [].

(** The callback of [batchResults.forEach]: the record it pushes. *)
Definition eachResult (baseSymbol : JsVal) (data : option (JsNumber * JsNumber))
  : option MarketData :=
  match data with
  | Some (b, a) =>
      match positive b, positive a with
      | Some bid, Some ask =>
          Some {| md_symbol := baseSymbol; md_bid := bid; md_ask := ask |}
      | _, _ => None
      end
  | None => None
  end.

(** The entry at a position of [symbolsToFetch], after its depth request. *)
Definition resolve (entry : nat * Queued) : option MarketData :=
  eachResult (base (snd entry)) (fetchDepth (depth (fst entry))).

(** The records pushed for a batch, in the order of the batch. *)
Definition pushBatch (batch : list (nat * Queued)) : list MarketData :=
  flat_map (fun entry => match resolve entry with
                         | Some r => [r]
                         | None => []
                         end) batch.

(** [symbolsToFetch] with the positions. *)
Definition indexed (symbolsToFetch : list Queued) : list (nat * Queued) :=
  combine (seq 0 (length symbolsToFetch)) symbolsToFetch.

(** The [for] loop from index [i], at most [fuel] iterations: [results]
    when the loop has ended, [None] when it has not.  [fetchDepth] never
    rejects, so [Promise.all] resolves in the order of the batch;
    [sleep(100)] is taken to resolve. *)
Fixpoint batchLoop (symbolsToFetch : list Queued) (fuel : nat) (i : nat)
    (results : list MarketData) : option (list MarketData) :=
  if (i <? length symbolsToFetch)%nat then
    match fuel with
    | O => None
    | S fuel' =>
        let batch := firstn CONCURRENCY (skipn i (indexed symbolsToFetch)) in
        batchLoop symbolsToFetch fuel' (i + CONCURRENCY)
          (results ++ pushBatch batch)
    end
  else Some results.

(** [fetchMarkets()], given what the ticker request settles to: what the
    promise resolves to and the log entries, or [None] when the loop has
    not ended within [fuel] iterations. *)
Definition fetchMarkets (fuel : nat) (response : AxiosResult)
  : option (list MarketData * list LogEntry) :=
  match queueSymbols response with
  | Thrown e =>
      Some ([], [{| level := ERROR; tag := TAG;
                    message := String.append "REST fetch failed: " e |}])
  | Normal symbolsToFetch =>
      match batchLoop symbolsToFetch fuel 0 [] with
      | Some results => Some (results, [])
      | None => None
      end
  end.

End Vest.
End VestService.

(** A Vest ticker response listing [BTC-PERP], and a depth response. *)
Definition vestTickers : AxiosResult :=
  AxiosResponse (JObj [("tickers", JArr [JObj [("symbol", JStr "BTC-PERP")]])]).

Definition vestDepth : AxiosResult :=
  AxiosResponse
    (JObj [("bids", JArr [JArr [JNum 100; JNum 1]]);
           ("asks", JArr [JArr [JNum 101; JNum 1]])]).

(** ** Reconnection of the WebSocket services *)

(** What a socket created by [connect] reports to the handlers that
    [connect] registers on it. *)
Inductive SocketEvent : Type :=
  | SocketOpen       (* 'open' *)
  | SocketClose.     (* 'close' *)

(** [v > 0], given the conversion to a number that [>] applies to a
    string, an array or an object. *)
Definition gtZero (toNumber : JsVal -> JsNumber) (v : JsVal) : bool :=
  match v with
  | JUndefined | JNull | JNaN => false
  | JBool b => b
  | JNum q => Qlt_bool 0 q
  | JStr _ | JArr _ | JObj _ =>
      match positive (toNumber v) with
      | Some _ => true
      | None => false
      end
  end.

(** [s.split(c)] for a separator of one character. *)
Fixpoint str_split (c : Ascii.ascii) (s : string) : list string :=
  match s with
  | EmptyString => [EmptyString]
  | String a rest =>
      if Ascii.eqb a c then EmptyString :: str_split c rest
      else match str_split c rest with
           | part :: parts => String a part :: parts
           | [] => [String a EmptyString]
           end
  end.

(** The character of [':'] *)
Definition colon : Ascii.ascii := Ascii.ascii_of_nat 58.

(** [v.split(c)]: only strings have [split]. *)
Definition callSplit (v : JsVal) (c : Ascii.ascii) : Outcome (list string) :=
  match v with
  | JStr s => Normal (str_split c s)
  | _ => Thrown TypeError
  end.

(** [v === n] for a number [n] *)
Definition isNum (v : JsVal) (n : JsNumber) : bool :=
  match v, n with
  | JNum q, Fin q' => Qeq_bool q q'
  | _, _ => false
  end.

(** [n || 0] *)
Definition orZero (q : Q) : Q := if Qeq_bool q 0 then 0%Q else q.

(** [Math.max(...l)] and [Math.min(...l)] for a list with first element
    [first]. *)
Definition maxOf (first : Q) (rest : list Q) : Q :=
  fold_left (fun m x => if Qlt_bool m x then x else m) rest first.

Definition minOf (first : Q) (rest : list Q) : Q :=
  fold_left (fun m x => if Qlt_bool x m then x else m) rest first.

(** [items.map(body)] for a [body] that may throw. *)
Fixpoint mapOutcome {A B : Type} (body : A -> Outcome B) (items : list A)
  : Outcome (list B) :=
  match items with
  | [] => Normal []
  | x :: rest =>
      y ← body x;
      ys ← mapOutcome body rest;
      Normal (y :: ys)
  end.

(** class VestWebSocketService *)
Module VestWebSocketService.

Definition maxReconnectAttempts : Z := 20.
Definition reconnectDelay : Z := 3000.

(** The fields of the service that the handlers of a socket touch. *)
Record Conn : Type := mkConn {
  isConnected : bool;
  reconnectAttempts : Z
}.

(** The fields as the constructor sets them. *)
Definition initial : Conn := {| isConnected := false; reconnectAttempts := 0 |}.

(** [scheduleReconnect()]: the service, and the delay of the timer that was
    armed, if one was. *)
Definition scheduleReconnect (c : Conn) : Conn * option Z :=
  if reconnectAttempts c <? maxReconnectAttempts then
    let attempts := reconnectAttempts c + 1 in
    ({| isConnected := isConnected c; reconnectAttempts := attempts |},
     Some (reconnectDelay * Z.min attempts 5))
  else (c, None).

(** The 'open' and 'close' handlers (pings and subscriptions left out). *)
Definition onOpen (c : Conn) : Conn :=
  {| isConnected := true; reconnectAttempts := 0 |}.

Definition onClose (c : Conn) : Conn * option Z :=
  scheduleReconnect
    {| isConnected := false; reconnectAttempts := reconnectAttempts c |}.

(** The service after the events, and the delays of the timers armed, in
    the order they were armed. *)
Fixpoint socketRun (c : Conn) (evs : list SocketEvent) : Conn * list Z :=
  match evs with
  | [] => (c, [])
  | SocketOpen :: evs' => socketRun (onOpen c) evs'
  | SocketClose :: evs' =>
      let '(c1, armed) := onClose c in
      let '(c2, rest) := socketRun c1 evs' in
      (c2, match armed with Some d => d :: rest | None => rest end)
  end.

(** The payload of an 'update' event. *)
Record DepthUpdate : Type := mkDepthUpdate {
  u_symbol : JsVal;
  u_bid : JsNumber;
  u_ask : JsNumber
}.

Section Messages.

(** The built-in [parseFloat]. *)
Variable parseFloat : JsVal -> JsNumber.

(** The conversion to a number that [>] applies to a string, an array or
    an object. *)
Variable toNumber : JsVal -> JsNumber.

(** [side && side.length > 0 ? parseFloat(side[0][0]) : 0] *)
Definition bestOf (side : JsVal) : Outcome JsNumber :=
  if truthy side then
    len ← getLength side;
    if gtZero toNumber len then
      level ← getFirst side;
      price ← getFirst level;
      Normal (parseFloat price)
    else Normal (Fin 0)
  else Normal (Fin 0).

(** The [try] block of [handleMessage], given what [JSON.parse] gave: the
    update that is emitted, if one is. *)
Definition handleMessage_try (parsed : Outcome JsVal)
  : Outcome (option DepthUpdate) :=
  msg ← parsed;
  channel ← getProp msg "channel";
  if negb (truthy channel) then Normal None
  else
    isDepth ← callEndsWith channel "@depth";
    if negb isDepth then Normal None
    else
      data ← getProp msg "data";
      if negb (truthy data) then Normal None
      else
        channel' ← getProp msg "channel";
        symbol ← callSplitFirst channel' "-";
        bids ← getProp data "bids";
        asks ← getProp data "asks";
        bid ← bestOf bids;
        ask ← bestOf asks;
        match positive bid, positive ask with
        | None, None => Normal None
        | _, _ =>
            Normal (Some {| u_symbol := symbol; u_bid := bid; u_ask := ask |})
        end.

(** [handleMessage(data)]: the [catch] drops the error. *)
Definition handleMessage (parsed : Outcome JsVal) : option DepthUpdate :=
  match handleMessage_try parsed with
  | Normal emitted => emitted
  | Thrown _ => None
  end.

End Messages.

End VestWebSocketService.

(** class LighterWebSocketService *)
Module LighterWebSocketService.

Definition maxReconnectAttempts : Z := 20.
Definition reconnectDelay : Z := 3000.

Record Conn : Type := mkConn {
  isConnected : bool;
  reconnectAttempts : Z
}.

Definition initial : Conn := {| isConnected := false; reconnectAttempts := 0 |}.

(** The two timers of [scheduleReconnect]. *)
Inductive Timer : Type :=
  | Reconnect (delay : Z)            (* () => this.connect() *)
  | ResetAndReconnect (delay : Z).   (* reconnectAttempts = 0, then connect() *)

Definition delayOf (t : Timer) : Z :=
  match t with
  | Reconnect d | ResetAndReconnect d => d
  end.

(** [scheduleReconnect()]: the service and the timer that was armed.
    [reconnectAttempts] is at least 1 where the power is taken. *)
Definition scheduleReconnect (c : Conn) : Conn * Timer :=
  if reconnectAttempts c <? maxReconnectAttempts then
    let attempts := reconnectAttempts c + 1 in
    ({| isConnected := isConnected c; reconnectAttempts := attempts |},
     Reconnect (Z.min (reconnectDelay * 2 ^ (attempts - 1)) 30000))
  else (c, ResetAndReconnect 60000).

Definition onOpen (c : Conn) : Conn :=
  {| isConnected := true; reconnectAttempts := 0 |}.

Definition onClose (c : Conn) : Conn * Timer :=
  scheduleReconnect
    {| isConnected := false; reconnectAttempts := reconnectAttempts c |}.

(** What the callback of a timer does to the fields, before [connect]
    creates the next socket. *)
Definition onTimer (c : Conn) (t : Timer) : Conn :=
  match t with
  | Reconnect _ => c
  | ResetAndReconnect _ =>
      {| isConnected := isConnected c; reconnectAttempts := 0 |}
  end.

(** A turn of the service: an event of the socket, or a timer firing. *)
Inductive Turn : Type :=
  | Socket (ev : SocketEvent)
  | Fired (t : Timer).

Fixpoint socketRun (c : Conn) (turns : list Turn) : Conn * list Timer :=
  match turns with
  | [] => (c, [])
  | Socket SocketOpen :: rest => socketRun (onOpen c) rest
  | Socket SocketClose :: rest =>
      let '(c1, t) := onClose c in
      let '(c2, armed) := socketRun c1 rest in
      (c2, t :: armed)
  | Fired t :: rest => socketRun (onTimer c t) rest
  end.

(** The number of 'close' events among the turns. *)
Definition closes (turns : list Turn) : nat :=
  length (List.filter (fun t => match t with Socket SocketClose => true | _ => false end)
            turns).

(** The fields that [handleMessage] reads and writes: [marketIndexMap] with
    its keys in the order of [Object.keys], and [orderBooks] as
    (bid, ask).  Symbols are not names of members of [Object.prototype]. *)
Record Books : Type := mkBooks {
  marketIndexMap : list (string * JsVal);
  orderBooks : gmap string (Q * Q)
}.

(** The payload of an 'update' event. *)
Record BookUpdate : Type := mkBookUpdate {
  b_symbol : string;
  b_bid : Q;
  b_ask : Q
}.

Section Messages.

(** The built-ins [parseFloat] and [parseInt(_, 10)]. *)
Variable parseFloat : JsVal -> JsNumber.
Variable parseInt : string -> JsNumber.

(** The conversion to a number that [>] applies to a string, an array or
    an object. *)
Variable toNumber : JsVal -> JsNumber.

(** [Object.keys(this.marketIndexMap).find(s => this.marketIndexMap[s] === marketId)] *)
Definition findSymbol (index : list (string * JsVal)) (marketId : JsNumber)
  : option string :=
  match List.find (fun entry => isNum (snd entry) marketId) index with
  | Some entry => Some (fst entry)
  | None => None
  end.

(** The callback of [map] on a level of the book. *)
Definition priceOf (level : JsVal) : Outcome JsNumber :=
  match level with
  | JArr items => Normal (parseFloat (hd JUndefined items))
  | _ =>
      price ← getProp level "price";
      arg ← orElse price (getFirst level);
      Normal (parseFloat arg)
  end.

(** [side.map(...)]: only arrays have [map]. *)
Definition pricesOf (side : JsVal) : Outcome (list JsNumber) :=
  items ← asArray side;
  mapOutcome priceOf items.

(** [.filter(p => !isNaN(p))] *)
Definition validBids (prices : list JsNumber) : list Q :=
  flat_map (fun p => match p with Fin q => [q] | NaN => [] end) prices.

(** [.filter(p => !isNaN(p) && p > 0)] *)
Definition validAsks (prices : list JsNumber) : list Q :=
  flat_map (fun p => match positive p with Some q => [q] | None => [] end)
    prices.

(** One of the two blocks that update a side, for the filter [valid] and
    the choice [best]: the current best price and [updated]. *)
Definition updateSide (valid : list JsNumber -> list Q)
    (best : Q -> list Q -> Q) (side : JsVal) (current : Q) (updated : bool)
  : Outcome (Q * bool) :=
  if truthy side then
    len ← getLength side;
    if gtZero toNumber len then
      prices ← pricesOf side;
      match valid prices with
      | first :: rest =>
          let newBest := best first rest in
          if negb (Qeq_bool newBest current) then Normal (newBest, true)
          else Normal (current, updated)
      | [] => Normal (current, updated)
      end
    else Normal (current, updated)
  else Normal (current, updated).

(** The [try] block of [handleMessage], given what [JSON.parse] gave: the
    update that is stored and emitted, if one is. *)
Definition handleMessage_try (st : Books) (parsed : Outcome JsVal)
  : Outcome (option BookUpdate) :=
  msg ← parsed;
  type ← getProp msg "type";
  if negb (isStr type "update/order_book") then Normal None
  else
    ob0 ← getProp msg "order_book";
    if negb (truthy ob0) then Normal None
    else
      channel ← getProp msg "channel";
      channelParts ← callSplit channel colon;
      match channelParts with
      | [_; idPart] =>
          let marketId := parseInt idPart in
          match findSymbol (marketIndexMap st) marketId with
          | None => Normal None
          | Some symbol =>
              if String.eqb symbol "" then Normal None
              else
                ob ← getProp msg "order_book";
                let stored := orderBooks st !! symbol in
                let currentBid :=
                  match stored with Some (b, _) => orZero b | None => 0%Q end in
                let currentAsk :=
                  match stored with Some (_, a) => orZero a | None => 0%Q end in
                bids ← getProp ob "bids";
                '(currentBid, updated) ←
                  updateSide validBids maxOf bids currentBid false;
                asks ← getProp ob "asks";
                '(currentAsk, updated) ←
                  updateSide validAsks minOf asks currentAsk updated;
                if (updated || negb (bool_decide (is_Some stored)))
                   && (Qlt_bool 0 currentBid || Qlt_bool 0 currentAsk)
                then Normal (Some {| b_symbol := symbol;
                                     b_bid := currentBid;
                                     b_ask := currentAsk |})
                else Normal None
          end
      | _ => Normal None
      end.

(** [handleMessage(data)]: the service after the message and the update
    emitted; the [catch] drops the error. *)
Definition handleMessage (st : Books) (parsed : Outcome JsVal)
  : Books * option BookUpdate :=
  match handleMessage_try st parsed with
  | Normal (Some u) =>
      ({| marketIndexMap := marketIndexMap st;
          orderBooks := <[b_symbol u := (b_bid u, b_ask u)]> (orderBooks st) |},
       Some u)
  | _ => (st, None)
  end.

End Messages.

Section Indices.

(** [isCrypto] of config/exchanges, which is not among the sources: the
    truth value of its result, or that it throws. *)
Variable isCrypto : JsVal -> Outcome bool.

(** [index[k] = v] *)
Fixpoint index_set (index : list (string * JsVal)) (k : string) (v : JsVal)
  : list (string * JsVal) :=
  match index with
  | [] => [(k, v)]
  | (k', v') :: rest =>
      if String.eqb k k' then (k, v) :: rest
      else (k', v') :: index_set rest k v
  end.

(** The callback of [markets.forEach], on [marketIndexMap] and [count]. *)
Definition eachIndexed (acc : list (string * JsVal) * nat) (m : JsVal)
  : Outcome (list (string * JsVal) * nat) :=
  market_type ← getProp m "market_type";
  if negb (isStr market_type "perp") then Normal acc
  else
    status ← getProp m "status";
    if negb (isStr status "active") then Normal acc
    else
      market_id ← getProp m "market_id";
      match market_id with
      | JUndefined => Normal acc
      | _ =>
          sym0 ← getProp m "symbol";
          match sym0 with
          | JStr s =>
              let symbol := str_splitFirst s "-" in
              crypto ← isCrypto (JStr symbol);
              if crypto : bool
              then Normal (index_set (fst acc) symbol market_id, S (snd acc))
              else Normal acc
          | _ => Thrown TypeError
          end
      end.

(** [markets.forEach(...)]: [marketIndexMap] and [count] when it ends, and
    the error if a call threw. *)
Fixpoint indexLoop (items : list JsVal) (acc : list (string * JsVal) * nat)
  : (list (string * JsVal) * nat) * option string :=
  match items with
  | [] => (acc, None)
  | m :: rest =>
      match eachIndexed acc m with
      | Normal acc' => indexLoop rest acc'
      | Thrown e => (acc, Some e)
      end
  end.

(** [fetchMarketIndices()], given what the request settles to:
    [marketIndexMap] afterwards and the result (log entries left out). *)
Definition fetchMarketIndices (index : list (string * JsVal))
    (response : AxiosResult) : list (string * JsVal) * bool :=
  match
    (data ← awaitGet response;
     details ← getProp data "order_book_details";
     markets ← orElse details (Normal (JArr []));
     asArray markets)
  with
  | Thrown _ => (index, false)
  | Normal items =>
      match indexLoop items (index, 0%nat) with
      | ((index', count), None) => (index', (0 <? count)%nat)
      | ((index', _), Some _) => (index', false)
      end
  end.

(** What [connect()] goes on to do after the check of the index. *)
Inductive ConnectAction : Type :=
  | OpenSocket             (* new WebSocket(WS_URL) *)
  | RetryConnect (delay : Z).   (* setTimeout(() => this.connect(), delay) *)

(** [connect()] up to the creation of the socket, given what the request
    of [fetchMarketIndices] settles to if it is made. *)
Definition connect (index : list (string * JsVal)) (response : AxiosResult)
  : list (string * JsVal) * ConnectAction :=
  if (length (map fst index) =? 0)%nat then
    let '(index', success) := fetchMarketIndices index response in
    if negb success then (index', RetryConnect reconnectDelay)
    else (index', OpenSocket)
  else (index, OpenSocket).

End Indices.

End LighterWebSocketService.

(** A market index with one market, and a book message for it. *)
Definition lighterIndex : LighterWebSocketService.Books :=
  {| LighterWebSocketService.marketIndexMap := [("BTC", JNum 7)];
     LighterWebSocketService.orderBooks := ∅ |}.

Definition lighterBookMessage : Outcome JsVal :=
  Normal
    (JObj [("type", JStr "update/order_book");
           ("channel", JStr "order_book:7");
           ("order_book",
            JObj [("bids", JArr [JObj [("price", JNum 100)];
                                 JObj [("price", JNum 99)]]);
                  ("asks", JArr [JArr [JNum 101; JNum 1]])])]).

(** What the [forEach] of [fetchMarketIndices] may do to the index and the
    count: symbols stay, an entry that is new or overwritten is for a
    symbol that [isCrypto] accepts and has a defined market id, and the
    count goes up only when the index is not empty afterwards. *)
Definition indexGrows (isCrypto : JsVal -> Outcome bool)
    (acc acc' : list (string * JsVal) * nat) : Prop :=
  (forall k, In k (map fst (fst acc)) -> In k (map fst (fst acc')))
  /\ (forall k v, In (k, v) (fst acc') ->
        In (k, v) (fst acc)
        \/ (isCrypto (JStr k) = Normal true /\ v <> JUndefined))
  /\ (snd acc <= snd acc')%nat
  /\ ((snd acc < snd acc')%nat -> fst acc' <> []).

(** A record of the Lighter market list with its market id. *)
Definition lighterMarket : JsVal :=
  JObj [("market_type", JStr "perp"); ("status", JStr "active");
        ("market_id", JNum 7); ("symbol", JStr "BTC")].

(** ** Frontend: price trends of [useMarketData] *)

Module MarketDataHook.

(** The fields of a pair that [calculateTrends] compares, as the backend
    sends them: [realSpread] is a number, or is [null] or missing.  The
    symbol is a key of the plain object [previousPrices] (not a member of
    [Object.prototype]). *)
Record WirePair : Type := mkWirePair {
  w_symbol : string;
  w_realSpread : option Q
}.

Inductive Trend : Type := Up | Down.

(** [pair.realSpread || 0] *)
Definition currentSpread (pair : WirePair) : Q :=
  match w_realSpread pair with
  | Some q => if Qeq_bool q 0 then 0%Q else q
  | None => 0%Q
  end.

(** The callback of [newData.forEach], on [trends] and on the [spread]
    fields of [previousPrices]. *)
Definition eachPair (acc : gmap string Trend * gmap string Q) (pair : WirePair)
  : gmap string Trend * gmap string Q :=
  let '(trends, previousPrices) := acc in
  let symbol := w_symbol pair in
  let currentSpread := currentSpread pair in
  let trends' :=
    match previousPrices !! symbol with
    | Some previousSpread =>
        if negb (Qeq_bool previousSpread currentSpread) then
          if Qlt_bool previousSpread currentSpread then <[symbol := Up]> trends
          else if Qlt_bool currentSpread previousSpread
               then <[symbol := Down]> trends
               else trends
        else trends
    | None => trends
    end in
  (trends', <[symbol := currentSpread]> previousPrices).

(** [calculateTrends(newData)]: the trends it returns and
    [previousPricesRef.current] as it leaves it. *)
Definition calculateTrends (newData : list WirePair)
    (previousPrices : gmap string Q) : gmap string Trend * gmap string Q :=
  fold_left eachPair newData (∅, previousPrices).

(** The trend between a previous and a current spread. *)
Definition trendOf (previous : option Q) (current : Q) : option Trend :=
  match previous with
  | Some p =>
      if Qlt_bool p current then Some Up
      else if Qlt_bool current p then Some Down
      else None
  | None => None
  end.

End MarketDataHook.

(** Two pairs as the backend sends them. *)
Definition wireBtc (spread : Q) : MarketDataHook.WirePair :=
  {| MarketDataHook.w_symbol := "BTC";
     MarketDataHook.w_realSpread := Some spread |}.

Definition wireEth (spread : Q) : MarketDataHook.WirePair :=
  {| MarketDataHook.w_symbol := "ETH";
     MarketDataHook.w_realSpread := Some spread |}.

(** ** [startScheduler] and the listeners it registers *)

Module Scheduler.
Section Scheduler.

Variable ALLOWED_SYMBOLS : list string.
Variable venueRank : ExchangeName -> nat.

(** The aggregator together with the number of 'update' listeners that
    [startScheduler] has registered on each venue service: one per call,
    on the four services alike.  [on] and [emit] are taken to be
    EventEmitter's: every call of [on] adds a listener, and an event runs
    every listener in the order of registration, within one turn.  What
    [start()] of a service does is not among the sources. *)
Record Running : Type := mkRunning {
  aggregator : State;
  listeners : nat
}.

(** The module as it is loaded. *)
Definition initial : Running :=
  {| aggregator := initialState; listeners := 0 |}.

(** [startScheduler()]: the cache initialisation, and
    [service.on('update', (data) => handleUpdate(name, data))] on every
    service. *)
Definition startScheduler (r : Running) : Running :=
  {| aggregator := startScheduler ALLOWED_SYMBOLS (aggregator r);
     listeners := S (listeners r) |}.


End Scheduler.
End Scheduler.

(** * Properties *)

Set Default Proof Using "Type".

(** ** Comparisons on rationals *)

Lemma Qlt_bool_iff (x y : Q) : Qlt_bool x y = true <-> (x < y)%Q.
Proof.
  unfold Qlt_bool. rewrite negb_true_iff. split.
  - intros H. apply Qnot_le_lt. intros Hle.
    apply Qle_bool_iff in Hle. congruence.
  - intros H. destruct (Qle_bool y x) eqn:E; [|reflexivity].
    apply Qle_bool_iff in E. exfalso. exact (Qlt_not_le _ _ H E).
Qed.

Lemma Qlt_bool_false_le (x y : Q) : Qlt_bool x y = false -> (y <= x)%Q.
Proof.
  unfold Qlt_bool. rewrite negb_false_iff. apply Qle_bool_iff.
Qed.

(** ** The cache as a keyed object *)

Lemma cache_get_set_eq (c : Cache) (k : string) (p : AggregatedPair) :
  cache_get (cache_set c k p) k = Some p.
Proof.
  induction c as [|[k' p'] c IH]; simpl.
  - rewrite String.eqb_refl. reflexivity.
  - destruct (String.eqb k k') eqn:E; simpl; rewrite E; [reflexivity | exact IH].
Qed.

Lemma cache_get_set_ne (c : Cache) (k k' : string) (p : AggregatedPair) :
  k <> k' -> cache_get (cache_set c k p) k' = cache_get c k'.
Proof.
  intros Hne. induction c as [|[k0 p0] c IH]; simpl.
  - destruct (String.eqb k' k) eqn:E; [|reflexivity].
    apply String.eqb_eq in E. congruence.
  - destruct (String.eqb k k0) eqn:E; simpl.
    + apply String.eqb_eq in E. subst k0.
      destruct (String.eqb k' k) eqn:E'; [|reflexivity].
      apply String.eqb_eq in E'. congruence.
    + rewrite IH. reflexivity.
Qed.

Lemma cache_set_set (c : Cache) (k : string) (p q : AggregatedPair) :
  cache_set (cache_set c k p) k q = cache_set c k q.
Proof.
  induction c as [|[k' p'] c IH]; simpl.
  - rewrite String.eqb_refl. reflexivity.
  - destruct (String.eqb k k') eqn:E; simpl; rewrite E; [reflexivity|].
    rewrite IH. reflexivity.
Qed.

Lemma cache_keys_set (c : Cache) (k : string) (p : AggregatedPair) (x : string) :
  In x (cache_keys (cache_set c k p)) <-> x = k \/ In x (cache_keys c).
Proof.
  unfold cache_keys. induction c as [|[k' p'] c IH]; simpl.
  - intuition.
  - destruct (String.eqb k k') eqn:E; simpl.
    + apply String.eqb_eq in E. subst k'. intuition.
    + rewrite IH. intuition.
Qed.

Lemma cache_get_Some_key (c : Cache) (k : string) (p : AggregatedPair) :
  cache_get c k = Some p -> In k (cache_keys c).
Proof.
  unfold cache_keys. induction c as [|[k' p'] c IH]; simpl; [discriminate|].
  destruct (String.eqb k k') eqn:E.
  - apply String.eqb_eq in E. intros _. left. congruence.
  - intros H. right. exact (IH H).
Qed.

Lemma cache_get_None_key (c : Cache) (k : string) :
  cache_get c k = None -> ~ In k (cache_keys c).
Proof.
  unfold cache_keys. induction c as [|[k' p'] c IH]; simpl; [tauto|].
  destruct (String.eqb k k') eqn:E; [discriminate|].
  intros H [Hk|Hin].
  - subst k'. rewrite String.eqb_refl in E. discriminate.
  - exact (IH H Hin).
Qed.

(** ** The recomputation *)

Section RecomputeFacts.

Variable venueRank : ExchangeName -> nat.
Variable keep : ExchangeName -> ExchangePrice -> bool.

Lemma getEx_recomputePair (p : AggregatedPair) (e : ExchangeName) :
  getEx (recomputePair venueRank keep p) e = getEx p e.
Proof.
  unfold recomputePair. destruct (contributing keep p); destruct e; reflexivity.
Qed.

Lemma symbol_recomputePair (p : AggregatedPair) :
  symbol (recomputePair venueRank keep p) = symbol p.
Proof.
  unfold recomputePair. destruct (contributing keep p); reflexivity.
Qed.

Lemma contributing_In (p : AggregatedPair) (e : ExchangeName) :
  In e (contributing keep p) <-> contributes keep p e = true.
Proof.
  clear venueRank.
  unfold contributing. rewrite filter_In. split; [tauto|].
  intros H. split; [|exact H]. unfold VENUES. destruct e; simpl; tauto.
Qed.

Lemma pickBest_In (beats : ExchangeName -> ExchangeName -> bool)
    (rest : list ExchangeName) (first : ExchangeName) :
  In (pickBest beats first rest) (first :: rest).
Proof.
  clear venueRank keep.
  unfold pickBest. revert first.
  induction rest as [|w rest IH]; intros first; simpl; [tauto|].
  destruct (IH (if beats first w then w else first)) as [H|H].
  - destruct (beats first w); rewrite <- H; tauto.
  - tauto.
Qed.

Lemma beatsBid_le (p : AggregatedPair) (v w : ExchangeName) :
  let cur := if beatsBid venueRank p v w then w else v in
  (bid (getEx p v) <= bid (getEx p cur))%Q /\
  (bid (getEx p w) <= bid (getEx p cur))%Q.
Proof.
  simpl. unfold beatsBid.
  destruct (Qlt_bool (bid (getEx p v)) (bid (getEx p w))) eqn:Hlt; simpl.
  - apply Qlt_bool_iff in Hlt. split; [apply Qlt_le_weak, Hlt | apply Qle_refl].
  - apply Qlt_bool_false_le in Hlt.
    destruct (Qeq_bool (bid (getEx p v)) (bid (getEx p w))) eqn:Heq; simpl.
    + apply Qeq_bool_iff in Heq.
      destruct (venueRank w <? venueRank v)%nat.
      * split; [rewrite Heq|]; apply Qle_refl.
      * split; [apply Qle_refl | exact Hlt].
    + split; [apply Qle_refl | exact Hlt].
Qed.

Lemma beatsAsk_le (p : AggregatedPair) (v w : ExchangeName) :
  let cur := if beatsAsk venueRank p v w then w else v in
  (ask (getEx p cur) <= ask (getEx p v))%Q /\
  (ask (getEx p cur) <= ask (getEx p w))%Q.
Proof.
  simpl. unfold beatsAsk.
  destruct (Qlt_bool (ask (getEx p w)) (ask (getEx p v))) eqn:Hlt; simpl.
  - apply Qlt_bool_iff in Hlt. split; [apply Qlt_le_weak, Hlt | apply Qle_refl].
  - apply Qlt_bool_false_le in Hlt.
    destruct (Qeq_bool (ask (getEx p v)) (ask (getEx p w))) eqn:Heq; simpl.
    + apply Qeq_bool_iff in Heq.
      destruct (venueRank w <? venueRank v)%nat.
      * split; [rewrite Heq|]; apply Qle_refl.
      * split; [apply Qle_refl | exact Hlt].
    + split; [apply Qle_refl | exact Hlt].
Qed.

Lemma pickBest_bid_max (p : AggregatedPair) (rest : list ExchangeName)
    (first : ExchangeName) (v : ExchangeName) :
  In v (first :: rest) ->
  (bid (getEx p v)
   <= bid (getEx p (pickBest (beatsBid venueRank p) first rest)))%Q.
Proof.
  unfold pickBest. revert first v.
  induction rest as [|w rest IH]; intros first v Hin; simpl.
  - destruct Hin as [->|[]]. apply Qle_refl.
  - destruct (beatsBid_le p first w) as [H1 H2]. simpl in H1, H2.
    destruct Hin as [->|[->|Hin]].
    + eapply Qle_trans; [exact H1|]. apply IH. left. reflexivity.
    + eapply Qle_trans; [exact H2|]. apply IH. left. reflexivity.
    + apply IH. right. exact Hin.
Qed.

Lemma pickBest_ask_min (p : AggregatedPair) (rest : list ExchangeName)
    (first : ExchangeName) (v : ExchangeName) :
  In v (first :: rest) ->
  (ask (getEx p (pickBest (beatsAsk venueRank p) first rest))
   <= ask (getEx p v))%Q.
Proof.
  unfold pickBest. revert first v.
  induction rest as [|w rest IH]; intros first v Hin; simpl.
  - destruct Hin as [->|[]]. apply Qle_refl.
  - destruct (beatsAsk_le p first w) as [H1 H2]. simpl in H1, H2.
    destruct Hin as [->|[->|Hin]].
    + eapply Qle_trans; [|exact H1]. apply IH. left. reflexivity.
    + eapply Qle_trans; [|exact H2]. apply IH. left. reflexivity.
    + apply IH. right. exact Hin.
Qed.

Lemma cache_get_calculateSpreads (c : Cache) (k : string) :
  cache_get (calculateSpreads venueRank keep c) k
  = option_map (recomputePair venueRank keep) (cache_get c k).
Proof.
  unfold calculateSpreads. induction c as [|[k' p'] c IH]; simpl; [reflexivity|].
  destruct (String.eqb k k'); [reflexivity | exact IH].
Qed.

Lemma cache_keys_calculateSpreads (c : Cache) :
  cache_keys (calculateSpreads venueRank keep c) = cache_keys c.
Proof.
  unfold calculateSpreads, cache_keys. rewrite map_map. reflexivity.
Qed.

End RecomputeFacts.

(** ** State fields that the handlers leave alone *)

Section AggregatorFacts.

Variable ALLOWED_SYMBOLS : list string.
Variable venueRank : ExchangeName -> nat.

Lemma run_app (st : State) (evs1 evs2 : list Event) :
  run ALLOWED_SYMBOLS venueRank st (evs1 ++ evs2)
  = run ALLOWED_SYMBOLS venueRank (run ALLOWED_SYMBOLS venueRank st evs1) evs2.
Proof. unfold run. apply fold_left_app. Qed.

Lemma PRICE_CACHE_performBroadcast (now : Z) (st : State) :
  PRICE_CACHE (performBroadcast ALLOWED_SYMBOLS now st) = PRICE_CACHE st.
Proof.
  unfold performBroadcast, performBroadcast_with.
  destruct (wsBroadcaster st); [|reflexivity].
  destruct (0 <? length _)%nat; reflexivity.
Qed.

Lemma PRICE_CACHE_throttledBroadcast (now : Z) (st : State) :
  PRICE_CACHE (throttledBroadcast ALLOWED_SYMBOLS now st) = PRICE_CACHE st.
Proof.
  unfold throttledBroadcast.
  destruct (broadcastPending st); [reflexivity|].
  destruct (BROADCAST_THROTTLE <=? _).
  - apply PRICE_CACHE_performBroadcast.
  - reflexivity.
Qed.

Lemma PRICE_CACHE_checkPair (now : Z) (st : State) (p : AggregatedPair) :
  PRICE_CACHE (checkPair now st p) = PRICE_CACHE st.
Proof.
  unfold checkPair.
  destruct (Num_gt0 (bestBid p) && Num_gt0 (bestAsk p)); [|reflexivity].
  destruct (DB_SAVE_THROTTLE <=? _);
    destruct (Num_ge (realSpread p) ALERT_THRESHOLD); reflexivity.
Qed.

Lemma PRICE_CACHE_checkPairs (now : Z) (ps : list AggregatedPair) (st : State) :
  PRICE_CACHE (fold_left (checkPair now) ps st) = PRICE_CACHE st.
Proof.
  revert st. induction ps as [|p ps IH]; intros st; simpl; [reflexivity|].
  rewrite IH. apply PRICE_CACHE_checkPair.
Qed.

Lemma PRICE_CACHE_updateAndRecalculate (now : Z) (st : State) :
  PRICE_CACHE (updateAndRecalculate ALLOWED_SYMBOLS venueRank now st)
  = calculateSpreads venueRank (freshFilter now) (PRICE_CACHE st).
Proof.
  unfold updateAndRecalculate.
  rewrite PRICE_CACHE_throttledBroadcast, PRICE_CACHE_checkPairs.
  reflexivity.
Qed.

Lemma PRICE_CACHE_handleUpdate (e : ExchangeName) (data : TimestampedPrice)
    (now : Z) (st : State) :
  allowed ALLOWED_SYMBOLS (tp_symbol data) = true ->
  PRICE_CACHE (handleUpdate ALLOWED_SYMBOLS venueRank e data now st)
  = calculateSpreads venueRank (freshFilter now)
      (cache_set (PRICE_CACHE st) (tp_symbol data)
         (setEx (entryFor (tp_symbol data) st) e (quoteOf data))).
Proof.
  intros Hal. unfold handleUpdate, ensurePair, entryFor. rewrite Hal. simpl.
  destruct (cache_get (PRICE_CACHE st) (tp_symbol data)) as [existing|] eqn:Hget.
  - rewrite PRICE_CACHE_updateAndRecalculate. reflexivity.
  - rewrite PRICE_CACHE_updateAndRecalculate. simpl.
    f_equal. apply cache_set_set.
Qed.

Lemma handleUpdate_rejected (e : ExchangeName) (data : TimestampedPrice)
    (now : Z) (st : State) :
  allowed ALLOWED_SYMBOLS (tp_symbol data) = false ->
  handleUpdate ALLOWED_SYMBOLS venueRank e data now st = st.
Proof.
  intros Hal. unfold handleUpdate, ensurePair. rewrite Hal. reflexivity.
Qed.

Lemma getEx_setEx_eq (p : AggregatedPair) (e : ExchangeName) (x : ExchangePrice) :
  getEx (setEx p e x) e = x.
Proof. destruct e; reflexivity. Qed.

Lemma getEx_setEx_ne (p : AggregatedPair) (e e' : ExchangeName) (x : ExchangePrice) :
  e <> e' -> getEx (setEx p e x) e' = getEx p e'.
Proof. destruct e, e'; intros H; try reflexivity; congruence. Qed.

Lemma contributes_freshValid (now : Z) (p : AggregatedPair) (e : ExchangeName) :
  contributes (freshFilter now) p e = true <-> freshValid now p e.
Proof.
  clear venueRank.
  unfold contributes, freshFilter, isFresh, freshValid.
  rewrite !andb_true_iff, !Qlt_bool_iff, Z.ltb_lt, Z.leb_le. tauto.
Qed.

Lemma freshValid_recomputePair (now : Z) (keep : ExchangeName -> ExchangePrice -> bool)
    (p : AggregatedPair) (e : ExchangeName) :
  freshValid now (recomputePair venueRank keep p) e <-> freshValid now p e.
Proof. unfold freshValid. rewrite getEx_recomputePair. tauto. Qed.

(** The recomputation of one pair establishes [bestOver]. *)
Lemma recomputePair_bestOver (now : Z) (p : AggregatedPair) :
  bestOver now (recomputePair venueRank (freshFilter now) p).
Proof.
  set (p' := recomputePair venueRank (freshFilter now) p).
  assert (HF : forall v, freshValid now p' v
                         <-> In v (contributing (freshFilter now) p)).
  { intros v. unfold p'. rewrite freshValid_recomputePair,
      contributing_In,
      contributes_freshValid. tauto. }
  assert (Hq : forall v, getEx p' v = getEx p v).
  { intros v. apply getEx_recomputePair. }
  unfold bestOver. split.
  - intros Hnone. unfold p', recomputePair.
    destruct (contributing (freshFilter now) p) as [|first rest] eqn:Hc.
    + split; reflexivity.
    + exfalso. apply (Hnone first). apply HF. left. reflexivity.
  - intros v0 Hv0. apply HF in Hv0.
    destruct (contributing (freshFilter now) p) as [|first rest] eqn:Hc;
      [destruct Hv0|].
    exists (pickBest (beatsBid venueRank p) first rest),
           (pickBest (beatsAsk venueRank p) first rest).
    split; [apply HF, pickBest_In|].
    split; [apply HF, pickBest_In|].
    rewrite !Hq.
    split; [unfold p', recomputePair; rewrite Hc; reflexivity|].
    split; [unfold p', recomputePair; rewrite Hc; reflexivity|].
    intros v Hv. apply HF in Hv. rewrite !Hq. split.
    + apply pickBest_bid_max. exact Hv.
    + apply pickBest_ask_min. exact Hv.
Qed.

(** C1.  After any sequence of turns, the recomputation triggered by an
    accepted upsert leaves, in every pair of the cache, bestBid equal to
    the maximum bid and bestAsk equal to the minimum ask over exactly the
    per-venue quotes of that pair that are fresh at the time of the
    recomputation (timestamp > 0, age at most 30 s) and have bid > 0 and
    ask > 0, and clears both to no-signal when there is no such quote; the
    upserted quote is the one stored for its symbol and venue. *)
Theorem C1_best_prices_over_fresh_quotes
    (st0 : State) (evs : list Event)
    (e : ExchangeName) (data : TimestampedPrice) (now : Z) :
  allowed ALLOWED_SYMBOLS (tp_symbol data) = true ->
  let st := run ALLOWED_SYMBOLS venueRank st0 (evs ++ [EvUpdate e data now]) in
  (exists p, cache_get (PRICE_CACHE st) (tp_symbol data) = Some p
             /\ getEx p e = quoteOf data)
  /\ (forall sym p, cache_get (PRICE_CACHE st) sym = Some p -> bestOver now p).
Proof.
  intros Hal st. unfold st. rewrite run_app. simpl.
  set (st1 := run ALLOWED_SYMBOLS venueRank st0 evs).
  rewrite (PRICE_CACHE_handleUpdate e data now st1 Hal).
  split.
  - eexists. rewrite cache_get_calculateSpreads, cache_get_set_eq. simpl.
    split; [reflexivity|].
    rewrite getEx_recomputePair. apply getEx_setEx_eq.
  - intros sym p. rewrite cache_get_calculateSpreads.
    destruct (cache_get _ sym) as [p0|]; simpl; [|discriminate].
    intros [= <-]. apply recomputePair_bestOver.
Qed.

End AggregatorFacts.

(** A run of [C1_best_prices_over_fresh_quotes]: BTC is allow-listed and a
    Vest quote arrives after the start. *)
Lemma C1_best_prices_over_fresh_quotes_witness :
  let st := run btcOnly fieldOrder initialState
              ([EvStart] ++ [EvUpdate Vest vestAt2000 2000]) in
  (exists p, cache_get (PRICE_CACHE st) "BTC" = Some p
             /\ getEx p Vest = quoteOf vestAt2000)
  /\ (forall sym p, cache_get (PRICE_CACHE st) sym = Some p -> bestOver 2000 p).
Proof.
  apply (C1_best_prices_over_fresh_quotes btcOnly fieldOrder initialState
           [EvStart] Vest vestAt2000 2000).
  reflexivity.
Defined.

(** ** Upserts (C2) *)

(** C2, counterexample.  With BTC allow-listed and a Vest quote of
    timestamp 2000 in the cache, the upsert of a Vest quote of timestamp
    1000 is not a no-op: the stored quote becomes the older one. *)
Lemma C2_counterexample_older_quote_overwrites :
  ~ olderUpsertIsNoOp btcOnly fieldOrder.
Proof.
  intros H.
  set (st := run btcOnly fieldOrder initialState
               [EvStart; EvUpdate Vest vestAt2000 2000]).
  destruct (H st Vest vestAt1000 2001
              (recomputePair fieldOrder (freshFilter 2000)
                 (setEx (createPair "BTC") Vest (quoteOf vestAt2000))))
    as [p' [Hget Hsame]].
  - reflexivity.
  - simpl. lia.
  - vm_compute in Hget. injection Hget as <-.
    vm_compute in Hsame. discriminate Hsame.
Qed.

Section UpsertFacts.

Variable ALLOWED_SYMBOLS : list string.
Variable venueRank : ExchangeName -> nat.

(** An accepted upsert leaves a pair under its symbol. *)
Lemma handleUpdate_stores_pair
    (st : State) (e : ExchangeName) (data : TimestampedPrice) (now : Z) :
  allowed ALLOWED_SYMBOLS (tp_symbol data) = true ->
  exists p',
    cache_get
      (PRICE_CACHE (handleUpdate ALLOWED_SYMBOLS venueRank e data now st))
      (tp_symbol data) = Some p'.
Proof.
  intros Hal.
  rewrite (PRICE_CACHE_handleUpdate ALLOWED_SYMBOLS venueRank e data now st Hal).
  rewrite cache_get_calculateSpreads, cache_get_set_eq. simpl.
  eexists. reflexivity.
Qed.

(** C2, amended.  An upsert for an allow-listed symbol replaces the cached
    quote of its (symbol, venue) by the incoming bid, ask, timestamp and
    source, whatever the stored timestamp was, and leaves the quotes of the
    other venues of the symbol as they were. *)
Theorem C2_upsert_replaces_quote
    (st : State) (e : ExchangeName) (data : TimestampedPrice) (now : Z) :
  allowed ALLOWED_SYMBOLS (tp_symbol data) = true ->
  exists p',
    cache_get
      (PRICE_CACHE (handleUpdate ALLOWED_SYMBOLS venueRank e data now st))
      (tp_symbol data) = Some p'
    /\ getEx p' e = quoteOf data
    /\ forall e', e' <> e ->
         getEx p' e' = getEx (entryFor (tp_symbol data) st) e'.
Proof.
  intros Hal.
  rewrite (PRICE_CACHE_handleUpdate ALLOWED_SYMBOLS venueRank e data now st Hal).
  rewrite cache_get_calculateSpreads, cache_get_set_eq. simpl.
  eexists. split; [reflexivity|]. split.
  - rewrite getEx_recomputePair. apply getEx_setEx_eq.
  - intros e' Hne. rewrite getEx_recomputePair.
    apply getEx_setEx_ne. congruence.
Qed.

End UpsertFacts.

(** A run of [C2_upsert_replaces_quote]: the older Vest quote of the
    counterexample, upserted over the newer one. *)
Lemma C2_upsert_replaces_quote_witness :
  exists p',
    cache_get
      (PRICE_CACHE
         (handleUpdate btcOnly fieldOrder Vest vestAt1000 2001
            (run btcOnly fieldOrder initialState
               [EvStart; EvUpdate Vest vestAt2000 2000])))
      "BTC" = Some p'
    /\ getEx p' Vest = quoteOf vestAt1000
    /\ forall e', e' <> Vest ->
         getEx p' e'
         = getEx (entryFor "BTC"
                    (run btcOnly fieldOrder initialState
                       [EvStart; EvUpdate Vest vestAt2000 2000])) e'.
Proof.
  apply (C2_upsert_replaces_quote btcOnly fieldOrder
           (run btcOnly fieldOrder initialState
              [EvStart; EvUpdate Vest vestAt2000 2000])
           Vest vestAt1000 2001).
  reflexivity.
Defined.

(** ** The alert gate (C3) *)

Lemma alertStore_checkPair (now : Z) (st : State) (p : AggregatedPair) :
  alertCache (alertStore (checkPair now st p)) = alertCache (alertStore st)
  /\ alerts (alertStore (checkPair now st p)) = alerts (alertStore st)
  /\ alertLog (alertStore (checkPair now st p)) = alertLog (alertStore st)
  /\ inflight (alertStore (checkPair now st p))
     = inflight (alertStore st)
       ++ (if issues now (alertCache (alertStore st)) p
           then [alertRow p now] else []).
Proof.
  unfold checkPair, issues, qualifies.
  destruct (Num_gt0 (bestBid p) && Num_gt0 (bestAsk p)); simpl.
  2: { rewrite app_nil_r. repeat split; reflexivity. }
  destruct (Num_ge (realSpread p) ALERT_THRESHOLD); simpl.
  2: { destruct (DB_SAVE_THROTTLE <=? _); rewrite app_nil_r;
       repeat split; reflexivity. }
  unfold saveAlert.
  destruct (DB_SAVE_THROTTLE <=? _); simpl;
    destruct (tooSoon _ now); simpl;
    rewrite ?app_nil_r; repeat split; reflexivity.
Qed.

Lemma alertStore_checkPairs (now : Z) (ps : list AggregatedPair) (st : State) :
  let st' := fold_left (checkPair now) ps st in
  alertCache (alertStore st') = alertCache (alertStore st)
  /\ alerts (alertStore st') = alerts (alertStore st)
  /\ alertLog (alertStore st') = alertLog (alertStore st)
  /\ inflight (alertStore st')
     = inflight (alertStore st)
       ++ map (fun p => alertRow p now)
            (List.filter (issues now (alertCache (alertStore st))) ps).
Proof.
  revert st. induction ps as [|p ps IH]; intros st; simpl.
  - rewrite app_nil_r. repeat split; reflexivity.
  - destruct (IH (checkPair now st p)) as (Hc & Ha & Hl & Hi).
    destruct (alertStore_checkPair now st p) as (Hc1 & Ha1 & Hl1 & Hi1).
    rewrite Hc, Ha, Hl, Hi, Hc1, Ha1, Hl1, Hi1.
    repeat split; try reflexivity.
    destruct (issues now (alertCache (alertStore st)) p); simpl.
    + rewrite <- app_assoc. reflexivity.
    + rewrite app_nil_r. reflexivity.
Qed.

Section AlertGateFacts.

Variable ALLOWED_SYMBOLS : list string.
Variable venueRank : ExchangeName -> nat.

Lemma alertStore_performBroadcast (now : Z) (st : State) :
  alertStore (performBroadcast ALLOWED_SYMBOLS now st) = alertStore st.
Proof.
  unfold performBroadcast, performBroadcast_with.
  destruct (wsBroadcaster st); [|reflexivity].
  destruct (0 <? length _)%nat; reflexivity.
Qed.

Lemma alertStore_throttledBroadcast (now : Z) (st : State) :
  alertStore (throttledBroadcast ALLOWED_SYMBOLS now st) = alertStore st.
Proof.
  unfold throttledBroadcast.
  destruct (broadcastPending st); [reflexivity|].
  destruct (BROADCAST_THROTTLE <=? _).
  - apply alertStore_performBroadcast.
  - reflexivity.
Qed.

(** The alert store after [updateAndRecalculate]: the dedup cache and the
    table are untouched, and one write is in flight for each recomputed
    pair that [issues] accepts. *)
Lemma alertStore_updateAndRecalculate (now : Z) (st : State) :
  let st' := updateAndRecalculate ALLOWED_SYMBOLS venueRank now st in
  let dedup := alertCache (alertStore st) in
  alertCache (alertStore st') = dedup
  /\ alerts (alertStore st') = alerts (alertStore st)
  /\ inflight (alertStore st')
     = inflight (alertStore st)
       ++ map (fun p => alertRow p now)
            (List.filter (issues now dedup) (cache_values (PRICE_CACHE st'))).
Proof.
  intros st' dedup.
  assert (Hcache : PRICE_CACHE st'
                   = calculateSpreads venueRank (freshFilter now) (PRICE_CACHE st)).
  { apply PRICE_CACHE_updateAndRecalculate. }
  pose (recomputed := calculateSpreads venueRank (freshFilter now) (PRICE_CACHE st)).
  assert (Hs : alertStore st'
               = alertStore (fold_left (checkPair now) (cache_values recomputed)
                               (with_cache st recomputed))).
  { unfold st', updateAndRecalculate. apply alertStore_throttledBroadcast. }
  destruct (alertStore_checkPairs now (cache_values recomputed)
              (with_cache st recomputed)) as (Hc & Ha & _ & Hi).
  simpl in Hc, Ha, Hi.
  rewrite Hs, Hcache.
  split; [exact Hc|]. split; [exact Ha | exact Hi].
Qed.

(** C3, amended.  A recomputation issues an alert write for exactly the
    recomputed pairs with bestBid > 0, bestAsk > 0 and spread at or above
    the threshold whose symbol is not inside a cool-down; the venues of
    the best bid and of the best ask are not compared.  Nothing else
    reaches the table: the callback of a successful write appends the row
    that was issued. *)
Theorem C3_alert_writes_of_a_recomputation (now : Z) (st : State) :
  let st' := updateAndRecalculate ALLOWED_SYMBOLS venueRank now st in
  let dedup := alertCache (alertStore st) in
  let recomputed := cache_values (PRICE_CACHE st') in
  alertCache (alertStore st') = dedup
  /\ alerts (alertStore st') = alerts (alertStore st)
  /\ inflight (alertStore st')
     = inflight (alertStore st)
       ++ map (fun p => alertRow p now) (List.filter (issues now dedup) recomputed)
  /\ (forall p,
        In p (List.filter (issues now dedup) recomputed)
        <-> In p recomputed
            /\ Num_gt0 (bestBid p) = true
            /\ Num_gt0 (bestAsk p) = true
            /\ Num_ge (realSpread p) ALERT_THRESHOLD = true
            /\ tooSoon (dedup !! symbol p) now = false)
  /\ (forall i row,
        nth_error (inflight (alertStore st')) i = Some row ->
        alerts (alertStore (alertWriteDone i DbOk st'))
        = alerts (alertStore st') ++ [row]).
Proof.
  intros st' dedup recomputed.
  destruct (alertStore_updateAndRecalculate now st) as (Hc & Ha & Hi).
  split; [exact Hc|]. split; [exact Ha|]. split; [exact Hi|]. split.
  - intros p. rewrite filter_In. unfold issues, qualifies.
    rewrite !andb_true_iff, negb_true_iff. tauto.
  - intros i row Hnth. unfold alertWriteDone, saveAlert_callback.
    rewrite Hnth. reflexivity.
Qed.

End AlertGateFacts.

(** C3, counterexample.  A single Vest quote with bid 102 and ask 100 makes
    Vest both the best-bid and the best-ask venue; the spread is 2 %, the
    gate lets the pair through, and the alert is persisted with the same
    venue on both sides. *)
Lemma C3_counterexample_same_venue_alert :
  let st1 := run btcOnly fieldOrder initialState
               [EvStart; EvUpdate Vest vestCrossed 1000] in
  let st2 := step btcOnly fieldOrder st1 (EvAlertDb 0 DbOk) in
  exists p,
    cache_get (PRICE_CACHE st1) "BTC" = Some p
    /\ bestBidEx p = Some "VEST"
    /\ bestAskEx p = Some "VEST"
    /\ realSpread p = Val (200 # 100)
    /\ alerts (alertStore st2) = [alertRow p 1000]
    /\ exchange_buy (alertRow p 1000) = exchange_sell (alertRow p 1000).
Proof.
  eexists. split; [vm_compute; reflexivity|].
  repeat split; vm_compute; reflexivity.
Qed.

(** A run of [C3_alert_writes_of_a_recomputation]: the recomputation of the
    crossed Vest quote issues the alert write of the BTC pair, and its
    callback persists it. *)
Lemma C3_alert_writes_of_a_recomputation_witness :
  let st := with_cache initialState
              [("BTC", setEx (createPair "BTC") Vest (quoteOf vestCrossed))] in
  let st' := updateAndRecalculate btcOnly fieldOrder 1000 st in
  inflight (alertStore st')
  = map (fun p => alertRow p 1000)
      (List.filter (issues 1000 ∅) (cache_values (PRICE_CACHE st')))
  /\ length (alerts (alertStore (alertWriteDone 0 DbOk st'))) = 1%nat.
Proof.
  destruct (C3_alert_writes_of_a_recomputation btcOnly fieldOrder 1000
              (with_cache initialState
                 [("BTC", setEx (createPair "BTC") Vest (quoteOf vestCrossed))]))
    as (_ & _ & Hi & _ & Hdone).
  split.
  - exact Hi.
  - rewrite (Hdone 0%nat (alertRow
                            (recomputePair fieldOrder (freshFilter 1000)
                               (setEx (createPair "BTC") Vest (quoteOf vestCrossed)))
                            1000)); reflexivity.
Defined.

(** ** The unpopulated pair (C4) *)

(** C4, counterexample.  Right after the start the snapshot holds the BTC
    pair as [createPair] made it: no venue has a fresh valid quote, and the
    spread is the number 0. *)
Lemma C4_counterexample_initial_spread_is_zero :
  ~ unpopulatedSpreadIsSentinel btcOnly.
Proof.
  intros H.
  specialize (H initialState "BTC" (createPair "BTC")).
  assert (Hz : realSpread (createPair "BTC") = NoSignal).
  { apply H.
    - reflexivity.
    - intros now v (Hts & _). destruct v; simpl in Hts; lia. }
  discriminate Hz.
Qed.

(** C4, amended.  A pair that no recomputation has touched is as
    [createPair] made it: bestBid, bestAsk and the spread are the number 0
    and no venue is named; a pair that a recomputation found without a
    contributing quote has the no-signal value in the three fields.  In both
    cases the pair fails [bestBid > 0 && bestAsk > 0], the test by which
    [updateAndRecalculate] tells an unpopulated pair from a populated one:
    no metric is saved and no alert is raised for it. *)
Theorem C4_unpopulated_pair
    (sym : string) (now : Z) (st : State)
    (venueRank : ExchangeName -> nat)
    (keep : ExchangeName -> ExchangePrice -> bool) (p0 : AggregatedPair) :
  contributing keep p0 = [] ->
  (realSpread (createPair sym) = Val 0
   /\ bestBid (createPair sym) = Val 0
   /\ bestAsk (createPair sym) = Val 0
   /\ bestBidEx (createPair sym) = None
   /\ bestAskEx (createPair sym) = None
   /\ checkPair now st (createPair sym) = st)
  /\
  (realSpread (recomputePair venueRank keep p0) = NoSignal
   /\ bestBid (recomputePair venueRank keep p0) = NoSignal
   /\ bestAsk (recomputePair venueRank keep p0) = NoSignal
   /\ checkPair now st (recomputePair venueRank keep p0) = st).
Proof.
  intros Hnone. split.
  - repeat split; reflexivity.
  - unfold recomputePair. rewrite Hnone. repeat split; reflexivity.
Qed.

(** A run of [C4_unpopulated_pair]: the new BTC pair has no contributing
    quote. *)
Lemma C4_unpopulated_pair_witness :
  (realSpread (createPair "BTC") = Val 0
   /\ bestBid (createPair "BTC") = Val 0
   /\ bestAsk (createPair "BTC") = Val 0
   /\ bestBidEx (createPair "BTC") = None
   /\ bestAskEx (createPair "BTC") = None
   /\ checkPair 1000 initialState (createPair "BTC") = initialState)
  /\
  (realSpread (recomputePair fieldOrder (freshFilter 1000) (createPair "BTC"))
   = NoSignal
   /\ bestBid (recomputePair fieldOrder (freshFilter 1000) (createPair "BTC"))
      = NoSignal
   /\ bestAsk (recomputePair fieldOrder (freshFilter 1000) (createPair "BTC"))
      = NoSignal
   /\ checkPair 1000 initialState
        (recomputePair fieldOrder (freshFilter 1000) (createPair "BTC"))
      = initialState).
Proof.
  apply (C4_unpopulated_pair "BTC" 1000 initialState fieldOrder
           (freshFilter 1000) (createPair "BTC")).
  reflexivity.
Defined.

(** ** The dedup cache of [saveAlert] (C5, C6) *)

Lemma nth_error_snoc {A : Type} (l : list A) (x : A) :
  nth_error (l ++ [x]) (length l) = Some x.
Proof. induction l as [|y l IH]; simpl; [reflexivity | exact IH]. Qed.

Lemma remove_nth_snoc {A : Type} (l : list A) (x : A) :
  remove_nth (length l) (l ++ [x]) = l.
Proof. induction l as [|y l IH]; simpl; [reflexivity | rewrite IH; reflexivity]. Qed.

Lemma In_remove_nth {A : Type} (i : nat) (l : list A) (x : A) :
  In x (remove_nth i l) -> In x l.
Proof.
  revert i. induction l as [|y l IH]; intros i; simpl; [destruct i; tauto|].
  destruct i as [|j]; simpl; [tauto|].
  intros [H|H]; [left; exact H | right; exact (IH j H)].
Qed.

Lemma tooSoon_later (last : option Z) (now now' : Z) :
  now <= now' -> tooSoon last now = false -> tooSoon last now' = false.
Proof.
  unfold tooSoon. destruct last as [t|]; [|reflexivity].
  intros Hle. destruct (t =? 0); simpl; [reflexivity|].
  rewrite !Z.ltb_ge. lia.
Qed.

Lemma saveAlert_issued (p : AggregatedPair) (now : Z) (s : AlertStore) :
  snd (saveAlert p now s) = WriteIssued <->
  tooSoon (alertCache s !! symbol p) now = false.
Proof.
  unfold saveAlert. destruct (tooSoon _ now); simpl; split;
    intros H; try reflexivity; discriminate H.
Qed.

(** The dedup path: a call inside the cool-down of a recorded alert
    resolves with null and changes nothing; it neither writes nor rejects. *)
Lemma saveAlert_dedup_after_success (p : AggregatedPair) (last now : Z)
    (s : AlertStore) :
  alertCache s !! symbol p = Some last ->
  last <> 0 -> now - last < CACHE_TTL ->
  saveAlert p now s = (s, Deduplicated).
Proof.
  intros Hget Hnz Hin. unfold saveAlert, tooSoon. rewrite Hget.
  destruct (Z.eqb_spec last 0) as [->|_]; [congruence|]. simpl.
  destruct (Z.ltb_spec (now - last) CACHE_TTL) as [_|Hge]; [reflexivity | lia].
Qed.

(** C5, counterexample.  A write issued at 1000 fails; the dedup cache has
    no entry for the symbol afterwards, and the event at 2000, inside the
    60 s window, issues a second write. *)
Lemma C5_counterexample_retry_after_failure :
  ~ failedAttemptStartsCooldown.
Proof.
  intros H.
  specialize (H emptyAlertStore btcOpportunity 1000 2000 "SQLITE_BUSY").
  cbv zeta in H.
  assert (Hd : snd (saveAlert btcOpportunity 2000
                      (fst (saveAlert_callback 0 (DbErr "SQLITE_BUSY")
                              (fst (saveAlert btcOpportunity 1000 emptyAlertStore)))))
               = Deduplicated).
  { apply H; [reflexivity | lia | lia | unfold CACHE_TTL; lia]. }
  vm_compute in Hd. discriminate Hd.
Qed.

(** C5, amended.  When the write of an attempt fails, the promise is
    rejected and the dedup cache, which is only written after a successful
    insert, is what it was before the attempt: no cool-down starts, nothing
    is in the table, and a later qualifying event for the symbol issues a
    write again. *)
Theorem C5_failed_write_leaves_dedup_cache
    (s : AlertStore) (p : AggregatedPair) (now now' : Z) (err : string) :
  snd (saveAlert p now s) = WriteIssued ->
  now <= now' ->
  let s1 := fst (saveAlert p now s) in
  let done := saveAlert_callback (length (inflight s)) (DbErr err) s1 in
  snd done = Some (Rejected err)
  /\ alertCache (fst done) = alertCache s
  /\ alerts (fst done) = alerts s
  /\ inflight (fst done) = inflight s
  /\ snd (saveAlert p now' (fst done)) = WriteIssued.
Proof.
  intros Hissued Hle. apply saveAlert_issued in Hissued.
  assert (Hs1 : fst (saveAlert p now s)
                = {| alertCache := alertCache s; alerts := alerts s;
                     inflight := inflight s ++ [alertRow p now];
                     alertLog := alertLog s |}).
  { unfold saveAlert. rewrite Hissued. reflexivity. }
  cbv zeta. rewrite Hs1. unfold saveAlert_callback. simpl.
  rewrite nth_error_snoc. simpl. rewrite remove_nth_snoc.
  repeat split; try reflexivity.
  apply saveAlert_issued. simpl.
  eapply tooSoon_later; eassumption.
Qed.

(** A run of [C5_failed_write_leaves_dedup_cache]: the attempt at 1000
    fails and the event at 2000 issues a write again. *)
Lemma C5_failed_write_leaves_dedup_cache_witness :
  let s1 := fst (saveAlert btcOpportunity 1000 emptyAlertStore) in
  let done := saveAlert_callback 0 (DbErr "SQLITE_BUSY") s1 in
  snd done = Some (Rejected "SQLITE_BUSY")
  /\ alertCache (fst done) = ∅
  /\ alerts (fst done) = []
  /\ inflight (fst done) = []
  /\ snd (saveAlert btcOpportunity 2000 (fst done)) = WriteIssued.
Proof.
  apply (C5_failed_write_leaves_dedup_cache emptyAlertStore btcOpportunity
           1000 2000 "SQLITE_BUSY").
  - reflexivity.
  - lia.
Defined.

(** C6, the code at the failing input.  Vest quotes at 5000; Paradex quotes
    at 5001 and again at 5002, each time with a spread of about 1.8 %.  The
    write of the first alert has not called back when the second event is
    handled, so the dedup cache is still empty and a second write is
    issued; both succeed, and two alert rows for BTC, 1 ms apart, are in
    the table. *)
Lemma C6_two_alerts_inside_one_window :
  let st1 := run btcOnly fieldOrder initialState
               [EvStart; EvUpdate Vest vestQuote 5000;
                EvUpdate Paradex paradexQuote 5001] in
  let st2 := step btcOnly fieldOrder st1 (EvUpdate Paradex paradexQuote 5002) in
  let st3 := run btcOnly fieldOrder st2 [EvAlertDb 0 DbOk; EvAlertDb 0 DbOk] in
  inflight (alertStore st1) = [alertRow btcOpportunity 5001]
  /\ alertCache (alertStore st1) !! "BTC" = None
  /\ map row_symbol (inflight (alertStore st2)) = ["BTC"; "BTC"]
  /\ map row_symbol (alerts (alertStore st3)) = ["BTC"; "BTC"]
  /\ map row_timestamp (alerts (alertStore st3)) = [5001; 5002].
Proof.
  repeat split; vm_compute; reflexivity.
Qed.

(** The same two events when the first write has called back in between:
    the second call is deduplicated and one row is in the table. *)
Lemma saveAlert_second_call_after_callback :
  let st1 := run btcOnly fieldOrder initialState
               [EvStart; EvUpdate Vest vestQuote 5000;
                EvUpdate Paradex paradexQuote 5001; EvAlertDb 0 DbOk] in
  let st2 := step btcOnly fieldOrder st1 (EvUpdate Paradex paradexQuote 5002) in
  alertCache (alertStore st1) !! "BTC" = Some 5001
  /\ alertStore st2 = alertStore st1
  /\ map row_timestamp (alerts (alertStore st2)) = [5001].
Proof.
  repeat split; vm_compute; reflexivity.
Qed.

(** ** The snapshot of [getPriceCache] *)

Section SnapshotFacts.

Variable ALLOWED_SYMBOLS : list string.

Lemma allowed_In (sym : string) :
  allowed ALLOWED_SYMBOLS sym = true <-> In sym ALLOWED_SYMBOLS.
Proof.
  unfold allowed. rewrite existsb_exists. split.
  - intros (x & Hin & Heq). apply String.eqb_eq in Heq. subst x. exact Hin.
  - intros Hin. exists sym. split; [exact Hin | apply String.eqb_refl].
Qed.

Lemma cache_get_filtered (c : Cache) (syms : list string) (acc : Cache)
    (k : string) :
  cache_get
    (fold_left
       (fun filtered sym =>
          match cache_get c sym with
          | Some entry => cache_set filtered sym entry
          | None => filtered
          end)
       syms acc) k
  = match (if existsb (String.eqb k) syms then cache_get c k else None) with
    | Some p => Some p
    | None => cache_get acc k
    end.
Proof.
  revert acc. induction syms as [|s syms IH]; intros acc; simpl; [reflexivity|].
  rewrite IH. destruct (String.eqb k s) eqn:E; simpl.
  - apply String.eqb_eq in E. subst s.
    destruct (existsb (String.eqb k) syms);
      destruct (cache_get c k) as [p|]; try reflexivity.
    apply cache_get_set_eq.
  - assert (Hne : s <> k).
    { intros ->. rewrite String.eqb_refl in E. discriminate. }
    destruct (existsb (String.eqb k) syms).
    + destruct (cache_get c k); [reflexivity|].
      destruct (cache_get c s); [apply cache_get_set_ne, Hne | reflexivity].
    + destruct (cache_get c s); [apply cache_get_set_ne, Hne | reflexivity].
Qed.

(** The snapshot holds, for a symbol, the cached pair when the symbol is
    allow-listed and nothing otherwise. *)
Lemma cache_get_getPriceCache (st : State) (k : string) :
  cache_get (getPriceCache ALLOWED_SYMBOLS st) k
  = if allowed ALLOWED_SYMBOLS k then cache_get (PRICE_CACHE st) k else None.
Proof.
  unfold getPriceCache, allowed. rewrite cache_get_filtered. simpl.
  destruct (existsb (String.eqb k) ALLOWED_SYMBOLS); [|reflexivity].
  destruct (cache_get (PRICE_CACHE st) k); reflexivity.
Qed.

Lemma getPriceCache_nonempty (st : State) (k : string) (p : AggregatedPair) :
  allowed ALLOWED_SYMBOLS k = true ->
  cache_get (PRICE_CACHE st) k = Some p ->
  getPriceCache ALLOWED_SYMBOLS st <> [].
Proof.
  intros Hal Hget Hnil.
  pose proof (cache_get_getPriceCache st k) as H.
  rewrite Hal, Hget, Hnil in H. discriminate H.
Qed.

End SnapshotFacts.

(** ** The broadcast throttle (C7) *)

Lemma spaced_head (b : Z * Cache) (log : list (Z * Cache)) :
  spaced (b :: log) ->
  forall x, In x log -> fst x + BROADCAST_THROTTLE <= fst b.
Proof.
  revert b. induction log as [|p log IH]; intros b Hsp x Hin; [destruct Hin|].
  destruct Hsp as [Hgap Hrest]. destruct Hin as [->|Hin]; [exact Hgap|].
  specialize (IH p Hrest x Hin). unfold BROADCAST_THROTTLE in *. lia.
Qed.

Lemma spaced_pairwise (log : list (Z * Cache)) :
  spaced log ->
  forall l1 b2 l2 b1 l3,
    log = l1 ++ b2 :: l2 ++ b1 :: l3 ->
    fst b1 + BROADCAST_THROTTLE <= fst b2.
Proof.
  intros Hsp l1. revert log Hsp.
  induction l1 as [|x l1 IH]; intros log Hsp b2 l2 b1 l3 ->; simpl in Hsp.
  - eapply spaced_head; [exact Hsp|]. apply in_or_app. right. left. reflexivity.
  - destruct Hsp as [_ Hrest]. eapply IH; [exact Hrest | reflexivity].
Qed.

Lemma throttleInv_view (t : Z) (st st' : State) :
  throttleView st' = throttleView st -> throttleInv t st -> throttleInv t st'.
Proof.
  unfold throttleView, throttleInv. intros [= -> -> -> ->]. tauto.
Qed.

Lemma throttleInv_later (t t' : Z) (st : State) :
  t <= t' -> throttleInv t st -> throttleInv t' st.
Proof. unfold throttleInv. intros Hle (H1 & H2). split; [lia | exact H2]. Qed.

Lemma throttleView_checkPair (now : Z) (st : State) (p : AggregatedPair) :
  throttleView (checkPair now st p) = throttleView st
  /\ wsBroadcaster (checkPair now st p) = wsBroadcaster st.
Proof.
  unfold checkPair.
  destruct (Num_gt0 (bestBid p) && Num_gt0 (bestAsk p)); [|split; reflexivity].
  destruct (DB_SAVE_THROTTLE <=? _);
    destruct (Num_ge (realSpread p) ALERT_THRESHOLD); split; reflexivity.
Qed.

Lemma throttleView_checkPairs (now : Z) (ps : list AggregatedPair) (st : State) :
  throttleView (fold_left (checkPair now) ps st) = throttleView st
  /\ wsBroadcaster (fold_left (checkPair now) ps st) = wsBroadcaster st.
Proof.
  revert st. induction ps as [|p ps IH]; intros st; simpl; [split; reflexivity|].
  destruct (IH (checkPair now st p)) as [H1 H2].
  destruct (throttleView_checkPair now st p) as [H3 H4].
  rewrite H1, H2, H3, H4. split; reflexivity.
Qed.

Section ThrottleFacts.

Variable ALLOWED_SYMBOLS : list string.
Variable venueRank : ExchangeName -> nat.

Lemma getPriceCache_ext (st st' : State) :
  PRICE_CACHE st' = PRICE_CACHE st ->
  getPriceCache ALLOWED_SYMBOLS st' = getPriceCache ALLOWED_SYMBOLS st.
Proof. unfold getPriceCache. intros ->. reflexivity. Qed.

(** What [performBroadcast] does to the throttle: nothing, or one
    broadcast of the current snapshot stamped with the current time. *)
Lemma performBroadcast_cases (now : Z) (st : State) :
  (performBroadcast ALLOWED_SYMBOLS now st = st
   /\ (wsBroadcaster st = false \/ getPriceCache ALLOWED_SYMBOLS st = []))
  \/ (wsBroadcaster st = true
      /\ getPriceCache ALLOWED_SYMBOLS st <> []
      /\ throttleView (performBroadcast ALLOWED_SYMBOLS now st)
         = (now, broadcastPending st, timers st,
            (now, getPriceCache ALLOWED_SYMBOLS st) :: broadcasts st)).
Proof.
  unfold performBroadcast, performBroadcast_with.
  destruct (wsBroadcaster st); [|left; split; [reflexivity | left; reflexivity]].
  destruct (getPriceCache ALLOWED_SYMBOLS st) as [|x snapshot]; simpl.
  - left. split; [reflexivity | right; reflexivity].
  - right. split; [reflexivity|]. split; [discriminate | reflexivity].
Qed.

Lemma throttleInv_performBroadcast (t now : Z) (st : State) :
  throttleInv t st ->
  lastBroadcastTime st + BROADCAST_THROTTLE <= now ->
  t <= now ->
  throttleInv now
    (set_pending (performBroadcast ALLOWED_SYMBOLS now st) false []).
Proof.
  intros (Hlast & Hsp & Hlatest & Hpend) Hgap Hle.
  destruct (performBroadcast_cases now st) as [[-> _]|(_ & _ & Hview)].
  - unfold throttleInv. simpl. split; [lia|]. split; [exact Hsp|].
    split; [exact Hlatest|]. left. split; reflexivity.
  - unfold throttleView in Hview. injection Hview as Hl _ _ Hb.
    unfold throttleInv. simpl. rewrite Hl, Hb. split; [lia|]. split.
    + simpl. split; [|exact Hsp].
      destruct (broadcasts st) as [|previous rest]; [exact I|].
      simpl in Hlatest. lia.
    + split; [reflexivity|]. left. split; reflexivity.
Qed.

Lemma throttleInv_throttledBroadcast (t now : Z) (st : State) :
  throttleInv t st -> t <= now ->
  throttleInv now (throttledBroadcast ALLOWED_SYMBOLS now st).
Proof.
  intros Hinv Hle. pose proof Hinv as (Hlast & Hsp & Hbound & Hpend).
  unfold throttledBroadcast.
  destruct Hpend as [[Hp Ht]|[Hp Ht]]; rewrite Hp.
  2: { eapply throttleInv_later; eassumption. }
  destruct (Z.leb_spec BROADCAST_THROTTLE (now - lastBroadcastTime st)) as [Hge|Hlt].
  - pose proof (throttleInv_performBroadcast t now st Hinv ltac:(lia) Hle) as H.
    eapply throttleInv_view; [|exact H].
    destruct (performBroadcast_cases now st) as [[-> _]|(_ & _ & Hview)].
    + unfold throttleView. simpl. rewrite Hp, Ht. reflexivity.
    + unfold throttleView in *. simpl. injection Hview as -> Hq Htm ->.
      rewrite Hq, Htm, Hp, Ht. reflexivity.
  - unfold throttleInv. simpl. split; [lia|]. split; [exact Hsp|].
    split; [exact Hbound|]. right. split; [reflexivity|].
    rewrite Ht. simpl. f_equal. lia.
Qed.

(** An accepted update ends in [throttledBroadcast], run on a state whose
    throttle fields are untouched. *)
Lemma handleUpdate_signals (e : ExchangeName) (data : TimestampedPrice)
    (now : Z) (st : State) :
  allowed ALLOWED_SYMBOLS (tp_symbol data) = true ->
  exists st2,
    handleUpdate ALLOWED_SYMBOLS venueRank e data now st
    = throttledBroadcast ALLOWED_SYMBOLS now st2
    /\ throttleView st2 = throttleView st
    /\ wsBroadcaster st2 = wsBroadcaster st.
Proof.
  intros Hal. unfold handleUpdate, ensurePair. rewrite Hal. simpl.
  destruct (cache_get (PRICE_CACHE st) (tp_symbol data)) as [existing|];
    unfold updateAndRecalculate;
    match goal with
    | |- context [fold_left (checkPair now) ?ps ?s] =>
        exists (fold_left (checkPair now) ps s);
        destruct (throttleView_checkPairs now ps s) as [Hv Hw]
    end;
    (split; [reflexivity|]); rewrite Hv, Hw; split; reflexivity.
Qed.

Lemma throttleInv_step (t : Z) (st : State) (ev : Event) :
  throttleInv t st ->
  t <= default t (eventTime ev) ->
  throttleInv (default t (eventTime ev)) (step ALLOWED_SYMBOLS venueRank st ev).
Proof.
  intros Hinv Hle. destruct ev as [| |e data now|i now|i out]; simpl in *.
  - eapply throttleInv_view; [|exact Hinv]. reflexivity.
  - eapply throttleInv_view; [|exact Hinv]. reflexivity.
  - destruct (allowed ALLOWED_SYMBOLS (tp_symbol data)) eqn:Hal.
    + destruct (handleUpdate_signals e data now st Hal) as (st2 & -> & Hv & _).
      apply (throttleInv_throttledBroadcast t); [|exact Hle].
      eapply throttleInv_view; eassumption.
    + rewrite handleUpdate_rejected by exact Hal.
      eapply throttleInv_later; eassumption.
  - pose proof Hinv as (Hlast & Hsp & Hbound & [[Hp Ht]|[Hp Ht]]); rewrite Ht.
    + destruct i; simpl; eapply throttleInv_later; eassumption.
    + destruct i as [|j]; simpl.
      2: { destruct j; simpl; eapply throttleInv_later; eassumption. }
      destruct (Z.leb_spec (lastBroadcastTime st + BROADCAST_THROTTLE) now)
        as [Hdue|Hnot]; [|eapply throttleInv_later; eassumption].
      eapply throttleInv_view;
        [|exact (throttleInv_performBroadcast t now st Hinv Hdue Hle)].
      unfold trailingBroadcast, performBroadcast, performBroadcast_with,
        getPriceCache, throttleView. simpl.
      destruct (wsBroadcaster st); [|reflexivity].
      destruct (0 <? length _)%nat; reflexivity.
  - eapply throttleInv_view; [|exact Hinv].
    unfold alertWriteDone.
    destruct (saveAlert_callback i out (alertStore st)) as [a [[id|err]|]];
      reflexivity.
Qed.

End ThrottleFacts.

Section ThrottleTheorem.

Variable ALLOWED_SYMBOLS : list string.
Variable venueRank : ExchangeName -> nat.

Lemma throttleInv_run (evs : list Event) (t0 : Z) (st : State) :
  throttleInv t0 st ->
  monotone t0 evs = true ->
  throttleInv (clockAfter t0 evs) (run ALLOWED_SYMBOLS venueRank st evs).
Proof.
  revert t0 st. induction evs as [|ev evs IH]; intros t0 st Hinv Hmono; simpl.
  - exact Hinv.
  - simpl in Hmono.
    unfold clockAfter. simpl. fold (clockAfter (default t0 (eventTime ev)) evs).
    apply IH.
    + apply throttleInv_step; [exact Hinv|].
      destruct (eventTime ev) as [t|]; simpl; [|lia].
      apply andb_true_iff in Hmono as [Hle _]. apply Z.leb_le in Hle. exact Hle.
    + destruct (eventTime ev) as [t|]; simpl; [|exact Hmono].
      apply andb_true_iff in Hmono as [_ Hmono]. exact Hmono.
Qed.

Lemma throttleInv_initialState (t0 : Z) : 0 <= t0 -> throttleInv t0 initialState.
Proof.
  intros H. unfold throttleInv. simpl. split; [exact H|]. split; [exact I|].
  split; [reflexivity|]. left. split; reflexivity.
Qed.

(** Quiet turns leave the cache and the throttle alone and keep a
    registered broadcaster. *)
Lemma quiet_run (quiet : list Event) (st : State) :
  forallb isQuiet quiet = true ->
  let st' := run ALLOWED_SYMBOLS venueRank st quiet in
  PRICE_CACHE st' = PRICE_CACHE st
  /\ throttleView st' = throttleView st
  /\ (wsBroadcaster st = true -> wsBroadcaster st' = true).
Proof.
  revert st. induction quiet as [|ev quiet IH]; intros st Hq; simpl.
  - repeat split. tauto.
  - simpl in Hq. apply andb_true_iff in Hq as [Hev Hq].
    destruct (IH (step ALLOWED_SYMBOLS venueRank st ev) Hq) as (Hc & Hv & Hw).
    cbv zeta in *. unfold run in *. rewrite Hc, Hv.
    destruct ev as [| |e data now|i now|i out]; try discriminate Hev; simpl in *.
    + repeat split. intros _. apply Hw. reflexivity.
    + unfold alertWriteDone in *.
      destruct (saveAlert_callback i out (alertStore st)) as [a [[id|err]|]];
        repeat split; exact Hw.
Qed.

End ThrottleTheorem.

(** ** The symbols of the cache (C9) *)

Lemma cache_get_In_key (c : Cache) (k : string) :
  In k (cache_keys c) <-> exists p, cache_get c k = Some p.
Proof.
  split.
  - intros Hin. destruct (cache_get c k) as [p|] eqn:E; [eauto|].
    exfalso. exact (cache_get_None_key c k E Hin).
  - intros [p Hp]. exact (cache_get_Some_key c k p Hp).
Qed.

Section CacheSymbols.

Variable ALLOWED_SYMBOLS : list string.
Variable venueRank : ExchangeName -> nat.

Lemma cache_keys_seed (syms : list string) (acc : Cache) (s : string) :
  In s (cache_keys
          (fold_left (fun c sym => cache_set c sym (createPair sym)) syms acc))
  <-> In s syms \/ In s (cache_keys acc).
Proof.
  revert acc. induction syms as [|x syms IH]; intros acc; simpl; [tauto|].
  rewrite IH, cache_keys_set. intuition congruence.
Qed.

Lemma cache_keys_startScheduler (st : State) (s : string) :
  In s (cache_keys (PRICE_CACHE (startScheduler ALLOWED_SYMBOLS st)))
  <-> In s ALLOWED_SYMBOLS.
Proof.
  unfold startScheduler. simpl. rewrite cache_keys_seed. simpl. tauto.
Qed.

Lemma PRICE_CACHE_trailingBroadcast (now : Z) (st : State) :
  PRICE_CACHE (trailingBroadcast ALLOWED_SYMBOLS now st) = PRICE_CACHE st.
Proof.
  unfold trailingBroadcast. simpl. apply PRICE_CACHE_performBroadcast.
Qed.

Lemma PRICE_CACHE_alertWriteDone (i : nat) (out : DbOutcome) (st : State) :
  PRICE_CACHE (alertWriteDone i out st) = PRICE_CACHE st.
Proof.
  unfold alertWriteDone.
  destruct (saveAlert_callback i out (alertStore st)) as [a [[id|err]|]];
    reflexivity.
Qed.

Lemma symbolsAreAllowList_step (st : State) (ev : Event) :
  symbolsAreAllowList ALLOWED_SYMBOLS st ->
  symbolsAreAllowList ALLOWED_SYMBOLS (step ALLOWED_SYMBOLS venueRank st ev).
Proof.
  intros Hinv. destruct ev as [| |e data now|i now|i out]; simpl.
  - intros s. apply cache_keys_startScheduler.
  - exact Hinv.
  - destruct (allowed ALLOWED_SYMBOLS (tp_symbol data)) eqn:Hal.
    + intros s.
      rewrite (PRICE_CACHE_handleUpdate ALLOWED_SYMBOLS venueRank e data now st Hal).
      rewrite cache_keys_calculateSpreads, cache_keys_set, (Hinv s).
      apply allowed_In in Hal. intuition congruence.
    + rewrite handleUpdate_rejected by exact Hal. exact Hinv.
  - destruct (nth_error (timers st) i) as [due|]; [|exact Hinv].
    destruct (due <=? now); [|exact Hinv].
    intros s. rewrite PRICE_CACHE_trailingBroadcast. simpl. apply Hinv.
  - intros s. rewrite PRICE_CACHE_alertWriteDone. apply Hinv.
Qed.

Lemma symbolsAreAllowList_run (evs : list Event) (st : State) :
  symbolsAreAllowList ALLOWED_SYMBOLS st ->
  symbolsAreAllowList ALLOWED_SYMBOLS (run ALLOWED_SYMBOLS venueRank st evs).
Proof.
  revert st. induction evs as [|ev evs IH]; intros st Hinv; simpl; [exact Hinv|].
  apply IH, symbolsAreAllowList_step, Hinv.
Qed.

(** C9.  At every point after the start, whatever the state was before it
    and whatever turns follow, the symbols of the price cache are exactly
    the allow-listed ones, and so are the symbols of the snapshot returned
    by [getPriceCache]; an update for a symbol off the allow-list changes
    nothing, in particular it creates no cache entry. *)
Theorem C9_cache_symbols_are_the_allow_list (st0 : State) (evs : list Event) :
  let st := run ALLOWED_SYMBOLS venueRank st0 (EvStart :: evs) in
  (forall s, In s (cache_keys (PRICE_CACHE st)) <-> In s ALLOWED_SYMBOLS)
  /\ (forall s, In s (cache_keys (getPriceCache ALLOWED_SYMBOLS st))
                <-> In s ALLOWED_SYMBOLS)
  /\ (forall e data now,
        ~ In (tp_symbol data) ALLOWED_SYMBOLS ->
        handleUpdate ALLOWED_SYMBOLS venueRank e data now st = st).
Proof.
  intros st.
  assert (Hinv : symbolsAreAllowList ALLOWED_SYMBOLS st).
  { unfold st. simpl. apply symbolsAreAllowList_run.
    intros s. apply cache_keys_startScheduler. }
  split; [exact Hinv|]. split.
  - intros s. rewrite cache_get_In_key.
    setoid_rewrite cache_get_getPriceCache.
    destruct (allowed ALLOWED_SYMBOLS s) eqn:Hal.
    + rewrite <- cache_get_In_key, (Hinv s). tauto.
    + split.
      * intros [p Hp]. discriminate Hp.
      * intros Hin. apply allowed_In in Hin. congruence.
  - intros e data now Hnot. apply handleUpdate_rejected.
    destruct (allowed ALLOWED_SYMBOLS (tp_symbol data)) eqn:Hal; [|reflexivity].
    apply allowed_In in Hal. contradiction.
Qed.

End CacheSymbols.

(** A run of [C9_cache_symbols_are_the_allow_list]: with BTC alone on the
    allow-list, an ETH update after the start is dropped. *)
Lemma C9_cache_symbols_are_the_allow_list_witness :
  let st := run btcOnly fieldOrder initialState
              (EvStart :: [EvUpdate Vest vestQuote 5000]) in
  cache_keys (PRICE_CACHE st) = ["BTC"]
  /\ handleUpdate btcOnly fieldOrder Lighter
       {| tp_symbol := "ETH"; tp_bid := 3000; tp_ask := 3001;
          tp_timestamp := 5002; tp_source := "ws" |} 5002 st = st.
Proof.
  destruct (C9_cache_symbols_are_the_allow_list btcOnly fieldOrder initialState
              [EvUpdate Vest vestQuote 5000]) as (_ & _ & Hdrop).
  split; [reflexivity|].
  apply Hdrop. simpl. intros [H|[]]. discriminate H.
Defined.

(** ** What an alert row records (C10) *)

Section AlertRows.

Variable ALLOWED_SYMBOLS : list string.
Variable venueRank : ExchangeName -> nat.

Lemma issuedAlong_snoc (st0 : State) (evs : list Event) (ev : Event)
    (row : AlertRow) (p : AggregatedPair) (now : Z) :
  issuedAlong ALLOWED_SYMBOLS venueRank st0 evs row p now ->
  issuedAlong ALLOWED_SYMBOLS venueRank st0 (evs ++ [ev]) row p now.
Proof.
  intros (evs1 & e & data & evs2 & -> & Hin & Hq & Hrow).
  exists evs1, e, data, (evs2 ++ [ev]).
  rewrite <- app_assoc. simpl. repeat split; assumption.
Qed.

Lemma alertStore_trailingBroadcast (now : Z) (st : State) :
  alertStore (trailingBroadcast ALLOWED_SYMBOLS now st) = alertStore st.
Proof.
  unfold trailingBroadcast. simpl. apply alertStore_performBroadcast.
Qed.

(** The alert store after an accepted update. *)
Lemma alertStore_handleUpdate (e : ExchangeName) (data : TimestampedPrice)
    (now : Z) (st : State) :
  allowed ALLOWED_SYMBOLS (tp_symbol data) = true ->
  let st' := handleUpdate ALLOWED_SYMBOLS venueRank e data now st in
  alerts (alertStore st') = alerts (alertStore st)
  /\ inflight (alertStore st')
     = inflight (alertStore st)
       ++ map (fun p => alertRow p now)
            (List.filter (issues now (alertCache (alertStore st)))
               (cache_values (PRICE_CACHE st'))).
Proof.
  intros Hal. unfold handleUpdate, ensurePair. rewrite Hal. simpl.
  destruct (cache_get (PRICE_CACHE st) (tp_symbol data)) as [existing|];
    match goal with
    | |- context [updateAndRecalculate _ _ now ?s] =>
        destruct (alertStore_updateAndRecalculate ALLOWED_SYMBOLS venueRank now s)
          as (_ & Ha & Hi)
    end;
    split; assumption.
Qed.

(** Every row in the table or in flight was issued along the trace. *)
Lemma rows_issuedAlong (evs : list Event) (row : AlertRow) :
  let st := run ALLOWED_SYMBOLS venueRank initialState evs in
  In row (alerts (alertStore st)) \/ In row (inflight (alertStore st)) ->
  exists p now, issuedAlong ALLOWED_SYMBOLS venueRank initialState evs row p now.
Proof.
  revert row. induction evs as [|ev evs IH] using rev_ind; intros row st.
  - simpl. intros [[]|[]].
  - unfold st. rewrite run_app. simpl.
    set (prev := run ALLOWED_SYMBOLS venueRank initialState evs) in *.
    assert (Hold : In row (alerts (alertStore prev))
                   \/ In row (inflight (alertStore prev)) ->
                   exists p now,
                     issuedAlong ALLOWED_SYMBOLS venueRank initialState
                       (evs ++ [ev]) row p now).
    { intros H. destruct (IH row H) as (p & now & Hp).
      exists p, now. apply issuedAlong_snoc, Hp. }
    destruct ev as [| |e data now|i now|i out]; simpl.
    + exact Hold.
    + exact Hold.
    + destruct (allowed ALLOWED_SYMBOLS (tp_symbol data)) eqn:Hal.
      * destruct (alertStore_handleUpdate e data now prev Hal) as [Ha Hi].
        rewrite Ha, Hi. intros [H|H]; [apply Hold; left; exact H|].
        apply in_app_or in H as [H|H]; [apply Hold; right; exact H|].
        apply in_map_iff in H as (p & <- & Hin).
        apply filter_In in Hin as [Hin Hiss].
        unfold issues in Hiss. apply andb_true_iff in Hiss as [Hq _].
        exists p, now, evs, e, data, [].
        split; [reflexivity|]. split; [|split; [exact Hq | reflexivity]].
        rewrite run_app. simpl. exact Hin.
      * rewrite handleUpdate_rejected by exact Hal. exact Hold.
    + destruct (nth_error (timers prev) i) as [due|]; [|exact Hold].
      destruct (due <=? now); [|exact Hold].
      rewrite alertStore_trailingBroadcast. simpl. exact Hold.
    + unfold alertWriteDone, saveAlert_callback.
      destruct (nth_error (inflight (alertStore prev)) i) as [r|] eqn:Hnth;
        [|exact Hold].
      destruct out as [|err]; simpl.
      * intros [H|H].
        -- apply in_app_or in H as [H|[<-|[]]]; [apply Hold; left; exact H|].
           apply Hold. right. eapply nth_error_In. exact Hnth.
        -- apply Hold. right. eapply In_remove_nth. exact H.
      * intros [H|H]; [apply Hold; left; exact H|].
        apply Hold. right. eapply In_remove_nth. exact H.
Qed.

(** C10.  Every alert row persisted along a trace from the initial state
    was built by [saveAlert] from a pair that an update of the trace left
    in the cache with bestBid > 0, bestAsk > 0 and spread at or above the
    threshold; its buy exchange and buy price are that pair's best-ask
    venue and best ask, its sell exchange and sell price the pair's
    best-bid venue and best bid, and it carries the pair's symbol and
    spread and the time of that update. *)
Theorem C10_alert_row_sides (evs : list Event) (row : AlertRow) :
  In row (alerts (alertStore (run ALLOWED_SYMBOLS venueRank initialState evs))) ->
  exists p now,
    issuedAlong ALLOWED_SYMBOLS venueRank initialState evs row p now
    /\ exchange_buy row = bestAskEx p
    /\ price_buy row = bestAsk p
    /\ exchange_sell row = bestBidEx p
    /\ price_sell row = bestBid p
    /\ row_symbol row = symbol p
    /\ row_spread row = realSpread p
    /\ row_timestamp row = now.
Proof.
  intros Hin.
  destruct (rows_issuedAlong evs row (or_introl Hin)) as (p & now & Hiss).
  exists p, now. split; [exact Hiss|].
  destruct Hiss as (_ & _ & _ & _ & _ & _ & _ & ->).
  repeat split; reflexivity.
Qed.

End AlertRows.

(** A run of [C10_alert_row_sides]: the alert of the spec's scenario buys at
    Vest for 100.2 and sells at Paradex for 102. *)
Lemma C10_alert_row_sides_witness :
  exists p now,
    issuedAlong btcOnly fieldOrder initialState
      [EvStart; EvUpdate Vest vestQuote 5000;
       EvUpdate Paradex paradexQuote 5001; EvAlertDb 0 DbOk]
      (alertRow btcOpportunity 5001) p now
    /\ exchange_buy (alertRow btcOpportunity 5001) = bestAskEx p
    /\ price_buy (alertRow btcOpportunity 5001) = bestAsk p
    /\ exchange_sell (alertRow btcOpportunity 5001) = bestBidEx p
    /\ price_sell (alertRow btcOpportunity 5001) = bestBid p
    /\ row_symbol (alertRow btcOpportunity 5001) = symbol p
    /\ row_spread (alertRow btcOpportunity 5001) = realSpread p
    /\ row_timestamp (alertRow btcOpportunity 5001) = now.
Proof.
  apply (C10_alert_row_sides btcOnly fieldOrder
           [EvStart; EvUpdate Vest vestQuote 5000;
            EvUpdate Paradex paradexQuote 5001; EvAlertDb 0 DbOk]
           (alertRow btcOpportunity 5001)).
  vm_compute. left. reflexivity.
Defined.

(** ** Venue adapters (C8) *)

Lemma forEach_skip (body : JsVal -> Outcome (option MarketData))
    (before : list JsVal) (m : JsVal) (after : list JsVal)
    (results : list MarketData) :
  body m = Normal None ->
  forEach body (before ++ m :: after) results
  = forEach body (before ++ after) results.
Proof.
  intros Hskip. revert results.
  induction before as [|x before IH]; intros results; simpl.
  - rewrite Hskip. reflexivity.
  - destruct (body x) as [[r|]|e]; [apply IH | apply IH | reflexivity].
Qed.

Lemma forEach_throw (body : JsVal -> Outcome (option MarketData))
    (before : list JsVal) (m : JsVal) (after : list JsVal)
    (results : list MarketData) (e : string) :
  body m = Thrown e ->
  snd (forEach body before results) = None ->
  forEach body (before ++ m :: after) results
  = (fst (forEach body before results), Some e).
Proof.
  intros Hthrow. revert results.
  induction before as [|x before IH]; intros results; simpl.
  - intros _. rewrite Hthrow. reflexivity.
  - destruct (body x) as [[r|]|e']; [apply IH | apply IH | discriminate].
Qed.

(** C8, counterexample.  A Lighter batch in which one record lacks its
    symbol aborts as a whole: the well-formed BTC record next to it is lost
    and the result is empty, whichever record comes first.  An Extended
    response whose status is not ok returns an empty list and writes no log
    entry; a null record in an Extended batch ends the batch, the BTC record
    after it is not returned. *)
Lemma C8_counterexample_malformed_record_aborts_batch :
  fst (LighterService.fetchMarkets acceptAll numberOrZero (lighterBody [lighterBtc]))
  = Normal [{| md_symbol := JStr "BTC"; md_bid := 100; md_ask := 101 |}]
  /\ LighterService.fetchMarkets acceptAll numberOrZero
       (lighterBody [lighterNoSymbol; lighterBtc])
     = (Normal [], [lighterError])
  /\ LighterService.fetchMarkets acceptAll numberOrZero
       (lighterBody [lighterBtc; lighterNoSymbol])
     = (Normal [], [lighterError])
  /\ ExtendedService.fetchMarkets btcOnly numberOrNaN
       (AxiosResponse (JObj [("status", JStr "ERROR")]))
     = (Normal [], [])
  /\ fst (ExtendedService.fetchMarkets btcOnly numberOrNaN
            (extendedBody [extendedBtc]))
     = Normal [{| md_symbol := JStr "BTC"; md_bid := 100; md_ask := 101 |}]
  /\ fst (ExtendedService.fetchMarkets btcOnly numberOrNaN
            (extendedBody [JNull; extendedBtc]))
     = Normal [].
Proof.
  repeat split; vm_compute; reflexivity.
Qed.

Section AdapterFacts.

Variable isCrypto : JsVal -> Outcome bool.
Variable parsePrice : JsVal -> Outcome JsNumber.
Variable ALLOWED_SYMBOLS : list string.
Variable parseFloat : JsVal -> JsNumber.

(** C8, amended.  No [fetchMarkets] invocation lets an exception out.
    A failed request, and any exception raised while the response is
    processed, is caught and logged as one error entry; Lighter then
    returns the empty list, Extended the records it had accepted.  An
    Extended response that is empty, not ok or has no array of markets
    returns the empty list without a log entry.  A record that the checks
    of the loop body reject is skipped and does not change what the rest of
    the batch yields. *)
Theorem C8_fetchMarkets_failures (response : AxiosResult) :
  let lighter := LighterService.fetchMarkets isCrypto parsePrice in
  let extended := ExtendedService.fetchMarkets ALLOWED_SYMBOLS parseFloat in
  ((exists results, fst (lighter response) = Normal results)
   /\ (exists results, fst (extended response) = Normal results))
  /\ (forall e,
        response = AxiosError e ->
        lighter response = (Normal [], [lighterError])
        /\ extended response = (Normal [], [extendedError e]))
  /\ (forall e,
        LighterService.tryBlock isCrypto parsePrice response = Thrown e ->
        lighter response = (Normal [], [lighterError]))
  /\ (forall results e,
        ExtendedService.tryBlock ALLOWED_SYMBOLS parseFloat response
        = (results, ExtendedService.Caught e) ->
        extended response = (Normal results, [extendedError e]))
  /\ (forall results,
        ExtendedService.tryBlock ALLOWED_SYMBOLS parseFloat response
        = (results, ExtendedService.EarlyReturn) ->
        extended response = (Normal [], []))
  /\ (forall records,
        lighter (lighterBody records)
        = match forEach (LighterService.eachMarket isCrypto parsePrice)
                  records [] with
          | (results, None) =>
              (Normal results,
               [{| level := DEBUG; tag := "Lighter";
                   message := "Returning pairs with real bid/ask" |}])
          | (_, Some e) => (Normal [], [lighterError])
          end)
  /\ (forall records,
        extended (extendedBody records)
        = match forEach (ExtendedService.eachMarket ALLOWED_SYMBOLS parseFloat)
                  records [] with
          | (results, None) => (Normal results, [])
          | (results, Some e) => (Normal results, [extendedError e])
          end)
  /\ (forall body before m after results,
        body m = Normal None ->
        forEach body (before ++ m :: after) results
        = forEach body (before ++ after) results).
Proof.
  intros lighter extended. unfold lighter, extended.
  split.
  { split.
    - unfold LighterService.fetchMarkets.
      destruct (LighterService.tryBlock isCrypto parsePrice response);
        eexists; reflexivity.
    - unfold ExtendedService.fetchMarkets.
      destruct (ExtendedService.tryBlock ALLOWED_SYMBOLS parseFloat response)
        as [results [| |e]]; eexists; reflexivity. }
  split.
  { intros e ->. split; reflexivity. }
  split.
  { intros e He. unfold LighterService.fetchMarkets. rewrite He. reflexivity. }
  split.
  { intros results e He. unfold ExtendedService.fetchMarkets. rewrite He.
    reflexivity. }
  split.
  { intros results He. unfold ExtendedService.fetchMarkets. rewrite He.
    f_equal. f_equal.
    unfold ExtendedService.tryBlock in He.
    destruct (awaitGet response) as [data|e]; [|discriminate He].
    destruct (truthy data); simpl in He; [|congruence].
    destruct (ExtendedService.statusNotOk data) as [[|]|e];
      [congruence | | discriminate He].
    destruct (getProp data "data") as [[| | | | | |markets|]|e];
      try congruence.
    destruct (forEach _ markets []) as [rs [e|]]; discriminate He. }
  split.
  { intros records. unfold LighterService.fetchMarkets, LighterService.tryBlock,
      lighterBody. simpl.
    destruct (forEach _ records []) as [results [e|]]; reflexivity. }
  split.
  { intros records. unfold ExtendedService.fetchMarkets,
      ExtendedService.tryBlock, extendedBody. simpl.
    destruct (forEach _ records []) as [results [e|]]; reflexivity. }
  intros body before m after results. apply forEach_skip.
Qed.

End AdapterFacts.

(** A run of [C8_fetchMarkets_failures]: a refused connection gives the
    empty list and one error entry in both adapters, and an inactive record
    between two BTC records of an Extended batch is skipped. *)
Lemma C8_fetchMarkets_failures_witness :
  (LighterService.fetchMarkets acceptAll numberOrZero (AxiosError "ECONNREFUSED")
   = (Normal [], [lighterError])
   /\ ExtendedService.fetchMarkets btcOnly numberOrNaN (AxiosError "ECONNREFUSED")
      = (Normal [], [extendedError "ECONNREFUSED"]))
  /\ forEach (ExtendedService.eachMarket btcOnly numberOrNaN)
       ([extendedBtc] ++ JObj [("name", JStr "BTC-USD"); ("active", JBool false)]
                      :: [extendedBtc]) []
     = forEach (ExtendedService.eachMarket btcOnly numberOrNaN)
         ([extendedBtc] ++ [extendedBtc]) [].
Proof.
  destruct (C8_fetchMarkets_failures acceptAll numberOrZero btcOnly numberOrNaN
              (AxiosError "ECONNREFUSED"))
    as (_ & Hfail & _ & _ & _ & _ & _ & Hskip).
  split.
  - apply Hfail. reflexivity.
  - apply Hskip. reflexivity.
Defined.

(** ** The broadcast throttle: signals and the trailing broadcast (C7) *)

(** C7, counterexample.  After [burstTrace] the last broadcast was at 5000
    and the trailing broadcast is scheduled for 6000.  An update handled at
    6001, before the overdue timer has run, arrives more than a window
    after the last broadcast and is not broadcast: [throttledBroadcast]
    returns at once while a trailing broadcast is pending. *)
Lemma C7_counterexample_pending_timer_holds_broadcast :
  ~ idleSignalBroadcastsAtOnce btcOnly fieldOrder.
Proof.
  intros H.
  destruct (H burstTrace Vest vestQuote 6001) as [payload Hb].
  - reflexivity.
  - reflexivity.
  - reflexivity.
  - vm_compute. discriminate.
  - apply (f_equal (@length _)) in Hb. vm_compute in Hb. discriminate Hb.
Qed.

Section ThrottleSignals.

Variable ALLOWED_SYMBOLS : list string.
Variable venueRank : ExchangeName -> nat.

Lemma cache_within_allow_list_step (st : State) (ev : Event) :
  (forall s, In s (cache_keys (PRICE_CACHE st)) -> In s ALLOWED_SYMBOLS) ->
  forall s,
    In s (cache_keys (PRICE_CACHE (step ALLOWED_SYMBOLS venueRank st ev))) ->
    In s ALLOWED_SYMBOLS.
Proof.
  intros Hinv s. destruct ev as [| |e data now|i now|i out]; cbn [step].
  - intros H. exact (proj1 (cache_keys_startScheduler ALLOWED_SYMBOLS st s) H).
  - apply Hinv.
  - destruct (allowed ALLOWED_SYMBOLS (tp_symbol data)) eqn:Hal.
    + rewrite (PRICE_CACHE_handleUpdate ALLOWED_SYMBOLS venueRank e data now
                 st Hal).
      rewrite cache_keys_calculateSpreads, cache_keys_set.
      apply allowed_In in Hal. intros [->|Hin]; [exact Hal | exact (Hinv s Hin)].
    + rewrite handleUpdate_rejected by exact Hal. apply Hinv.
  - destruct (nth_error (timers st) i) as [due|]; [|apply Hinv].
    destruct (due <=? now); [|apply Hinv].
    rewrite PRICE_CACHE_trailingBroadcast. simpl. apply Hinv.
  - rewrite PRICE_CACHE_alertWriteDone. apply Hinv.
Qed.

Lemma cache_within_allow_list_run (evs : list Event) :
  forall s,
    In s (cache_keys
            (PRICE_CACHE (run ALLOWED_SYMBOLS venueRank initialState evs))) ->
    In s ALLOWED_SYMBOLS.
Proof.
  induction evs as [|ev evs IH] using rev_ind.
  - intros s [].
  - rewrite run_app. simpl. apply cache_within_allow_list_step, IH.
Qed.

(** Where the cache holds allow-listed symbols only, the snapshot answers
    every lookup as the cache does. *)
Lemma snapshot_is_cache (st : State) :
  (forall s, In s (cache_keys (PRICE_CACHE st)) -> In s ALLOWED_SYMBOLS) ->
  forall k,
    cache_get (getPriceCache ALLOWED_SYMBOLS st) k
    = cache_get (PRICE_CACHE st) k.
Proof.
  clear venueRank.
  intros Hinv k. rewrite cache_get_getPriceCache.
  destruct (allowed ALLOWED_SYMBOLS k) eqn:Hal; [reflexivity|].
  destruct (cache_get (PRICE_CACHE st) k) as [p|] eqn:Hget; [|reflexivity].
  apply cache_get_Some_key, Hinv, allowed_In in Hget. congruence.
Qed.

(** C7, amended.  Along every trace from the initial state whose clock
    never goes back, with [last] the time of the latest broadcast (0 before
    the first one): (a) any two broadcasts are at least one throttle window
    (1 s) apart, so no window holds two; (b) at most one trailing broadcast
    is scheduled, and one is scheduled exactly while [broadcastPending] is
    set, for the end of the window; (c) an accepted update puts its quote
    into the cache and then: while a trailing broadcast is pending it
    broadcasts nothing and schedules nothing, however long ago the last
    broadcast was; otherwise, a full window or more after the last
    broadcast it is broadcast at once when a broadcaster is registered,
    and earlier it schedules exactly one trailing broadcast for the end of
    the window; (d) when the timer fires, after any quiet turns, the
    broadcast is made at that time.  Every payload answers every lookup as
    the cache does at the time of the broadcast: the cache as the last
    update left it. *)
Theorem C7_broadcast_throttle (t0 : Z) (evs : list Event) :
  0 <= t0 ->
  monotone t0 evs = true ->
  let st := run ALLOWED_SYMBOLS venueRank initialState evs in
  let last := lastBroadcastTime st in
  last = latest (broadcasts st)
  /\ (forall l1 b2 l2 b1 l3,
      broadcasts st = l1 ++ b2 :: l2 ++ b1 :: l3 ->
      fst b1 + BROADCAST_THROTTLE <= fst b2)
  /\ (length (timers st) <= 1)%nat
  /\ timers st
     = (if broadcastPending st then [last + BROADCAST_THROTTLE] else [])
  /\ (forall e data now,
        allowed ALLOWED_SYMBOLS (tp_symbol data) = true ->
        let st' := handleUpdate ALLOWED_SYMBOLS venueRank e data now st in
        (exists p,
           cache_get (PRICE_CACHE st') (tp_symbol data) = Some p
           /\ getEx p e = quoteOf data)
        /\ (broadcastPending st = true ->
            broadcasts st' = broadcasts st
            /\ lastBroadcastTime st' = last
            /\ timers st' = timers st
            /\ broadcastPending st' = true)
        /\ (broadcastPending st = false ->
            BROADCAST_THROTTLE <= now - last ->
            wsBroadcaster st = true ->
            exists payload,
              broadcasts st' = (now, payload) :: broadcasts st
              /\ payload = getPriceCache ALLOWED_SYMBOLS st'
              /\ (forall k,
                    cache_get payload k = cache_get (PRICE_CACHE st') k)
              /\ lastBroadcastTime st' = now
              /\ timers st' = []
              /\ broadcastPending st' = false)
        /\ (broadcastPending st = false ->
            BROADCAST_THROTTLE <= now - last ->
            wsBroadcaster st = false ->
            broadcasts st' = broadcasts st
            /\ timers st' = []
            /\ broadcastPending st' = false)
        /\ (broadcastPending st = false ->
            now - last < BROADCAST_THROTTLE ->
            broadcasts st' = broadcasts st
            /\ timers st' = [last + BROADCAST_THROTTLE]
            /\ broadcastPending st' = true))
  /\ (forall quiet due now,
        forallb isQuiet quiet = true ->
        timers st = [due] ->
        due <= now ->
        wsBroadcaster st = true ->
        PRICE_CACHE st <> [] ->
        let st' := run ALLOWED_SYMBOLS venueRank st (quiet ++ [EvTimer 0 now]) in
        exists payload,
          broadcasts st' = (now, payload) :: broadcasts st
          /\ payload = getPriceCache ALLOWED_SYMBOLS st
          /\ (forall k, cache_get payload k = cache_get (PRICE_CACHE st) k)
          /\ lastBroadcastTime st' = now
          /\ timers st' = []
          /\ broadcastPending st' = false).
Proof.
  intros Ht0 Hwt st last.
  pose proof (throttleInv_run ALLOWED_SYMBOLS venueRank evs t0 initialState
                (throttleInv_initialState t0 Ht0) Hwt) as Hinv.
  fold st in Hinv. destruct Hinv as (_ & Hsp & Hlatest & Hpend).
  pose proof (snapshot_is_cache st (cache_within_allow_list_run evs)) as Hsnapst.
  split; [exact Hlatest|].
  split; [exact (spaced_pairwise _ Hsp)|].
  split.
  { destruct Hpend as [[_ ->]|[_ ->]]; simpl; lia. }
  split.
  { destruct Hpend as [[-> ->]|[-> ->]]; reflexivity. }
  split.
  - intros e data now Hal st'.
    assert (Hsnap' : forall k,
              cache_get (getPriceCache ALLOWED_SYMBOLS st') k
              = cache_get (PRICE_CACHE st') k).
    { apply snapshot_is_cache.
      pose proof (cache_within_allow_list_run (evs ++ [EvUpdate e data now]))
        as Hw. rewrite run_app in Hw. exact Hw. }
    split.
    { unfold st'.
      rewrite (PRICE_CACHE_handleUpdate ALLOWED_SYMBOLS venueRank e data now
                 st Hal).
      rewrite cache_get_calculateSpreads, cache_get_set_eq. simpl.
      eexists. split; [reflexivity|].
      rewrite getEx_recomputePair. apply getEx_setEx_eq. }
    destruct (handleUpdate_signals ALLOWED_SYMBOLS venueRank e data now st Hal)
      as (st2 & Heq & Hv & Hw).
    assert (Hc2 : PRICE_CACHE st2 = PRICE_CACHE st').
    { unfold st'. rewrite Heq.
      symmetry. apply PRICE_CACHE_throttledBroadcast. }
    assert (Hsnap : getPriceCache ALLOWED_SYMBOLS st2
                    = getPriceCache ALLOWED_SYMBOLS st').
    { symmetry. apply getPriceCache_ext. symmetry. exact Hc2. }
    assert (Hne : getPriceCache ALLOWED_SYMBOLS st' <> []).
    { destruct (handleUpdate_stores_pair ALLOWED_SYMBOLS venueRank
                  st e data now Hal) as (p' & Hget).
      eapply getPriceCache_nonempty; eassumption. }
    unfold throttleView in Hv. injection Hv as Hl Hp Ht Hb.
    rewrite <- Hc2 in Hsnap'. rewrite <- Hsnap in *. clear Hsnap Hc2.
    assert (Hst' : st' = throttledBroadcast ALLOWED_SYMBOLS now st2) by exact Heq.
    clearbody st'. subst st'. clear Heq.
    unfold throttledBroadcast.
    fold last in Hl. rewrite Hp, Hl.
    destruct Hpend as [[Hp0 Ht0']|[Hp0 Ht0']]; rewrite Hp0.
    + split; [discriminate|]. split; [|split].
      * intros _ Hge Hws.
        destruct (Z.leb_spec BROADCAST_THROTTLE (now - last)); [|lia].
        unfold performBroadcast, performBroadcast_with.
        rewrite Hw, Hws.
        destruct (getPriceCache ALLOWED_SYMBOLS st2) as [|x snapshot] eqn:Hs;
          [congruence|].
        simpl. eexists. split; [rewrite Hb; reflexivity|].
        split; [reflexivity|]. split; [exact Hsnap'|].
        rewrite Ht, Ht0', Hp, Hp0. repeat split; reflexivity.
      * intros _ Hge Hws.
        destruct (Z.leb_spec BROADCAST_THROTTLE (now - last)); [|lia].
        unfold performBroadcast, performBroadcast_with.
        rewrite Hw, Hws.
        rewrite Hb, Ht, Ht0', Hp, Hp0. repeat split; reflexivity.
      * intros _ Hlt.
        destruct (Z.leb_spec BROADCAST_THROTTLE (now - last)); [lia|].
        simpl. rewrite Hb, Ht, Ht0'. repeat split.
        simpl. f_equal. lia.
    + split; [|repeat split; discriminate].
      intros _. rewrite Hb, Hl, Ht, Hp. repeat split; assumption.
  - intros quiet due now Hq Hdue Hle Hws Hne st'.
    destruct (quiet_run ALLOWED_SYMBOLS venueRank quiet st Hq) as (Hc & Hv & Hw).
    unfold st'. rewrite run_app.
    set (st1 := run ALLOWED_SYMBOLS venueRank st quiet) in *.
    unfold throttleView in Hv. injection Hv as Hl Hp Ht Hb.
    simpl. rewrite Ht, Hdue. simpl.
    destruct (Z.leb_spec due now); [|lia].
    unfold trailingBroadcast, performBroadcast, performBroadcast_with.
    simpl.
    assert (Hsnap : getPriceCache ALLOWED_SYMBOLS
                      (set_pending st1 (broadcastPending st1) [])
                    = getPriceCache ALLOWED_SYMBOLS st).
    { apply getPriceCache_ext. exact Hc. }
    rewrite Hsnap, (Hw Hws).
    assert (Hne' : getPriceCache ALLOWED_SYMBOLS st <> []).
    { destruct (PRICE_CACHE st) as [|[k p] c] eqn:Hcache; [congruence|].
      apply (getPriceCache_nonempty ALLOWED_SYMBOLS st k p).
      - apply allowed_In, (cache_within_allow_list_run evs). fold st.
        rewrite Hcache. left. reflexivity.
      - rewrite Hcache. simpl. rewrite String.eqb_refl. reflexivity. }
    destruct (getPriceCache ALLOWED_SYMBOLS st) as [|x snapshot] eqn:Hs;
      [congruence|].
    simpl. eexists. split; [rewrite Hb; reflexivity|].
    split; [reflexivity|]. split; [exact Hsnapst|].
    repeat split; reflexivity.
Qed.

End ThrottleSignals.

(** A run of [C7_broadcast_throttle]: the first update of [burstTrace] is
    broadcast at once and the second one schedules the trailing broadcast
    for 6000; an update handled at 6001 while it is pending is not
    broadcast; when the timer fires, the broadcast carries the cache. *)
Lemma C7_broadcast_throttle_witness :
  let st := run btcOnly fieldOrder initialState burstTrace in
  map fst (broadcasts st) = [5000]
  /\ timers st = [6000]
  /\ broadcasts (handleUpdate btcOnly fieldOrder Vest vestQuote 6001 st)
     = broadcasts st
  /\ exists payload,
       broadcasts (run btcOnly fieldOrder st ([] ++ [EvTimer 0 6000]))
       = (6000, payload) :: broadcasts st
       /\ forall k, cache_get payload k = cache_get (PRICE_CACHE st) k.
Proof.
  destruct (C7_broadcast_throttle btcOnly fieldOrder 0 burstTrace)
    as (_ & _ & _ & _ & Hsignal & Hfire).
  - lia.
  - reflexivity.
  - split; [reflexivity|]. split; [reflexivity|]. split.
    + destruct (Hsignal Vest vestQuote 6001) as (_ & Hpending & _);
        [reflexivity|].
      exact (proj1 (Hpending eq_refl)).
    + destruct (Hfire [] 6000 6000) as (payload & Hb & _ & Hk & _).
      * reflexivity.
      * reflexivity.
      * lia.
      * reflexivity.
      * vm_compute. discriminate.
      * exists payload. split; [exact Hb | exact Hk].
Defined.

(** ** Scenarios of the specification, run on the model *)

(** Vest quotes 100 / 100.2 and Paradex 102 / 102.5, both fresh: the best
    bid is Paradex's 102, the best ask Vest's 100.2, the spread passes the
    threshold, and one alert row is persisted that buys at Vest for 100.2
    and sells at Paradex for 102. *)
Example scenario_cross_venue_alert :
  let st := run btcOnly fieldOrder initialState
              [EvStart; EvUpdate Vest vestQuote 5000;
               EvUpdate Paradex paradexQuote 5001; EvAlertDb 0 DbOk] in
  option_map (fun p => (bestBid p, bestBidEx p, bestAsk p, bestAskEx p))
    (cache_get (PRICE_CACHE st) "BTC")
  = Some (Val 102, Some "PARADEX", Val (1002 # 10), Some "VEST")
  /\ option_map (fun p => Num_ge (realSpread p) ALERT_THRESHOLD)
       (cache_get (PRICE_CACHE st) "BTC") = Some true
  /\ map (fun r => (exchange_buy r, price_buy r, exchange_sell r, price_sell r))
       (alerts (alertStore st))
     = [(Some "VEST", Val (1002 # 10), Some "PARADEX", Val 102)].
Proof. repeat split; vm_compute; reflexivity. Qed.

(** Vest quotes 100 / 101 and Lighter 99 / 100.5: the best bid is Vest's
    100, the best ask Lighter's 100.5, the spread is negative and no alert
    write is issued. *)
Example scenario_negative_spread :
  let st := run btcOnly fieldOrder initialState
              [EvStart;
               EvUpdate Vest
                 {| tp_symbol := "BTC"; tp_bid := 100; tp_ask := 101;
                    tp_timestamp := 5000; tp_source := "rest" |} 5000;
               EvUpdate Lighter
                 {| tp_symbol := "BTC"; tp_bid := 99; tp_ask := 1005 # 10;
                    tp_timestamp := 5001; tp_source := "ws" |} 5001] in
  option_map (fun p => (bestBid p, bestBidEx p, bestAsk p, bestAskEx p))
    (cache_get (PRICE_CACHE st) "BTC")
  = Some (Val 100, Some "VEST", Val (1005 # 10), Some "LIGHTER")
  /\ option_map (fun p => Num_ge (realSpread p) ALERT_THRESHOLD)
       (cache_get (PRICE_CACHE st) "BTC") = Some false
  /\ inflight (alertStore st) = []
  /\ alerts (alertStore st) = [].
Proof. repeat split; vm_compute; reflexivity. Qed.

(** Vest stops quoting after 5000 while Paradex quotes again at 40000: the
    recomputation at 40000 leaves Vest out, its quote being 35 s old, but the
    quote stays in the cache. *)
Example scenario_stale_venue :
  let st := run btcOnly fieldOrder initialState
              [EvStart; EvUpdate Vest vestQuote 5000;
               EvUpdate Paradex
                 {| tp_symbol := "BTC"; tp_bid := 102; tp_ask := 1025 # 10;
                    tp_timestamp := 40000; tp_source := "ws" |} 40000] in
  option_map (fun p => (bestBidEx p, bestAskEx p, bestAsk p))
    (cache_get (PRICE_CACHE st) "BTC")
  = Some (Some "PARADEX", Some "PARADEX", Val (1025 # 10))
  /\ option_map (fun p => getEx p Vest) (cache_get (PRICE_CACHE st) "BTC")
     = Some (quoteOf vestQuote).
Proof. repeat split; vm_compute; reflexivity. Qed.

(** A Lighter symbol with a double dash is cut at it, and a record whose
    price is not positive is left out while its neighbour is returned. *)
Example scenario_lighter_batch :
  fst (LighterService.fetchMarkets acceptAll numberOrZero
         (lighterBody
            [JObj [("market_type", JStr "perp"); ("status", JStr "active");
                   ("symbol", JStr "ETH--USD"); ("best_bid", JNum 3000);
                   ("best_ask", JNum 3001)];
             JObj [("market_type", JStr "perp"); ("status", JStr "active");
                   ("symbol", JStr "SOL"); ("best_bid", JNum 0);
                   ("last_trade_price", JStr "n/a")];
             lighterBtc]))
  = Normal [{| md_symbol := JStr "ETH"; md_bid := 3000; md_ask := 3001 |};
            {| md_symbol := JStr "BTC"; md_bid := 100; md_ask := 101 |}].
Proof. vm_compute. reflexivity. Qed.

(** The status of an Extended response is compared in lower case, and a
    market off the allow-list is left out. *)
Example scenario_extended_batch :
  ExtendedService.fetchMarkets btcOnly numberOrNaN
    (AxiosResponse
       (JObj [("status", JStr "Ok");
              ("data",
               JArr [JObj [("name", JStr "ETH-USD"); ("active", JBool true);
                           ("status", JStr "ACTIVE");
                           ("marketStats",
                            JObj [("bidPrice", JNum 3000);
                                  ("askPrice", JNum 3001)])];
                     extendedBtc])]))
  = (Normal [{| md_symbol := JStr "BTC"; md_bid := 100; md_ask := 101 |}], []).
Proof. vm_compute. reflexivity. Qed.

(** * Further properties of the modelled code *)

(** ** The cache after [startScheduler], and the snapshot *)

Lemma NoDup_cache_set (c : Cache) (k : string) (p : AggregatedPair) :
  List.NoDup (cache_keys c) -> List.NoDup (cache_keys (cache_set c k p)).
Proof.
  unfold cache_keys. induction c as [|[k' p'] c IH]; simpl; intros Hnd.
  - constructor; [intros [] | constructor].
  - destruct (String.eqb k k') eqn:E; simpl; [exact Hnd|].
    inversion Hnd as [|? ? Hnotin Hnd']; subst. constructor.
    + intros Hin. apply (cache_keys_set c k p k') in Hin as [Heq|Hin].
      * subst k'. rewrite String.eqb_refl in E. discriminate.
      * exact (Hnotin Hin).
    + exact (IH Hnd').
Qed.



Lemma NoDup_filtered (c : Cache) (syms : list string) (acc : Cache) :
  List.NoDup (cache_keys acc) ->
  List.NoDup (cache_keys
           (fold_left
              (fun filtered sym =>
                 match cache_get c sym with
                 | Some entry => cache_set filtered sym entry
                 | None => filtered
                 end)
              syms acc)).
Proof.
  revert acc. induction syms as [|s syms IH]; intros acc Hnd; simpl; [exact Hnd|].
  apply IH. destruct (cache_get c s); [apply NoDup_cache_set|]; exact Hnd.
Qed.

Section CacheApi.

Variable ALLOWED_SYMBOLS : list string.
Variable venueRank : ExchangeName -> nat.


(** X2.  The snapshot of [getPriceCache] never lists a symbol twice and
    never holds a symbol off the allow-list; for an allow-listed symbol it
    holds the pair of the cache.  At every point after the start it answers
    every lookup as the cache itself does. *)
Theorem X2_snapshot_mirrors_cache (st0 : State) (evs : list Event) :
  (List.NoDup (cache_keys (getPriceCache ALLOWED_SYMBOLS st0))
   /\ forall k,
        cache_get (getPriceCache ALLOWED_SYMBOLS st0) k
        = if allowed ALLOWED_SYMBOLS k
          then cache_get (PRICE_CACHE st0) k else None)
  /\ let st := run ALLOWED_SYMBOLS venueRank st0 (EvStart :: evs) in
     forall k,
       cache_get (getPriceCache ALLOWED_SYMBOLS st) k
       = cache_get (PRICE_CACHE st) k.
Proof.
  split.
  - split.
    + unfold getPriceCache. apply NoDup_filtered. constructor.
    + intros k. apply cache_get_getPriceCache.
  - intros st k. rewrite cache_get_getPriceCache.
    destruct (allowed ALLOWED_SYMBOLS k) eqn:Hal; [reflexivity|].
    destruct (cache_get (PRICE_CACHE st) k) as [p|] eqn:Hget; [|reflexivity].
    exfalso.
    assert (Hinv : symbolsAreAllowList ALLOWED_SYMBOLS st).
    { unfold st. simpl. apply symbolsAreAllowList_run.
      intros s. apply cache_keys_startScheduler. }
    apply cache_get_Some_key, (Hinv k), allowed_In in Hget. congruence.
Qed.

End CacheApi.

(** ** The [saveSpread] throttle *)

Lemma skipn_length_app {A : Type} (l new : list A) :
  skipn (length l) (l ++ new) = new.
Proof. induction l as [|x l IH]; simpl; [reflexivity | exact IH]. Qed.

Lemma NoDup_snoc {A : Type} (l : list A) (x : A) :
  List.NoDup l -> ~ In x l -> List.NoDup (l ++ [x]).
Proof.
  induction l as [|y l IH]; simpl; intros Hnd Hnotin.
  - constructor; [intros [] | constructor].
  - inversion Hnd as [|? ? Hy Hnd']; subst. constructor.
    + intros Hin. apply in_app_or in Hin as [Hin|[->|[]]]; [exact (Hy Hin)|].
      apply Hnotin. left. reflexivity.
    + apply IH; [exact Hnd'|]. intros Hin. apply Hnotin. right. exact Hin.
Qed.

Lemma metricsAdvance_refl (now : Z) (st st' : State) :
  savedSpreads st' = savedSpreads st ->
  lastDbSave st' = lastDbSave st ->
  metricsAdvance now st st' [].
Proof.
  intros Hs Hl. unfold metricsAdvance. rewrite Hs, Hl, app_nil_r.
  split; [reflexivity|]. split; [constructor|].
  intros s. right. split; [intros [] | reflexivity].
Qed.

Lemma metricsAdvance_view (now : Z) (st a b : State) (new : list SpreadMetric) :
  savedSpreads b = savedSpreads a ->
  lastDbSave b = lastDbSave a ->
  metricsAdvance now st a new -> metricsAdvance now st b new.
Proof. unfold metricsAdvance. intros -> ->. tauto. Qed.

Lemma metricsAdvance_from (now : Z) (st0 st st' : State) (new : list SpreadMetric) :
  savedSpreads st = savedSpreads st0 ->
  lastDbSave st = lastDbSave st0 ->
  metricsAdvance now st st' new -> metricsAdvance now st0 st' new.
Proof. unfold metricsAdvance. intros -> ->. tauto. Qed.

(** One pair of the [forEach] keeps the relation. *)
Lemma metricsAdvance_checkPair (now : Z) (st0 st : State)
    (new : list SpreadMetric) (p : AggregatedPair) :
  metricsAdvance now st0 st new ->
  exists new', metricsAdvance now st0 (checkPair now st p) new'.
Proof.
  intros (Hsaved & Hnd & Hmap).
  assert (Hkeep : forall st',
             savedSpreads st' = savedSpreads st ->
             lastDbSave st' = lastDbSave st ->
             exists new', metricsAdvance now st0 st' new').
  { intros st' Hs Hl. exists new. unfold metricsAdvance.
    rewrite Hs, Hl. repeat split; assumption. }
  unfold checkPair.
  destruct (Num_gt0 (bestBid p) && Num_gt0 (bestAsk p)); [|apply Hkeep; reflexivity].
  destruct (Z.leb_spec DB_SAVE_THROTTLE
              (now - default 0 (lastDbSave st !! symbol p))) as [Hdue|Hnot].
  2: { destruct (Num_ge (realSpread p) ALERT_THRESHOLD); apply Hkeep; reflexivity. }
  set (m := {| m_symbol := symbol p; m_spread := realSpread p;
               m_bestBid := bestBid p; m_bestAsk := bestAsk p;
               m_bestBidEx := bestBidEx p; m_bestAskEx := bestAskEx p |}).
  exists (new ++ [m]).
  assert (Hfresh : ~ In (symbol p) (map m_symbol new)
                   /\ lastDbSave st !! symbol p = lastDbSave st0 !! symbol p).
  { destruct (Hmap (symbol p)) as [(_ & Hnow & _)|H]; [|exact H].
    rewrite Hnow in Hdue. simpl in Hdue. unfold DB_SAVE_THROTTLE in Hdue. lia. }
  destruct Hfresh as [Hnotin Hsame].
  assert (Hgoal : forall st',
             savedSpreads st' = savedSpreads st ++ [m] ->
             lastDbSave st' = <[symbol p := now]> (lastDbSave st) ->
             metricsAdvance now st0 st' (new ++ [m])).
  { intros st' Hs Hl. unfold metricsAdvance. rewrite Hs, Hl, Hsaved.
    split; [rewrite app_assoc; reflexivity|]. split.
    - rewrite map_app. simpl. apply NoDup_snoc; assumption.
    - intros s. rewrite map_app, in_app_iff. simpl.
      destruct (String.eqb_spec (symbol p) s) as [<-|Hne].
      + left. split; [right; left; reflexivity|].
        rewrite lookup_insert_eq. split; [reflexivity|].
        rewrite <- Hsame. exact Hdue.
      + rewrite lookup_insert_ne by exact Hne.
        destruct (Hmap s) as [(Hin & Hl' & Hd)|(Hnin & Hl')].
        * left. split; [left; exact Hin|]. split; assumption.
        * right. split; [|exact Hl'].
          intros [Hin|[Heq|[]]]; [exact (Hnin Hin) | exact (Hne Heq)]. }
  destruct (Num_ge (realSpread p) ALERT_THRESHOLD); apply Hgoal; reflexivity.
Qed.

Lemma metricsAdvance_checkPairs (now : Z) (ps : list AggregatedPair)
    (st0 st : State) (new : list SpreadMetric) :
  metricsAdvance now st0 st new ->
  exists new', metricsAdvance now st0 (fold_left (checkPair now) ps st) new'.
Proof.
  revert st new. induction ps as [|p ps IH]; intros st new H; simpl.
  - exists new. exact H.
  - destruct (metricsAdvance_checkPair now st0 st new p H) as [new' H'].
    exact (IH _ _ H').
Qed.

Section MetricThrottle.

Variable ALLOWED_SYMBOLS : list string.
Variable venueRank : ExchangeName -> nat.

Lemma metrics_performBroadcast (now : Z) (st : State) :
  savedSpreads (performBroadcast ALLOWED_SYMBOLS now st) = savedSpreads st
  /\ lastDbSave (performBroadcast ALLOWED_SYMBOLS now st) = lastDbSave st.
Proof.
  unfold performBroadcast, performBroadcast_with.
  destruct (wsBroadcaster st); [|split; reflexivity].
  destruct (0 <? length _)%nat; split; reflexivity.
Qed.

Lemma metrics_throttledBroadcast (now : Z) (st : State) :
  savedSpreads (throttledBroadcast ALLOWED_SYMBOLS now st) = savedSpreads st
  /\ lastDbSave (throttledBroadcast ALLOWED_SYMBOLS now st) = lastDbSave st.
Proof.
  unfold throttledBroadcast.
  destruct (broadcastPending st); [split; reflexivity|].
  destruct (BROADCAST_THROTTLE <=? _); [apply metrics_performBroadcast|].
  split; reflexivity.
Qed.

Lemma metricsAdvance_updateAndRecalculate (now : Z) (st : State) :
  exists new,
    metricsAdvance now st
      (updateAndRecalculate ALLOWED_SYMBOLS venueRank now st) new.
Proof.
  unfold updateAndRecalculate.
  match goal with
  | |- context [fold_left (checkPair now) ?ps ?s] =>
      destruct (metricsAdvance_checkPairs now ps s s [])
        as [new Hnew]; [apply metricsAdvance_refl; reflexivity|];
      destruct (metrics_throttledBroadcast now (fold_left (checkPair now) ps s))
        as [Hs Hl]
  end.
  exists new. eapply metricsAdvance_view; [exact Hs | exact Hl|].
  eapply metricsAdvance_from; [| |exact Hnew]; reflexivity.
Qed.

Lemma metricsAdvance_handleUpdate (e : ExchangeName) (data : TimestampedPrice)
    (now : Z) (st : State) :
  exists new,
    metricsAdvance now st
      (handleUpdate ALLOWED_SYMBOLS venueRank e data now st) new.
Proof.
  unfold handleUpdate, ensurePair.
  destruct (negb (allowed ALLOWED_SYMBOLS (tp_symbol data)));
    [exists []; apply metricsAdvance_refl; reflexivity|].
  destruct (cache_get (PRICE_CACHE st) (tp_symbol data)) as [existing|];
    match goal with
    | |- context [updateAndRecalculate _ _ now ?s] =>
        destruct (metricsAdvance_updateAndRecalculate now s) as [new Hnew]
    end;
    exists new; (eapply metricsAdvance_from; [| |exact Hnew]); reflexivity.
Qed.

(** Turns other than updates make no [saveSpread] call. *)
Lemma metrics_step_other (st : State) (ev : Event) :
  (forall e data now, ev <> EvUpdate e data now) ->
  savedSpreads (step ALLOWED_SYMBOLS venueRank st ev) = savedSpreads st
  /\ lastDbSave (step ALLOWED_SYMBOLS venueRank st ev) = lastDbSave st.
Proof.
  intros Hnot. destruct ev as [| |e data now|i now|i out]; simpl.
  - split; reflexivity.
  - split; reflexivity.
  - exfalso. exact (Hnot e data now eq_refl).
  - destruct (nth_error (timers st) i) as [due|]; [|split; reflexivity].
    destruct (due <=? now); [|split; reflexivity].
    destruct (metrics_performBroadcast now
                (set_pending st (broadcastPending st) (remove_nth i (timers st))))
      as [H1 H2].
    unfold trailingBroadcast. simpl in *. split; assumption.
  - unfold alertWriteDone.
    destruct (saveAlert_callback i out (alertStore st)) as [a [[id|err]|]];
      split; reflexivity.
Qed.

Lemma spacedPerKey_app (gap : Z) (l1 l2 : list (Z * string)) :
  spacedPerKey gap l1 ->
  spacedPerKey gap l2 ->
  (forall a b, In a l1 -> In b l2 -> snd b = snd a -> fst a + gap <= fst b) ->
  spacedPerKey gap (l1 ++ l2).
Proof.
  induction l1 as [|x l1 IH]; simpl; intros H1 H2 Hcross; [exact H2|].
  destruct H1 as [Hx H1]. split.
  - intros b Hb Heq. apply in_app_or in Hb as [Hb|Hb].
    + exact (Hx b Hb Heq).
    + apply (Hcross x b); [left; reflexivity | exact Hb | exact Heq].
  - apply IH; [exact H1 | exact H2|].
    intros a b Ha Hb. apply Hcross; [right; exact Ha | exact Hb].
Qed.

Lemma metricLog_spaced (evs : list Event) (t0 : Z) (st : State) :
  (forall s tl, lastDbSave st !! s = Some tl -> tl <= t0) ->
  monotone t0 evs = true ->
  spacedPerKey DB_SAVE_THROTTLE (metricLog ALLOWED_SYMBOLS venueRank st evs)
  /\ forall b tl,
       In b (metricLog ALLOWED_SYMBOLS venueRank st evs) ->
       lastDbSave st !! snd b = Some tl ->
       tl + DB_SAVE_THROTTLE <= fst b.
Proof.
  revert t0 st. induction evs as [|ev evs IH]; intros t0 st Hold Hmono.
  - simpl. split; [exact I | intros b tl []].
  - assert (Hquiet : (forall e data now, ev <> EvUpdate e data now) ->
                     exists t1, t0 <= t1 /\ monotone t1 evs = true
                     /\ metricLog ALLOWED_SYMBOLS venueRank st (ev :: evs)
                        = metricLog ALLOWED_SYMBOLS venueRank
                            (step ALLOWED_SYMBOLS venueRank st ev) evs
                     /\ lastDbSave (step ALLOWED_SYMBOLS venueRank st ev)
                        = lastDbSave st).
    { intros Hnot. destruct (metrics_step_other st ev Hnot) as [Hs Hl].
      assert (Hlog : metricLog ALLOWED_SYMBOLS venueRank st (ev :: evs)
                     = metricLog ALLOWED_SYMBOLS venueRank
                         (step ALLOWED_SYMBOLS venueRank st ev) evs).
      { simpl. rewrite Hs.
        rewrite <- (app_nil_r (savedSpreads st)) at 2.
        rewrite skipn_length_app. reflexivity. }
      simpl in Hmono. destruct (eventTime ev) as [t|].
      - apply andb_true_iff in Hmono as [Hle Hmono]. apply Z.leb_le in Hle.
        exists t. repeat split; assumption.
      - exists t0. repeat split; try assumption. lia. }
    destruct ev as [| |e data now|i now|i out];
      try (specialize (Hquiet ltac:(intros; discriminate));
           destruct Hquiet as (t1 & Hle & Hmono1 & -> & Hl);
           rewrite <- Hl; apply (IH t1); [|exact Hmono1];
           intros s tl Hs; rewrite Hl in Hs; specialize (Hold s tl Hs); lia).
    clear Hquiet. simpl in Hmono.
    apply andb_true_iff in Hmono as [Hle Hmono]. apply Z.leb_le in Hle.
    simpl.
    set (st' := handleUpdate ALLOWED_SYMBOLS venueRank e data now st).
    destruct (metricsAdvance_handleUpdate e data now st)
      as (new & Hsaved & Hnd & Hmap).
    fold st' in Hsaved, Hmap.
    rewrite Hsaved, skipn_length_app.
    assert (Hold' : forall s tl, lastDbSave st' !! s = Some tl -> tl <= now).
    { intros s tl Hs. destruct (Hmap s) as [(_ & Hnow & _)|(_ & Hsame)].
      - rewrite Hnow in Hs. injection Hs as <-. lia.
      - rewrite Hsame in Hs. specialize (Hold s tl Hs). lia. }
    destruct (IH now st' Hold' Hmono) as [IHsp IHfirst].
    split.
    + apply spacedPerKey_app.
      * (* the calls of this turn are for distinct symbols *)
        clear - Hnd. induction new as [|m new IHn]; simpl; [exact I|].
        inversion Hnd as [|? ? Hnotin Hnd']; subst. split; [|exact (IHn Hnd')].
        intros b Hb Heq. exfalso. apply Hnotin.
        apply in_map_iff in Hb as (m' & <- & Hin). simpl in Heq.
        rewrite <- Heq. apply in_map. exact Hin.
      * exact IHsp.
      * intros a b Ha Hb Heq.
        apply in_map_iff in Ha as (m & <- & Hin). simpl in *.
        destruct (Hmap (m_symbol m)) as [(_ & Hnow & _)|(Hnin & _)].
        -- apply (IHfirst b now Hb). rewrite Heq. exact Hnow.
        -- exfalso. apply Hnin. apply in_map. exact Hin.
    + intros b tl Hb Hs. apply in_app_or in Hb as [Hb|Hb].
      * apply in_map_iff in Hb as (m & <- & Hin). simpl in *.
        destruct (Hmap (m_symbol m)) as [(_ & _ & Hd)|(Hnin & _)].
        -- rewrite Hs in Hd. simpl in Hd. lia.
        -- exfalso. apply Hnin. apply in_map. exact Hin.
      * destruct (Hmap (snd b)) as [(_ & Hnow & _)|(_ & Hsame)].
        -- specialize (IHfirst b now Hb Hnow). specialize (Hold _ _ Hs). lia.
        -- apply (IHfirst b tl Hb). rewrite Hsame. exact Hs.
Qed.

(** X3.  Along every trace from the initial state whose clock never goes
    back, two [saveSpread] calls for the same symbol are at least
    [DB_SAVE_THROTTLE] (5 s) apart, whatever the rate of the updates; one
    update makes at most one call per symbol. *)
Theorem X3_metric_saves_are_throttled (t0 : Z) (evs : list Event) :
  monotone t0 evs = true ->
  spacedPerKey DB_SAVE_THROTTLE
    (metricLog ALLOWED_SYMBOLS venueRank initialState evs).
Proof.
  intros Hmono.
  apply (metricLog_spaced evs t0 initialState); [|exact Hmono].
  intros s tl Hs. simpl in Hs. rewrite lookup_empty in Hs. discriminate Hs.
Qed.

End MetricThrottle.

(** A run of [X3_metric_saves_are_throttled]: of three Vest updates at
    5000, 6000 and 10000 the first and the third save a metric. *)
Lemma X3_metric_saves_are_throttled_witness :
  metricLog btcOnly fieldOrder initialState threeUpdates
  = [(5000, "BTC"); (10000, "BTC")]
  /\ spacedPerKey DB_SAVE_THROTTLE
       (metricLog btcOnly fieldOrder initialState threeUpdates).
Proof.
  split; [vm_compute; reflexivity|].
  apply (X3_metric_saves_are_throttled btcOnly fieldOrder 0 threeUpdates).
  reflexivity.
Defined.

(** ** What is handed to the broadcaster *)

Section BroadcastPayloads.

Variable ALLOWED_SYMBOLS : list string.
Variable venueRank : ExchangeName -> nat.

Lemma broadcasts_performBroadcast (now : Z) (st : State) :
  wsBroadcaster (performBroadcast ALLOWED_SYMBOLS now st) = wsBroadcaster st
  /\ (broadcasts (performBroadcast ALLOWED_SYMBOLS now st) = broadcasts st
      \/ (wsBroadcaster st = true
          /\ exists payload,
               isSnapshot ALLOWED_SYMBOLS payload
               /\ broadcasts (performBroadcast ALLOWED_SYMBOLS now st)
                  = (now, payload) :: broadcasts st)).
Proof.
  unfold performBroadcast, performBroadcast_with.
  destruct (wsBroadcaster st) eqn:Hws; [|split; [exact Hws | left; reflexivity]].
  destruct (getPriceCache ALLOWED_SYMBOLS st) as [|x snapshot] eqn:Hsnap; simpl.
  - split; [exact Hws | left; reflexivity].
  - split; [reflexivity|]. right. split; [reflexivity|].
    exists (x :: snapshot). split; [|reflexivity].
    split; [discriminate|]. exists st. symmetry. exact Hsnap.
Qed.

Lemma broadcasts_step (st : State) (ev : Event) :
  let st' := step ALLOWED_SYMBOLS venueRank st ev in
  (wsBroadcaster st' = wsBroadcaster st \/ ev = EvSetBroadcaster)
  /\ (broadcasts st' = broadcasts st
      \/ (wsBroadcaster st = true
          /\ exists now payload,
               isSnapshot ALLOWED_SYMBOLS payload
               /\ broadcasts st' = (now, payload) :: broadcasts st)).
Proof.
  destruct ev as [| |e data now|i now|i out]; simpl.
  - split; left; reflexivity.
  - split; [right; reflexivity | left; reflexivity].
  - destruct (allowed ALLOWED_SYMBOLS (tp_symbol data)) eqn:Hal.
    2: { rewrite handleUpdate_rejected by exact Hal. split; left; reflexivity. }
    destruct (handleUpdate_signals ALLOWED_SYMBOLS venueRank e data now st Hal)
      as (st2 & -> & Hv & Hw).
    unfold throttleView in Hv. injection Hv as _ _ _ Hb.
    unfold throttledBroadcast.
    destruct (broadcastPending st2); [split; left; assumption|].
    destruct (BROADCAST_THROTTLE <=? _); [|split; left; assumption].
    destruct (broadcasts_performBroadcast now st2) as [Hw' [Hsame|(Hon & payload & Hp & Hcons)]].
    + split; left; congruence.
    + split; [left; congruence|]. right. split; [congruence|].
      exists now, payload. split; [exact Hp | congruence].
  - destruct (nth_error (timers st) i) as [due|]; [|split; left; reflexivity].
    destruct (due <=? now); [|split; left; reflexivity].
    unfold trailingBroadcast. simpl.
    destruct (broadcasts_performBroadcast now
                (set_pending st (broadcastPending st) (remove_nth i (timers st))))
      as [Hw' [Hsame|(Hon & payload & Hp & Hcons)]]; simpl in *.
    + split; left; assumption.
    + split; [left; assumption|]. right. split; [exact Hon|].
      exists now, payload. split; assumption.
  - unfold alertWriteDone.
    destruct (saveAlert_callback i out (alertStore st)) as [a [[id|err]|]];
      split; left; reflexivity.
Qed.

(** X4.  Along every trace from the initial state, every payload handed to
    the broadcaster is a non-empty snapshot: it lists no symbol twice and
    only allow-listed symbols; and as long as no broadcaster has been
    registered nothing is broadcast at all. *)
Theorem X4_broadcast_payloads (evs : list Event) :
  let st := run ALLOWED_SYMBOLS venueRank initialState evs in
  (forall b, In b (broadcasts st) ->
     snd b <> []
     /\ List.NoDup (cache_keys (snd b))
     /\ forall k, In k (cache_keys (snd b)) -> In k ALLOWED_SYMBOLS)
  /\ (~ In EvSetBroadcaster evs -> broadcasts st = []).
Proof.
  intros st.
  assert (Hinv : (forall b, In b (broadcasts st) -> isSnapshot ALLOWED_SYMBOLS (snd b))
                 /\ (wsBroadcaster st = false -> broadcasts st = [])
                 /\ (~ In EvSetBroadcaster evs -> wsBroadcaster st = false)).
  { unfold st. clear st. induction evs as [|ev evs IH] using rev_ind.
    - simpl. split; [intros b []|]. split; reflexivity.
    - rewrite run_app. simpl.
      set (prev := run ALLOWED_SYMBOLS venueRank initialState evs) in *.
      destruct IH as (Hsnap & Hoff & Hnever).
      destruct (broadcasts_step prev ev) as [Hw Hb]. cbv zeta in Hw, Hb.
      split; [|split].
      + destruct Hb as [->|(_ & now & payload & Hp & ->)]; [exact Hsnap|].
        intros b [<-|Hin]; [exact Hp | exact (Hsnap b Hin)].
      + intros Hfalse.
        destruct Hw as [Hw| ->]; [|discriminate Hfalse].
        rewrite Hw in Hfalse.
        destruct Hb as [->|(Hon & _)]; [exact (Hoff Hfalse) | congruence].
      + intros Hnot.
        destruct Hw as [Hw| ->].
        * rewrite Hw. apply Hnever. intros Hin. apply Hnot.
          apply in_or_app. left. exact Hin.
        * exfalso. apply Hnot. apply in_or_app. right. left. reflexivity. }
  destruct Hinv as (Hsnap & Hoff & Hnever).
  split.
  - intros b Hin. destruct (Hsnap b Hin) as (Hne & stx & Heq).
    split; [exact Hne|]. rewrite Heq. split.
    + unfold getPriceCache. apply NoDup_filtered. constructor.
    + intros k Hk. apply cache_get_In_key in Hk as [p Hp].
      rewrite cache_get_getPriceCache in Hp.
      destruct (allowed ALLOWED_SYMBOLS k) eqn:Hal; [|discriminate Hp].
      apply allowed_In. exact Hal.
  - intros Hnot. apply Hoff, Hnever, Hnot.
Qed.

End BroadcastPayloads.

(** A run of [X4_broadcast_payloads]: the update of [broadcastOnce] is
    broadcast, and without a registered broadcaster it is not. *)
Lemma X4_broadcast_payloads_witness :
  (snd (lastBroadcast (run btcOnly fieldOrder initialState broadcastOnce)) <> []
   /\ cache_keys
        (snd (lastBroadcast (run btcOnly fieldOrder initialState broadcastOnce)))
      = ["BTC"])
  /\ broadcasts
       (run btcOnly fieldOrder initialState
          [EvStart; EvUpdate Vest vestQuote 5000]) = [].
Proof.
  split; [split|].
  - apply (proj1 (X4_broadcast_payloads btcOnly fieldOrder broadcastOnce)
             (lastBroadcast (run btcOnly fieldOrder initialState broadcastOnce))).
    vm_compute. left. reflexivity.
  - vm_compute. reflexivity.
  - apply (proj2 (X4_broadcast_payloads btcOnly fieldOrder
                    [EvStart; EvUpdate Vest vestQuote 5000])).
    simpl. intros [H|[H|[]]]; discriminate H.
Defined.

(** ** The dedup cache when writes call back before the next call *)

Lemma NoDup_map_remove_nth {A B : Type} (f : A -> B) (i : nat) (l : list A) :
  List.NoDup (map f l) -> List.NoDup (map f (remove_nth i l)).
Proof.
  revert i. induction l as [|x l IH]; intros i Hnd; simpl; [destruct i; exact Hnd|].
  inversion Hnd as [|? ? Hnotin Hnd']; subst.
  destruct i as [|j]; simpl; [exact Hnd'|].
  constructor; [|exact (IH j Hnd')].
  intros Hin. apply Hnotin. apply in_map_iff in Hin as (y & Hy & Hin).
  apply in_map_iff. exists y. split; [exact Hy|].
  eapply In_remove_nth. exact Hin.
Qed.

Lemma remove_nth_other_key {A B : Type} (f : A -> B) (i : nat) (l : list A)
    (x y : A) :
  List.NoDup (map f l) ->
  nth_error l i = Some x ->
  In y (remove_nth i l) ->
  f y <> f x.
Proof.
  revert i. induction l as [|z l IH]; intros i Hnd Hnth Hin; [destruct i; discriminate|].
  inversion Hnd as [|? ? Hnotin Hnd']; subst.
  destruct i as [|j]; simpl in *.
  - injection Hnth as ->. intros Heq. apply Hnotin. rewrite <- Heq.
    apply in_map. exact Hin.
  - destruct Hin as [->|Hin].
    + intros Heq. apply Hnotin. rewrite Heq. apply in_map.
      eapply nth_error_In. exact Hnth.
    + exact (IH j Hnd' Hnth Hin).
Qed.

Lemma dedupInv_later (t t' : Z) (s : AlertStore) :
  t <= t' -> dedupInv t s -> dedupInv t' s.
Proof.
  intros Hle (Ha & Hb & Hc & Hd & He).
  split; [exact Ha|]. split; [exact Hb|]. split; [|split; [|exact He]].
  - intros sym tl H. destruct (Hc sym tl H) as [Hr Hin]. split; [lia | exact Hin].
  - intros r H. destruct (Hd r H) as [Hr Hgap]. split; [lia | exact Hgap].
Qed.

Lemma dedupInv_call (t now : Z) (s : AlertStore) (p : AggregatedPair) :
  dedupInv t s ->
  0 < now -> t <= now ->
  (forall r, In r (inflight s) -> row_symbol r <> symbol p) ->
  dedupInv now (fst (saveAlert p now s)).
Proof.
  intros Hinv Hpos Hle Hfree.
  pose proof (dedupInv_later t now s Hle Hinv) as (Ha & Hb & Hc & Hd & He).
  unfold saveAlert.
  destruct (tooSoon (alertCache s !! symbol p) now) eqn:Hsoon;
    unfold dedupInv; simpl.
  - exact (conj Ha (conj Hb (conj Hc (conj Hd He)))).
  - split; [exact Ha|]. split; [exact Hb|]. split; [exact Hc|]. split.
    + intros r Hin. apply in_app_or in Hin as [Hin|[<-|[]]]; [exact (Hd r Hin)|].
      simpl. split; [lia|]. intros tl Htl.
      rewrite Htl in Hsoon. simpl in Hsoon.
      destruct (Hc _ _ Htl) as [[Hpos' _] _].
      destruct (tl =? 0) eqn:E; [apply Z.eqb_eq in E; lia|]. simpl in Hsoon.
      apply Z.ltb_ge in Hsoon. unfold CACHE_TTL in *. lia.
    + rewrite map_app. simpl. apply NoDup_snoc; [exact He|].
      intros Hin. apply in_map_iff in Hin as (r & Hr & Hin).
      exact (Hfree r Hin Hr).
Qed.

Lemma dedupInv_done (t : Z) (s : AlertStore) (i : nat) (out : DbOutcome) :
  dedupInv t s -> dedupInv t (fst (saveAlert_callback i out s)).
Proof.
  intros (Ha & Hb & Hc & Hd & He). unfold saveAlert_callback.
  destruct (nth_error (inflight s) i) as [r|] eqn:Hnth; simpl;
    [|exact (conj Ha (conj Hb (conj Hc (conj Hd He))))].
  assert (Hr : In r (inflight s)) by (eapply nth_error_In; exact Hnth).
  destruct (Hd r Hr) as [Hrange Hgap].
  destruct out as [|err]; unfold dedupInv; simpl.
  - (* the row is in the table and the cache takes its time *)
    split; [|split; [|split; [|split]]].
    + intros a Hin. apply in_app_or in Hin as [Hin|[<-|[]]].
      * destruct (Ha a Hin) as (tl & Htl & Hle).
        destruct (String.eqb_spec (row_symbol r) (row_symbol a)) as [Heq|Hne].
        -- exists (row_timestamp r). rewrite <- Heq.
           split; [apply lookup_insert_eq|].
           rewrite <- Heq in Htl. specialize (Hgap tl Htl).
           unfold CACHE_TTL in Hgap. lia.
        -- exists tl. split; [|exact Hle].
           rewrite lookup_insert_ne by exact Hne. exact Htl.
      * exists (row_timestamp r). split; [apply lookup_insert_eq | lia].
    + unfold rowKeys. rewrite map_app. apply spacedPerKey_app.
      * exact Hb.
      * simpl. split; [intros b [] | exact I].
      * intros a b Hina [<-|[]] Heq. simpl in *.
        apply in_map_iff in Hina as (a0 & <- & Hin0). simpl in *.
        destruct (Ha a0 Hin0) as (tl & Htl & Hle).
        rewrite <- Heq in Htl. specialize (Hgap tl Htl). lia.
    + intros sym tl Htl.
      destruct (String.eqb_spec (row_symbol r) sym) as [<-|Hne].
      * rewrite lookup_insert_eq in Htl. injection Htl as <-.
        split; [exact Hrange|]. unfold rowKeys. rewrite map_app.
        apply in_or_app. right. left. reflexivity.
      * rewrite lookup_insert_ne in Htl by exact Hne.
        destruct (Hc sym tl Htl) as [Hr' Hin]. split; [exact Hr'|].
        unfold rowKeys in *. rewrite map_app. apply in_or_app. left. exact Hin.
    + intros r' Hin'.
      pose proof (remove_nth_other_key row_symbol i (inflight s) r r' He Hnth Hin')
        as Hne.
      rewrite lookup_insert_ne by congruence.
      apply Hd. eapply In_remove_nth. exact Hin'.
    + apply NoDup_map_remove_nth. exact He.
  - split; [exact Ha|]. split; [exact Hb|]. split; [exact Hc|]. split.
    + intros r' Hin'. apply Hd. eapply In_remove_nth. exact Hin'.
    + apply NoDup_map_remove_nth. exact He.
Qed.

Lemma dedupInv_run (evs : list AlertEvent) (t0 : Z) (s : AlertStore) :
  dedupInv t0 s ->
  oneWritePerSymbol t0 s evs ->
  exists t, dedupInv t (alertRun s evs).
Proof.
  revert t0 s. induction evs as [|ev evs IH]; intros t0 s Hinv Hok; simpl.
  - exists t0. exact Hinv.
  - destruct ev as [p now|i out]; simpl in Hok.
    + destruct Hok as (Hpos & Hle & Hfree & Hok).
      apply (IH now); [|exact Hok].
      simpl. apply (dedupInv_call t0); assumption.
    + apply (IH t0); [|exact Hok]. simpl. apply dedupInv_done. exact Hinv.
Qed.

(** X5.  When [saveAlert] is never called for a symbol while a write for
    that symbol is still pending, and the clock is positive and never goes
    back, two persisted alerts of the same symbol are at least [CACHE_TTL]
    (60 s) apart, whatever writes fail in between; and an entry of the dedup
    cache is always the time of a persisted alert of its symbol, the latest
    one. *)
Theorem X5_one_alert_per_cooldown (evs : list AlertEvent) :
  oneWritePerSymbol 0 emptyAlertStore evs ->
  let s := alertRun emptyAlertStore evs in
  spacedPerKey CACHE_TTL (rowKeys (alerts s))
  /\ (forall sym t,
        alertCache s !! sym = Some t ->
        In (t, sym) (rowKeys (alerts s))
        /\ forall r, In r (alerts s) -> row_symbol r = sym -> row_timestamp r <= t).
Proof.
  intros Hok s.
  assert (H0 : dedupInv 0 emptyAlertStore).
  { unfold dedupInv. simpl. split; [intros r []|]. split; [exact I|].
    split; [intros sym tl H; rewrite lookup_empty in H; discriminate H|].
    split; [intros r [] | constructor]. }
  destruct (dedupInv_run evs 0 emptyAlertStore H0 Hok) as (t & Ha & Hb & Hc & _).
  fold s in Ha, Hb, Hc. split; [exact Hb|].
  intros sym tl Htl. split; [exact (proj2 (Hc sym tl Htl))|].
  intros r Hin <-. destruct (Ha r Hin) as (tl' & Htl' & Hle). congruence.
Qed.

(** A run of [X5_one_alert_per_cooldown]: calls at 1000, 2000 and 61000,
    each write called back at once; the call at 2000 is deduplicated and
    the table holds the alerts of 1000 and 61000. *)
Lemma X5_one_alert_per_cooldown_witness :
  rowKeys (alerts (alertRun emptyAlertStore serialAlerts))
  = [(1000, "BTC"); (61000, "BTC")]
  /\ spacedPerKey CACHE_TTL (rowKeys (alerts (alertRun emptyAlertStore serialAlerts))).
Proof.
  split; [vm_compute; reflexivity|].
  apply (X5_one_alert_per_cooldown serialAlerts).
  simpl. repeat split; try lia; intros r Hin; vm_compute in Hin;
    repeat (destruct Hin as [Hin|Hin]; try discriminate); try contradiction.
Defined.

(** ** What the adapters return *)

Lemma forEach_In (body : JsVal -> Outcome (option MarketData))
    (items : list JsVal) (acc res : list MarketData) (err : option string) :
  forEach body items acc = (res, err) ->
  forall r, In r res ->
    In r acc \/ exists m, In m items /\ body m = Normal (Some r).
Proof.
  revert acc. induction items as [|m items IH]; intros acc Heq r Hin; simpl in Heq.
  - injection Heq as <- _. left. exact Hin.
  - destruct (body m) as [[x|]|e] eqn:Hm.
    + destruct (IH _ Heq r Hin) as [Hacc|(m' & Hm' & Hb)].
      * apply in_app_or in Hacc as [Hacc|[<-|[]]]; [left; exact Hacc|].
        right. exists m. split; [left; reflexivity | exact Hm].
      * right. exists m'. split; [right; exact Hm' | exact Hb].
    + destruct (IH _ Heq r Hin) as [Hacc|(m' & Hm' & Hb)]; [left; exact Hacc|].
      right. exists m'. split; [right; exact Hm' | exact Hb].
    + injection Heq as <- _. left. exact Hin.
Qed.

Lemma forEach_length (body : JsVal -> Outcome (option MarketData))
    (items : list JsVal) (acc : list MarketData) :
  (length (fst (forEach body items acc)) <= length acc + length items)%nat.
Proof.
  revert acc. induction items as [|m items IH]; intros acc; simpl; [lia|].
  destruct (body m) as [[x|]|e]; simpl.
  - specialize (IH (acc ++ [x])). rewrite length_app in IH. simpl in IH. lia.
  - specialize (IH acc). lia.
  - lia.
Qed.

Lemma positive_Some (n : JsNumber) (q : Q) :
  positive n = Some q -> n = Fin q /\ (0 < q)%Q.
Proof.
  destruct n as [|x]; simpl; [discriminate|].
  destruct (Qlt_bool 0 x) eqn:E; [|discriminate].
  intros [= <-]. split; [reflexivity | apply Qlt_bool_iff, E].
Qed.

(** Case analysis on the next step of a computation in [H]. *)
Ltac next_step H :=
  match type of H with
  | context [mbind _ ?c] => destruct c eqn:?; simpl in H; try discriminate H
  | context [if ?b then _ else _] =>
      destruct b eqn:?; simpl in H; try discriminate H
  | context [match ?x with _ => _ end] =>
      destruct x eqn:?; simpl in H; try discriminate H
  end.

Lemma isStr_eq (v : JsVal) (s : string) : isStr v s = true -> v = JStr s.
Proof.
  destruct v; simpl; try discriminate.
  intros H. apply String.eqb_eq in H. congruence.
Qed.

Section ExtendedResults.

Variable ALLOWED_SYMBOLS : list string.
Variable parseFloat : JsVal -> JsNumber.

Lemma allowedVal_In (v : JsVal) :
  ExtendedService.allowedVal ALLOWED_SYMBOLS v = true ->
  exists s, v = JStr s /\ In s ALLOWED_SYMBOLS.
Proof.
  unfold ExtendedService.allowedVal. intros H.
  apply existsb_exists in H as (s & Hin & Hs).
  destruct v; simpl in Hs; try discriminate.
  apply String.eqb_eq in Hs. subst. eexists. split; [reflexivity | exact Hin].
Qed.

Lemma extended_eachMarket_accepts (market : JsVal) (r : MarketData) :
  ExtendedService.eachMarket ALLOWED_SYMBOLS parseFloat market = Normal (Some r) ->
  (exists s, md_symbol r = JStr s /\ In s ALLOWED_SYMBOLS)
  /\ (0 < md_bid r)%Q /\ (0 < md_ask r)%Q
  /\ getProp market "active" = Normal (JBool true)
  /\ getProp market "status" = Normal (JStr "ACTIVE").
Proof.
  unfold ExtendedService.eachMarket. intros H.
  repeat next_step H.
  injection H as <-. simpl.
  apply negb_false_iff in Heqb1.
  apply orb_false_iff in Heqb2 as [Hact Hst].
  apply negb_false_iff in Hact, Hst.
  apply positive_Some in Heqo7 as [_ Hb], Heqo8 as [_ Ha].
  apply isStr_eq in Hst. subst.
  repeat split; try assumption.
  - apply allowedVal_In. exact Heqb1.
  - destruct a2 as [| |[|]| | | | |]; try discriminate. reflexivity.
Qed.

(** X6. Extended REST adapter: whatever [fetchMarkets] resolves to, also
    after an error part-way through the batch, every record in it carries
    an allow-listed symbol (a string), a bid above zero and an ask above
    zero, and there are no more records than markets in the response. *)
Theorem X6_extended_results_are_valid (response : AxiosResult)
    (res : list MarketData) (log : list LogEntry) :
  ExtendedService.fetchMarkets ALLOWED_SYMBOLS parseFloat response
    = (Normal res, log) ->
  (forall r, In r res ->
     (exists s, md_symbol r = JStr s /\ In s ALLOWED_SYMBOLS)
     /\ (0 < md_bid r)%Q /\ (0 < md_ask r)%Q)
  /\ (forall data markets,
        awaitGet response = Normal data ->
        getProp data "data" = Normal (JArr markets) ->
        (length res <= length markets)%nat).
Proof.
  unfold ExtendedService.fetchMarkets, ExtendedService.tryBlock.
  intros H.
  assert (Hres : res = [] \/ exists markets data,
            awaitGet response = Normal data
            /\ getProp data "data" = Normal (JArr markets)
            /\ res = fst (forEach (ExtendedService.eachMarket ALLOWED_SYMBOLS
                                     parseFloat) markets [])).
  { destruct (awaitGet response) as [data|e] eqn:Hget; simpl in H;
      [|injection H as <- _; left; reflexivity].
    destruct (negb (truthy data)); simpl in H;
      [injection H as <- _; left; reflexivity|].
    destruct (ExtendedService.statusNotOk data) as [[|]|e]; simpl in H;
      try (injection H as <- _; left; reflexivity).
    destruct (getProp data "data") as [v|e] eqn:Hd; simpl in H;
      [|injection H as <- _; left; reflexivity].
    destruct v; simpl in H; try (injection H as <- _; left; reflexivity).
    right. exists items, data.
    destruct (forEach _ items []) as [results [e|]]; simpl in H;
      injection H as <- _; auto. }
  split.
  - intros r Hin.
    destruct Hres as [->|(markets & data & _ & _ & ->)]; [destruct Hin|].
    destruct (forEach _ markets []) as [results err] eqn:Hf. simpl in Hin.
    destruct (forEach_In _ _ _ _ _ Hf r Hin) as [[]|(m & _ & Hm)].
    apply extended_eachMarket_accepts in Hm. tauto.
  - intros data markets Hget Hd.
    destruct Hres as [->|(markets' & data' & Hget' & Hd' & ->)]; [simpl; lia|].
    rewrite Hget in Hget'. injection Hget' as <-.
    rewrite Hd in Hd'. injection Hd' as <-.
    apply (forEach_length _ markets []).
Qed.

End ExtendedResults.

Lemma X6_extended_results_are_valid_witness :
  (exists s, JStr "BTC" = JStr s /\ In s btcOnly)
  /\ (0 < 100)%Q /\ (0 < 101)%Q.
Proof.
  exact (proj1 (X6_extended_results_are_valid btcOnly numberOrNaN
                  (extendedBody [extendedBtc]) _ _ eq_refl)
           {| md_symbol := JStr "BTC"; md_bid := 100; md_ask := 101 |}
           (or_introl eq_refl)).
Defined.

Section LighterResults.

Variable isCrypto : JsVal -> Outcome bool.
Variable parsePrice : JsVal -> Outcome JsNumber.

Lemma lighter_eachMarket_accepts (m : JsVal) (r : MarketData) :
  LighterService.eachMarket isCrypto parsePrice m = Normal (Some r) ->
  isCrypto (md_symbol r) = Normal true
  /\ (0 < md_bid r)%Q /\ (0 < md_ask r)%Q
  /\ getProp m "market_type" = Normal (JStr "perp")
  /\ getProp m "status" = Normal (JStr "active").
Proof.
  unfold LighterService.eachMarket. intros H.
  repeat next_step H.
  injection H as <-. simpl.
  apply negb_false_iff in Heqb, Heqb0, Heqb1. subst a4.
  apply isStr_eq in Heqb, Heqb0. subst.
  apply positive_Some in Heqo11 as [_ Hb], Heqo12 as [_ Ha].
  repeat split; assumption.
Qed.

(** X7. Lighter REST adapter: every record that [fetchMarkets] resolves to
    was accepted by [isCrypto] and has a bid and an ask above zero; when any
    step of the batch throws, nothing is returned at all. *)
Theorem X7_lighter_results_are_valid (response : AxiosResult)
    (res : list MarketData) (log : list LogEntry) :
  LighterService.fetchMarkets isCrypto parsePrice response = (Normal res, log) ->
  (forall r, In r res ->
     isCrypto (md_symbol r) = Normal true
     /\ (0 < md_bid r)%Q /\ (0 < md_ask r)%Q)
  /\ (forall e, LighterService.tryBlock isCrypto parsePrice response = Thrown e ->
        res = []).
Proof.
  unfold LighterService.fetchMarkets. intros H. split.
  - intros r Hin.
    destruct (LighterService.tryBlock isCrypto parsePrice response)
      as [results|e] eqn:Ht; simpl in H; injection H as <- _; [|destruct Hin].
    unfold LighterService.tryBlock in Ht.
    repeat next_step Ht.
    injection Ht as ->.
    match goal with
    | Hf : forEach _ _ [] = _ |- _ =>
        destruct (forEach_In _ _ _ _ _ Hf r Hin) as [[]|(m & _ & Hm)]
    end.
    apply lighter_eachMarket_accepts in Hm. tauto.
  - intros e He. rewrite He in H. injection H as <- _. reflexivity.
Qed.

End LighterResults.

Lemma X7_lighter_results_are_valid_witness :
  acceptAll (JStr "BTC") = Normal true /\ (0 < 100)%Q /\ (0 < 101)%Q.
Proof.
  exact (proj1 (X7_lighter_results_are_valid acceptAll numberOrZero
                  (lighterBody [lighterBtc]) _ _ eq_refl)
           {| md_symbol := JStr "BTC"; md_bid := 100; md_ask := 101 |}
           (or_introl eq_refl)).
Defined.

(** ** Reconnection schedules *)

Lemma vest_scheduleReconnect_spec (c : VestWebSocketService.Conn) :
  0 <= VestWebSocketService.reconnectAttempts c <= 20 ->
  let r := VestWebSocketService.scheduleReconnect c in
  0 <= VestWebSocketService.reconnectAttempts (fst r) <= 20
  /\ match snd r with
     | Some d =>
         VestWebSocketService.reconnectAttempts c < 20
         /\ VestWebSocketService.reconnectAttempts (fst r)
            = VestWebSocketService.reconnectAttempts c + 1
         /\ d = 3000 * Z.min (VestWebSocketService.reconnectAttempts c + 1) 5
     | None => VestWebSocketService.reconnectAttempts c = 20 /\ fst r = c
     end.
Proof.
  intros Hc. unfold VestWebSocketService.scheduleReconnect,
    VestWebSocketService.maxReconnectAttempts,
    VestWebSocketService.reconnectDelay.
  destruct (Z.ltb_spec (VestWebSocketService.reconnectAttempts c) 20); simpl.
  - repeat split; lia.
  - repeat split; lia.
Qed.

Lemma vest_run_bounds (evs : list SocketEvent) :
  forall c, 0 <= VestWebSocketService.reconnectAttempts c <= 20 ->
  0 <= VestWebSocketService.reconnectAttempts
         (fst (VestWebSocketService.socketRun c evs)) <= 20
  /\ Forall (fun d => 3000 <= d <= 15000)
       (snd (VestWebSocketService.socketRun c evs)).
Proof.
  induction evs as [|[|] evs IH]; intros c Hc; simpl.
  - split; [exact Hc | constructor].
  - apply IH. simpl. lia.
  - unfold VestWebSocketService.onClose.
    pose proof (vest_scheduleReconnect_spec
                  {| VestWebSocketService.isConnected := false;
                     VestWebSocketService.reconnectAttempts :=
                       VestWebSocketService.reconnectAttempts c |} Hc) as Hs.
    simpl in Hs.
    destruct (VestWebSocketService.scheduleReconnect _) as [c1 armed].
    simpl in Hs. destruct Hs as [Hc1 Harmed].
    specialize (IH c1 Hc1).
    destruct (VestWebSocketService.socketRun c1 evs) as [c2 rest]. simpl in *.
    destruct IH as [Hc2 Hrest]. split; [exact Hc2|].
    destruct armed as [d|]; [|exact Hrest].
    constructor; [lia | exact Hrest].
Qed.

Lemma vest_closes (n : nat) :
  forall (a : nat) (b : bool), (a <= 20)%nat ->
  snd (VestWebSocketService.socketRun
         {| VestWebSocketService.isConnected := b;
            VestWebSocketService.reconnectAttempts := Z.of_nat a |}
         (repeat SocketClose n))
  = map (fun k => 3000 * Z.min (Z.of_nat k) 5)
      (seq (S a) (Nat.min n (20 - a))).
Proof.
  induction n as [|n IH]; intros a b Ha; simpl; [reflexivity|].
  unfold VestWebSocketService.onClose, VestWebSocketService.scheduleReconnect,
    VestWebSocketService.maxReconnectAttempts,
    VestWebSocketService.reconnectDelay. simpl.
  destruct (Z.ltb_spec (Z.of_nat a) 20) as [Hlt|Hge].
  - replace (Z.of_nat a + 1) with (Z.of_nat (S a)) by lia.
    specialize (IH (S a) false ltac:(lia)).
    destruct (20 - a)%nat as [|m] eqn:Hm; [lia|].
    assert (Hm' : (20 - S a)%nat = m) by lia. rewrite Hm' in IH.
    destruct (VestWebSocketService.socketRun _ (repeat SocketClose n))
      as [c2 rest]. cbn [snd] in *. subst rest. reflexivity.
  - assert (a = 20%nat) by lia. subst a.
    specialize (IH 20%nat false ltac:(lia)).
    replace (20 - 20)%nat with 0%nat in * by lia.
    rewrite Nat.min_0_r in *.
    destruct (VestWebSocketService.socketRun _ (repeat SocketClose n))
      as [c2 rest]. cbn [snd] in *. subst rest. reflexivity.
Qed.

(** X8. Vest WebSocket: the reconnect counter stays between 0 and 20 and
    every reconnect timer is armed for 3 to 15 seconds; after a successful
    connection, the k-th close in a row arms a timer of 3000 * min(k, 5) ms
    for k up to 20, and a close after the twentieth arms nothing: the
    service stays disconnected. *)
Theorem X8_vest_reconnect_schedule (evs : list SocketEvent) :
  let r := VestWebSocketService.socketRun VestWebSocketService.initial evs in
  0 <= VestWebSocketService.reconnectAttempts (fst r) <= 20
  /\ Forall (fun d => 3000 <= d <= 15000) (snd r)
  /\ forall n,
       snd (VestWebSocketService.socketRun
              (VestWebSocketService.onOpen (fst r)) (repeat SocketClose n))
       = map (fun k => 3000 * Z.min (Z.of_nat k) 5) (seq 1 (Nat.min n 20)).
Proof.
  simpl.
  destruct (vest_run_bounds evs VestWebSocketService.initial) as [Hc Hd];
    [simpl; lia|].
  split; [exact Hc|]. split; [exact Hd|].
  intros n. exact (vest_closes n 0 true ltac:(lia)).
Qed.

Lemma lighter_backoff (a : Z) :
  0 <= a ->
  Z.min (3000 * 2 ^ a) 30000 = if a <=? 3 then 3000 * 2 ^ a else 30000.
Proof.
  intros Ha. destruct (Z.leb_spec a 3) as [Hle|Hgt].
  - assert (Hcases : a = 0 \/ a = 1 \/ a = 2 \/ a = 3) by lia.
    destruct Hcases as [E|[E|[E|E]]]; subst a; reflexivity.
  - assert (2 ^ 4 <= 2 ^ a) by (apply Z.pow_le_mono_r; lia).
    change (2 ^ 4) with 16 in *. lia.
Qed.

Lemma lighter_scheduleReconnect_spec (c : LighterWebSocketService.Conn) :
  0 <= LighterWebSocketService.reconnectAttempts c <= 20 ->
  let r := LighterWebSocketService.scheduleReconnect c in
  0 <= LighterWebSocketService.reconnectAttempts (fst r) <= 20
  /\ 3000 <= LighterWebSocketService.delayOf (snd r) <= 60000.
Proof.
  intros Hc. unfold LighterWebSocketService.scheduleReconnect,
    LighterWebSocketService.maxReconnectAttempts,
    LighterWebSocketService.reconnectDelay.
  destruct (Z.ltb_spec (LighterWebSocketService.reconnectAttempts c) 20); simpl.
  - rewrite lighter_backoff by lia.
    split; [lia|].
    destruct (Z.leb_spec (LighterWebSocketService.reconnectAttempts c + 1 - 1) 3);
      [|lia].
    assert (0 < 2 ^ (LighterWebSocketService.reconnectAttempts c + 1 - 1))
      by (apply Z.pow_pos_nonneg; lia).
    assert (2 ^ (LighterWebSocketService.reconnectAttempts c + 1 - 1) <= 2 ^ 3)
      by (apply Z.pow_le_mono_r; lia).
    change (2 ^ 3) with 8 in *. lia.
  - lia.
Qed.

Lemma lighter_run_bounds (turns : list LighterWebSocketService.Turn) :
  forall c, 0 <= LighterWebSocketService.reconnectAttempts c <= 20 ->
  let r := LighterWebSocketService.socketRun c turns in
  0 <= LighterWebSocketService.reconnectAttempts (fst r) <= 20
  /\ length (snd r) = LighterWebSocketService.closes turns
  /\ Forall (fun t => 3000 <= LighterWebSocketService.delayOf t <= 60000)
       (snd r).
Proof.
  induction turns as [|[[|]|t] turns IH]; intros c Hc; simpl.
  - repeat split; [lia | lia | constructor].
  - apply IH. simpl. lia.
  - unfold LighterWebSocketService.onClose.
    pose proof (lighter_scheduleReconnect_spec
                  {| LighterWebSocketService.isConnected := false;
                     LighterWebSocketService.reconnectAttempts :=
                       LighterWebSocketService.reconnectAttempts c |} Hc) as Hs.
    simpl in Hs.
    destruct (LighterWebSocketService.scheduleReconnect _) as [c1 t].
    simpl in Hs. destruct Hs as [Hc1 Ht].
    specialize (IH c1 Hc1).
    destruct (LighterWebSocketService.socketRun c1 turns) as [c2 armed].
    simpl in *. destruct IH as (Hc2 & Hlen & Harmed).
    unfold LighterWebSocketService.closes in *. simpl.
    repeat split; [lia | lia | congruence | constructor; assumption].
  - apply IH. destruct t; simpl; lia.
Qed.

Lemma lighter_closes (n : nat) :
  forall (a : nat) (b : bool), (a <= 20)%nat ->
  snd (LighterWebSocketService.socketRun
         {| LighterWebSocketService.isConnected := b;
            LighterWebSocketService.reconnectAttempts := Z.of_nat a |}
         (repeat (LighterWebSocketService.Socket SocketClose) n))
  = map (fun k =>
           if (k <=? 4)%nat
           then LighterWebSocketService.Reconnect (3000 * 2 ^ (Z.of_nat k - 1))
           else if (k <=? 20)%nat
                then LighterWebSocketService.Reconnect 30000
                else LighterWebSocketService.ResetAndReconnect 60000)
      (seq (S a) (Nat.min n (20 - a)))
    ++ repeat (LighterWebSocketService.ResetAndReconnect 60000)
         (n - (20 - a)).
Proof.
  induction n as [|n IH]; intros a b Ha; simpl; [reflexivity|].
  unfold LighterWebSocketService.onClose,
    LighterWebSocketService.scheduleReconnect,
    LighterWebSocketService.maxReconnectAttempts,
    LighterWebSocketService.reconnectDelay. simpl.
  destruct (Z.ltb_spec (Z.of_nat a) 20) as [Hlt|Hge].
  - specialize (IH (S a) false ltac:(lia)).
    replace (Z.of_nat a + 1) with (Z.of_nat (S a)) by lia.
    destruct (20 - a)%nat as [|m] eqn:Hm; [lia|].
    assert (Hm' : (20 - S a)%nat = m) by lia. rewrite Hm' in IH.
    destruct (LighterWebSocketService.socketRun _ (repeat _ n)) as [c2 rest].
    cbn [snd] in *. subst rest.
    cbn [Nat.min seq map app Nat.sub]. f_equal.
    rewrite lighter_backoff by lia.
    destruct (Nat.leb_spec (S a) 4) as [H4|H4].
    + destruct (Z.leb_spec (Z.of_nat (S a) - 1) 3); [reflexivity | lia].
    + destruct (Z.leb_spec (Z.of_nat (S a) - 1) 3); [lia|].
      destruct (Nat.leb_spec (S a) 20); [reflexivity | lia].
  - assert (a = 20%nat) by lia. subst a.
    specialize (IH 20%nat false ltac:(lia)).
    replace (20 - 20)%nat with 0%nat in * by lia.
    rewrite Nat.min_0_r, Nat.sub_0_r in *.
    destruct (LighterWebSocketService.socketRun _ (repeat _ n)) as [c2 rest].
    cbn [snd] in *. subst rest. reflexivity.
Qed.

(** X9. Lighter WebSocket: every close arms exactly one timer, for 3 to 60
    seconds, and the reconnect counter stays between 0 and 20.  After a
    successful connection, the k-th close in a row arms a reconnect after
    3000 * 2^(k-1) ms for k up to 4 and after 30000 ms for k from 5 to 20;
    each further close arms the one-minute timer whose callback clears the
    counter before it reconnects. *)
Theorem X9_lighter_reconnect_schedule (turns : list LighterWebSocketService.Turn) :
  let r := LighterWebSocketService.socketRun
             LighterWebSocketService.initial turns in
  0 <= LighterWebSocketService.reconnectAttempts (fst r) <= 20
  /\ length (snd r) = LighterWebSocketService.closes turns
  /\ Forall (fun t => 3000 <= LighterWebSocketService.delayOf t <= 60000)
       (snd r)
  /\ (forall n,
        snd (LighterWebSocketService.socketRun
               (LighterWebSocketService.onOpen (fst r))
               (repeat (LighterWebSocketService.Socket SocketClose) n))
        = map (fun k =>
                 if (k <=? 4)%nat
                 then LighterWebSocketService.Reconnect
                        (3000 * 2 ^ (Z.of_nat k - 1))
                 else LighterWebSocketService.Reconnect 30000)
            (seq 1 (Nat.min n 20))
          ++ repeat (LighterWebSocketService.ResetAndReconnect 60000) (n - 20))
  /\ forall c d,
       LighterWebSocketService.reconnectAttempts
         (LighterWebSocketService.onTimer c
            (LighterWebSocketService.ResetAndReconnect d)) = 0.
Proof.
  cbv zeta.
  destruct (lighter_run_bounds turns LighterWebSocketService.initial)
    as (Hc & Hlen & Hd); [simpl; lia|].
  repeat split; try assumption; try lia.
  intros n.
  change (LighterWebSocketService.onOpen _)
    with {| LighterWebSocketService.isConnected := true;
            LighterWebSocketService.reconnectAttempts := Z.of_nat 0 |}.
  rewrite (lighter_closes n 0 true ltac:(lia)).
  rewrite Nat.sub_0_r. f_equal.
  apply map_ext_in. intros k Hk. apply in_seq in Hk.
  destruct (k <=? 4)%nat; [reflexivity|].
  destruct (Nat.leb_spec k 20); [reflexivity | lia].
Qed.

(** ** Paradex: the REST fallback and the WebSocket feed *)

Lemma forEach_quiet (body : JsVal -> Outcome (option MarketData))
    (items : list JsVal) :
  Forall (fun m => exists r, body m = Normal r) items ->
  forall results, snd (forEach body items results) = None.
Proof.
  induction 1 as [|m items [r Hm] _ IH]; intros results; simpl;
    [reflexivity|].
  rewrite Hm. destruct r; apply IH.
Qed.

Section ParadexFeed.

Variable ALLOWED_SYMBOLS : list string.
Variable parseFloat : JsVal -> Outcome JsNumber.

Lemma paradex_eachMarket_accepts (m : JsVal) (r : MarketData) :
  ParadexService.eachMarket ALLOWED_SYMBOLS parseFloat m = Normal (Some r) ->
  (exists s, md_symbol r = JStr s /\ In s ALLOWED_SYMBOLS)
  /\ (0 < md_bid r)%Q /\ (0 < md_ask r)%Q.
Proof.
  unfold ParadexService.eachMarket. intros H.
  repeat next_step H.
  injection H as <-. simpl.
  match goal with
  | Hb : positive _ = Some (md_bid _) |- _ => idtac
  | _ => idtac
  end.
  repeat match goal with
  | Hp : positive _ = Some _ |- _ => apply positive_Some in Hp as [_ Hp]
  | Hn : negb _ = false |- _ => apply negb_false_iff in Hn
  end.
  repeat split; try assumption.
  apply allowedVal_In. assumption.
Qed.

Lemma paradex_eachMarket_throws (m : JsVal) :
  (exists e, ParadexService.eachMarket ALLOWED_SYMBOLS parseFloat m = Thrown e)
  <-> passes ALLOWED_SYMBOLS parseFloat m = false.
Proof.
  unfold ParadexService.eachMarket, passes, readable, priced, priceArg, parses.
  destruct (getProp m "symbol") as [sym|e] eqn:Hsym; simpl;
    [|split; [reflexivity | intros _; eexists; reflexivity]].
  destruct sym; simpl;
    try (split; [intros [e He]; discriminate He | discriminate]);
    try (split; [reflexivity | intros _; eexists; reflexivity]).
  destruct (str_endsWith s "-USD-PERP"); simpl;
    [|split; [intros [e He]; discriminate He | discriminate]].
  destruct (ExtendedService.allowedVal ALLOWED_SYMBOLS _); simpl;
    [|split; [intros [e He]; discriminate He | discriminate]].
  assert (Hb : exists b, getProp m "bid" = Normal b)
    by (destruct m; simpl in *; try discriminate Hsym; eexists; reflexivity).
  assert (Ha : exists a, getProp m "ask" = Normal a)
    by (destruct m; simpl in *; try discriminate Hsym; eexists; reflexivity).
  destruct Hb as [b ->], Ha as [a ->]. simpl. unfold orElse.
  destruct (truthy b); simpl;
    (destruct (parseFloat _) as [bid|eb]; simpl;
     [|split; [reflexivity | intros _; eexists; reflexivity]]);
    (destruct (truthy a); simpl;
     (destruct (parseFloat _) as [ask|ea]; simpl;
      [|split; [reflexivity | intros _; eexists; reflexivity]]));
    (split; [|discriminate]); intros [e He];
    destruct (positive bid), (positive ask); discriminate He.
Qed.

Lemma paradex_passing_quiet (items : list JsVal) :
  forallb (passes ALLOWED_SYMBOLS parseFloat) items = true ->
  Forall (fun m => exists r,
            ParadexService.eachMarket ALLOWED_SYMBOLS parseFloat m = Normal r)
    items.
Proof.
  intros H. apply List.Forall_forall. intros m Hm.
  rewrite forallb_forall in H. specialize (H m Hm).
  destruct (ParadexService.eachMarket ALLOWED_SYMBOLS parseFloat m)
    as [r|e] eqn:He; [exists r; reflexivity|].
  assert (passes ALLOWED_SYMBOLS parseFloat m = false)
    by (apply paradex_eachMarket_throws; exists e; exact He).
  congruence.
Qed.

Lemma paradex_handleWsMessage_array (items : list JsVal) :
  ParadexService.handleWsMessage ALLOWED_SYMBOLS parseFloat
    (paradexMessage (JArr items))
  = ParadexService.Updates
      (fst (forEach (ParadexService.eachMarket ALLOWED_SYMBOLS parseFloat)
              items [])).
Proof.
  unfold ParadexService.handleWsMessage, ParadexService.handleWsMessage_try,
    paradexMessage, ParadexService.processMarketData. simpl.
  destruct (forEach _ items []) as [calls [e|]]; reflexivity.
Qed.

Lemma paradex_fetchMarkets_body (items : list JsVal) :
  ParadexService.fetchMarkets ALLOWED_SYMBOLS parseFloat (paradexBody items)
  = match forEach (ParadexService.eachMarket ALLOWED_SYMBOLS parseFloat)
            items [] with
    | (result, None) => (Normal result, [])
    | (_, Some e) => (Normal [], [paradexError])
    end.
Proof.
  unfold ParadexService.fetchMarkets, ParadexService.tryBlock, paradexBody.
  simpl. destruct (forEach _ items []) as [calls [e|]]; reflexivity.
Qed.

(** X10. Paradex: every record that the REST [fetchMarkets] resolves to,
    and every update that [handleWsMessage] hands to [onWsUpdate], carries
    an allow-listed symbol (a string), a bid above zero and an ask above
    zero. *)
Theorem X10_paradex_results_are_valid (r : MarketData) :
  (forall response res log,
     ParadexService.fetchMarkets ALLOWED_SYMBOLS parseFloat response
       = (Normal res, log) ->
     In r res ->
     (exists s, md_symbol r = JStr s /\ In s ALLOWED_SYMBOLS)
     /\ (0 < md_bid r)%Q /\ (0 < md_ask r)%Q)
  /\ (forall parsed calls,
        ParadexService.handleWsMessage ALLOWED_SYMBOLS parseFloat parsed
          = ParadexService.Updates calls ->
        In r calls ->
        (exists s, md_symbol r = JStr s /\ In s ALLOWED_SYMBOLS)
        /\ (0 < md_bid r)%Q /\ (0 < md_ask r)%Q).
Proof.
  split.
  - intros response res log H Hin.
    unfold ParadexService.fetchMarkets in H.
    destruct (ParadexService.tryBlock ALLOWED_SYMBOLS parseFloat response)
      as [result|e] eqn:Ht; injection H as <- _; [|destruct Hin].
    unfold ParadexService.tryBlock in Ht.
    repeat next_step Ht. injection Ht as ->.
    match goal with
    | Hf : forEach _ _ [] = _ |- _ =>
        destruct (forEach_In _ _ _ _ _ Hf r Hin) as [[]|(m & _ & Hm)]
    end.
    exact (paradex_eachMarket_accepts _ _ Hm).
  - intros parsed calls H Hin.
    assert (Hsrc : calls = [] \/ exists data,
              calls = fst (ParadexService.processMarketData ALLOWED_SYMBOLS
                             parseFloat data)).
    { unfold ParadexService.handleWsMessage,
        ParadexService.handleWsMessage_try in H.
      destruct parsed as [message|e]; [|injection H as <-; auto].
      destruct (mbind _ (getProp message "result")) as [[|]|e];
        [discriminate H| |injection H as <-; auto].
      destruct (mbind _ (getProp message "params")) as [[d|]|e];
        [|injection H as <-; auto|injection H as <-; auto].
      right. exists d.
      destruct (ParadexService.processMarketData _ _ d) as [c [e|]];
        injection H as <-; reflexivity. }
    destruct Hsrc as [->|[data ->]]; [destruct Hin|].
    unfold ParadexService.processMarketData in Hin.
    destruct (forEach _ _ []) as [c err] eqn:Hf. simpl in Hin.
    destruct (forEach_In _ _ _ _ _ Hf r Hin) as [[]|(m & _ & Hm)].
    exact (paradex_eachMarket_accepts _ _ Hm).
Qed.

(** X11. Paradex: a record makes the callback of [forEach] throw exactly
    when it is [null] or [undefined], or its [symbol] is neither a string
    nor missing, or its prices are parsed and [parseFloat] throws on its
    bid or on its ask.  On a batch without such a record the REST fallback
    returns exactly the updates that the WebSocket handler makes for the
    same records.  Once such a record occurs, the REST fallback returns
    nothing and logs an error, while the WebSocket handler has made the
    updates of the records before it. *)
Theorem X11_paradex_rest_and_ws_agree :
  (forall m,
     (exists e, ParadexService.eachMarket ALLOWED_SYMBOLS parseFloat m = Thrown e)
     <-> passes ALLOWED_SYMBOLS parseFloat m = false)
  /\ (forall items,
        forallb (passes ALLOWED_SYMBOLS parseFloat) items = true ->
        exists calls,
          ParadexService.handleWsMessage ALLOWED_SYMBOLS parseFloat
            (paradexMessage (JArr items)) = ParadexService.Updates calls
          /\ ParadexService.fetchMarkets ALLOWED_SYMBOLS parseFloat
               (paradexBody items) = (Normal calls, []))
  /\ (forall before bad after,
        forallb (passes ALLOWED_SYMBOLS parseFloat) before = true ->
        passes ALLOWED_SYMBOLS parseFloat bad = false ->
        ParadexService.fetchMarkets ALLOWED_SYMBOLS parseFloat
          (paradexBody (before ++ bad :: after)) = (Normal [], [paradexError])
        /\ ParadexService.handleWsMessage ALLOWED_SYMBOLS parseFloat
             (paradexMessage (JArr (before ++ bad :: after)))
           = ParadexService.handleWsMessage ALLOWED_SYMBOLS parseFloat
               (paradexMessage (JArr before))).
Proof.
  split; [exact paradex_eachMarket_throws|]. split.
  - intros items Hr.
    pose proof (forEach_quiet _ _ (paradex_passing_quiet items Hr) [])
      as Hq.
    eexists. split; [apply paradex_handleWsMessage_array|].
    rewrite paradex_fetchMarkets_body.
    destruct (forEach _ items []) as [calls err]. simpl in *. subst err.
    reflexivity.
  - intros before bad after Hr Hbad.
    apply paradex_eachMarket_throws in Hbad as [e He].
    pose proof (forEach_quiet _ _ (paradex_passing_quiet before Hr) [])
      as Hq.
    pose proof (forEach_throw _ before bad after [] e He Hq) as Hf.
    split.
    + rewrite paradex_fetchMarkets_body, Hf. reflexivity.
    + rewrite !paradex_handleWsMessage_array, Hf. reflexivity.
Qed.

End ParadexFeed.

Lemma X10_paradex_results_are_valid_witness :
  (exists s, JStr "BTC" = JStr s /\ In s btcOnly)
  /\ (0 < 100)%Q /\ (0 < 101)%Q.
Proof.
  exact (proj1 (X10_paradex_results_are_valid btcOnly parseFloatOrThrow
                  {| md_symbol := JStr "BTC"; md_bid := 100; md_ask := 101 |})
           (paradexBody [paradexBtc]) _ _ eq_refl (or_introl eq_refl)).
Defined.

(** A run of [X11_paradex_rest_and_ws_agree]: a record whose bid is an
    object that [parseFloat] throws on, between two well-formed ones. *)
Lemma X11_paradex_rest_and_ws_agree_witness :
  (exists calls,
     ParadexService.handleWsMessage btcOnly parseFloatOrThrow
       (paradexMessage (JArr [paradexBtc])) = ParadexService.Updates calls
     /\ ParadexService.fetchMarkets btcOnly parseFloatOrThrow
          (paradexBody [paradexBtc]) = (Normal calls, []))
  /\ ParadexService.fetchMarkets btcOnly parseFloatOrThrow
       (paradexBody ([paradexBtc] ++ paradexUnparsable :: [paradexBtc]))
     = (Normal [], [paradexError])
  /\ ParadexService.handleWsMessage btcOnly parseFloatOrThrow
       (paradexMessage
          (JArr ([paradexBtc] ++ paradexUnparsable :: [paradexBtc])))
     = ParadexService.handleWsMessage btcOnly parseFloatOrThrow
         (paradexMessage (JArr [paradexBtc])).
Proof.
  destruct (X11_paradex_rest_and_ws_agree btcOnly parseFloatOrThrow)
    as (_ & Hok & Hbad).
  split.
  - apply Hok. reflexivity.
  - apply Hbad; reflexivity.
Defined.

Lemma paradex_closes_exhausted (flags : list bool) :
  ParadexService.closesInARow 5 flags
  = map (fun f : bool =>
           if negb f then ParadexService.StartFallback
           else ParadexService.NoAction) flags.
Proof.
  induction flags as [|f flags IH]; simpl; [reflexivity|].
  rewrite IH. reflexivity.
Qed.

(** X12. Paradex WebSocket: after a successful connection, closes in a row
    arm at most five reconnect timers, of 3, 6, 12, 24 and 30 seconds; a
    further close arms no timer any more and starts the REST fallback
    unless it is already active. *)
Theorem X12_paradex_reconnect_schedule (flags : list bool) :
  ParadexService.closesInARow 0 flags
  = map ParadexService.ArmTimer
      (firstn (length flags) [3000; 6000; 12000; 24000; 30000])
    ++ map (fun f : bool =>
              if negb f then ParadexService.StartFallback
              else ParadexService.NoAction) (skipn 5 flags).
Proof.
  do 5 (destruct flags as [|? flags]; [reflexivity|]).
  transitivity
    (map ParadexService.ArmTimer [3000; 6000; 12000; 24000; 30000]
     ++ ParadexService.closesInARow 5 flags); [reflexivity|].
  rewrite paradex_closes_exhausted. simpl. rewrite firstn_nil. reflexivity.
Qed.

(** ** The rows of [saveTopPairsToDb] *)

Lemma descending_app_cross {A : Type} (key : A -> Q) (l1 l2 : list A) :
  descending (map key (l1 ++ l2)) ->
  descending (map key l1)
  /\ forall a b, In a l1 -> In b l2 -> (key b <= key a)%Q.
Proof.
  induction l1 as [|x l1 IH]; simpl; intros H.
  - split; [exact I | intros a b []].
  - destruct H as [Hx Hs]. destruct (IH Hs) as [Hs1 Hcross]. split.
    + split; [|exact Hs1].
      intros k Hk. apply Hx. rewrite map_app. apply in_or_app. left. exact Hk.
    + intros a b [<-|Ha] Hb.
      * apply Hx, in_map, in_or_app. right. exact Hb.
      * apply Hcross; assumption.
Qed.

Section TopPairs.

Variable ALLOWED_SYMBOLS : list string.
Variable noSignal : JsNumber.

Lemma In_insertDesc (p x : AggregatedPair) (l : list AggregatedPair) :
  In x (MetricsRepository.insertDesc noSignal p l) <-> x = p \/ In x l.
Proof.
  clear ALLOWED_SYMBOLS.
  induction l as [|y l IH]; simpl.
  - intuition congruence.
  - destruct (Qlt_bool _ _); simpl.
    + rewrite IH. intuition congruence.
    + intuition congruence.
Qed.

Lemma In_sortDesc (x : AggregatedPair) (l : list AggregatedPair) :
  In x (MetricsRepository.sortDesc noSignal l) <-> In x l.
Proof.
  clear ALLOWED_SYMBOLS.
  induction l as [|y l IH]; simpl; [tauto|].
  rewrite In_insertDesc, IH. intuition congruence.
Qed.

Lemma sorted_insertDesc (p : AggregatedPair) (l : list AggregatedPair) :
  descending (map (MetricsRepository.spreadKey noSignal) l) ->
  descending
    (map (MetricsRepository.spreadKey noSignal)
       (MetricsRepository.insertDesc noSignal p l)).
Proof.
  clear ALLOWED_SYMBOLS.
  induction l as [|y l IH]; simpl; intros Hs.
  - split; [intros b [] | exact I].
  - destruct Hs as [Hy Hl].
    destruct (Qlt_bool _ _) eqn:Hlt; simpl.
    + apply Qlt_bool_iff in Hlt.
      split; [|exact (IH Hl)].
      intros k Hk. apply in_map_iff in Hk as (x & <- & Hx).
      apply In_insertDesc in Hx as [->|Hx].
      * apply Qlt_le_weak, Hlt.
      * apply Hy, in_map, Hx.
    + apply Qlt_bool_false_le in Hlt.
      split; [|split; assumption].
      intros k [<-|Hk]; [exact Hlt|].
      eapply Qle_trans; [exact (Hy k Hk) | exact Hlt].
Qed.

Lemma sorted_sortDesc (l : list AggregatedPair) :
  descending
    (map (MetricsRepository.spreadKey noSignal)
       (MetricsRepository.sortDesc noSignal l)).
Proof.
  clear ALLOWED_SYMBOLS.
  induction l as [|y l IH]; simpl; [exact I|].
  apply sorted_insertDesc, IH.
Qed.

Lemma inRange_bounds (p : AggregatedPair) :
  MetricsRepository.inRange noSignal p = true ->
  MetricsRepository.spreadNumber noSignal p
    = Fin (MetricsRepository.spreadKey noSignal p)
  /\ (- (10) < MetricsRepository.spreadKey noSignal p)%Q
  /\ (MetricsRepository.spreadKey noSignal p < 50)%Q.
Proof.
  clear ALLOWED_SYMBOLS.
  unfold MetricsRepository.inRange, MetricsRepository.spreadKey.
  destruct (MetricsRepository.spreadNumber noSignal p) as [|q];
    [discriminate|].
  intros H. apply andb_true_iff in H as [Hlo Hhi].
  apply Qlt_bool_iff in Hlo, Hhi.
  split; [reflexivity|]. split; [exact Hlo|].
  unfold Math_abs in Hhi.
  destruct (Qlt_bool q 0) eqn:Hneg; [|exact Hhi].
  apply Qlt_bool_iff in Hneg.
  apply Qlt_trans with 0%Q; [exact Hneg | reflexivity].
Qed.

(** X13. [saveTopPairsToDb] writes nothing exactly when no pair of the
    snapshot has a spread above -10 and below 50 in absolute value.
    Otherwise it writes between one and five rows, all with the clock
    reading of the call, each for a pair of the snapshot whose spread is a
    number above -10 and below 50, in descending order of spread; and a
    pair in that range that is not written has a spread no greater than
    that of any row, five rows being written then. *)
Theorem X13_top_pairs_rows (st : State) (now : Z) :
  let snapshot := cache_values (getPriceCache ALLOWED_SYMBOLS st) in
  let spread := MetricsRepository.spreadKey noSignal in
  match MetricsRepository.saveTopPairsToDb ALLOWED_SYMBOLS noSignal st now with
  | None =>
      forall p, In p snapshot -> MetricsRepository.inRange noSignal p = false
  | Some rows =>
      (1 <= length rows <= 5)%nat
      /\ (forall r, In r rows ->
            fst r = now /\ In (snd r) snapshot
            /\ MetricsRepository.spreadNumber noSignal (snd r)
               = Fin (spread (snd r))
            /\ (- (10) < spread (snd r))%Q /\ (spread (snd r) < 50)%Q)
      /\ descending (map (fun r => spread (snd r)) rows)
      /\ (forall p,
            In p snapshot -> MetricsRepository.inRange noSignal p = true ->
            ~ In (now, p) rows ->
            length rows = 5%nat
            /\ forall r, In r rows -> (spread p <= spread (snd r))%Q)
  end.
Proof.
  intros snapshot spread.
  unfold MetricsRepository.saveTopPairsToDb, MetricsRepository.topPairs.
  fold snapshot.
  set (sorted := MetricsRepository.sortDesc noSignal
                   (List.filter (MetricsRepository.inRange noSignal) snapshot)).
  assert (Hin : forall p, In p sorted <->
                  In p snapshot /\ MetricsRepository.inRange noSignal p = true).
  { intros p. unfold sorted. rewrite In_sortDesc. apply filter_In. }
  assert (Hsorted : descending
                      (map spread (firstn 5 sorted ++ skipn 5 sorted))).
  { rewrite firstn_skipn. apply sorted_sortDesc. }
  apply descending_app_cross in Hsorted as [Htop Hcross].
  destruct (Nat.eqb_spec (length (firstn 5 sorted)) 0) as [Hz|Hnz].
  - intros p Hp.
    destruct (MetricsRepository.inRange noSignal p) eqn:Hr; [|reflexivity].
    assert (Hs : In p sorted) by (apply Hin; auto).
    rewrite length_firstn in Hz.
    destruct sorted as [|x l]; [destruct Hs | simpl in Hz; lia].
  - assert (Hrows : forall r,
              In r (map (fun p => (now, p)) (firstn 5 sorted)) <->
              fst r = now /\ In (snd r) (firstn 5 sorted)).
    { intros [t p]. rewrite in_map_iff. simpl. split.
      - intros (p' & [= <- <-] & Hp'). auto.
      - intros [<- Hp]. exists p. auto. }
    split; [|split; [|split]].
    + rewrite length_map. split; [lia|]. rewrite length_firstn. lia.
    + intros r Hr. apply Hrows in Hr as [Ht Hp].
      assert (Hs : In (snd r) sorted)
        by (rewrite <- (firstn_skipn 5 sorted); apply in_or_app; auto).
      apply Hin in Hs as [Hsnap Hrange].
      apply inRange_bounds in Hrange. tauto.
    + rewrite map_map. simpl. exact Htop.
    + intros p Hp Hrange Hnot.
      assert (Hs : In p sorted) by (apply Hin; auto).
      rewrite <- (firstn_skipn 5 sorted) in Hs.
      apply in_app_or in Hs as [Hs|Hs];
        [exfalso; apply Hnot, Hrows; auto|].
      split.
      * rewrite length_map, length_firstn.
        assert (length (skipn 5 sorted) <> 0)%nat
          by (destruct (skipn 5 sorted); [destruct Hs | discriminate]).
        rewrite length_skipn in *. lia.
      * intros r Hr. apply Hrows in Hr as [_ Hr].
        exact (Hcross _ _ Hr Hs).
Qed.

End TopPairs.

(** A run of [X13_top_pairs_rows]: after the update of [broadcastOnce] the
    one pair of the cache is written. *)
Lemma X13_top_pairs_rows_witness :
  exists rows,
    MetricsRepository.saveTopPairsToDb btcOnly NaN
      (run btcOnly fieldOrder initialState broadcastOnce) 7000 = Some rows
    /\ map fst rows = [7000]
    /\ (1 <= length rows <= 5)%nat.
Proof.
  pose proof (X13_top_pairs_rows btcOnly NaN
                (run btcOnly fieldOrder initialState broadcastOnce) 7000) as H.
  cbv zeta in H.
  destruct (MetricsRepository.saveTopPairsToDb btcOnly NaN
              (run btcOnly fieldOrder initialState broadcastOnce) 7000)
    as [rows|] eqn:Hrows; [|discriminate Hrows].
  exists rows. split; [reflexivity|]. split; [|exact (proj1 H)].
  injection Hrows as <-. reflexivity.
Defined.

(** ** The log level *)

Lemma upperAscii_not_lower (c : Ascii.ascii) :
  Logger.isLower (Logger.upperAscii c) = false.
Proof.
  destruct c as [[] [] [] [] [] [] [] []]; vm_compute; reflexivity.
Qed.

Lemma hasLower_toUpperCase (s : string) :
  Logger.hasLower (Logger.toUpperCase s) = false.
Proof.
  induction s as [|c s IH]; simpl; [reflexivity|].
  rewrite upperAscii_not_lower, IH. reflexivity.
Qed.

Lemma readLevel_toUpperCase (s : string) :
  Logger.readLevel (Logger.toUpperCase s) <> Logger.Inherited.
Proof.
  unfold Logger.readLevel.
  destruct (Logger.ownLevel Logger.LOG_LEVELS (Logger.toUpperCase s));
    [discriminate|].
  destruct (existsb _ Logger.inheritedKeys) eqn:E; [|discriminate].
  exfalso. apply existsb_exists in E as (k & Hk & Heq).
  apply String.eqb_eq in Heq.
  assert (Hlow : Logger.hasLower k = true).
  { assert (Hall : forallb Logger.hasLower Logger.inheritedKeys = true)
      by reflexivity.
    rewrite forallb_forall in Hall. exact (Hall k Hk). }
  rewrite <- Heq, hasLower_toUpperCase in Hlow. discriminate Hlow.
Qed.

Lemma readLevel_Own (k : string) (n : Z) :
  Logger.readLevel k = Logger.Own n ->
  exists l, n = Logger.levelNumber l /\ k = Logger.levelName l.
Proof.
  unfold Logger.readLevel, Logger.LOG_LEVELS. simpl.
  destruct (String.eqb_spec k "DEBUG") as [->|_];
    [intros [= <-]; exists Logger.DEBUG; auto|].
  destruct (String.eqb_spec k "INFO") as [->|_];
    [intros [= <-]; exists Logger.INFO; auto|].
  destruct (String.eqb_spec k "WARN") as [->|_];
    [intros [= <-]; exists Logger.WARN; auto|].
  destruct (String.eqb_spec k "ERROR") as [->|_];
    [intros [= <-]; exists Logger.ERROR; auto|].
  match goal with
  | |- (if ?b then _ else _) = _ -> _ => destruct b; discriminate
  end.
Qed.

Lemma method_written (l : Logger.Level) (current : option Z)
    (ts tag message : string) (data : JsVal) :
  Logger.method l current ts tag message data <> None
  <-> Logger.enabled current l = true.
Proof.
  destruct l; simpl;
    unfold Logger.debug, Logger.info, Logger.warn, Logger.error;
    destruct (Logger.enabled current _); split; congruence.
Qed.

(** X14. Logger: whatever LOG_LEVEL is set to, logger.js and app-logger.ts
    compute the same level, and it is one of the four levels: INFO unless
    the value, in upper case, is the name of another level.  [error] always
    writes, and a configuration under which a method writes lets every
    method of a higher level write too. *)
Theorem X14_logger_levels (env : option string) :
  Logger.CURRENT_LEVEL_ts env = Logger.CURRENT_LEVEL_js env
  /\ (exists l,
        Logger.CURRENT_LEVEL_js env = Some (Logger.levelNumber l)
        /\ (l <> Logger.INFO ->
            exists s, env = Some s
                      /\ Logger.toUpperCase s = Logger.levelName l))
  /\ (forall ts tag message e,
        Logger.error (Logger.CURRENT_LEVEL_js env) ts tag message e <> None)
  /\ (forall l l' ts tag message data,
        Logger.levelNumber l <= Logger.levelNumber l' ->
        Logger.method l (Logger.CURRENT_LEVEL_js env) ts tag message data
          <> None ->
        Logger.method l' (Logger.CURRENT_LEVEL_js env) ts tag message data
          <> None).
Proof.
  assert (Hlevel : exists l,
            Logger.CURRENT_LEVEL_js env = Some (Logger.levelNumber l)
            /\ (l <> Logger.INFO ->
                exists s, env = Some s
                          /\ Logger.toUpperCase s = Logger.levelName l)).
  { unfold Logger.CURRENT_LEVEL_js. destruct env as [s|].
    - pose proof (readLevel_toUpperCase s) as Hni.
      destruct (Logger.readLevel (Logger.toUpperCase s)) as [n| |] eqn:Hr;
        [|congruence|].
      + apply readLevel_Own in Hr as (l & -> & Hk).
        exists l. split; [reflexivity|]. intros _. exists s. auto.
      + exists Logger.INFO. split; [reflexivity | congruence].
    - exists Logger.INFO. split; [reflexivity | congruence]. }
  split; [|split; [exact Hlevel|split]].
  - unfold Logger.CURRENT_LEVEL_ts, Logger.CURRENT_LEVEL_js.
    destruct env as [s|]; [|reflexivity].
    destruct (String.eqb_spec (Logger.toUpperCase s) "") as [->|_];
      reflexivity.
  - intros ts tag message e. apply (method_written Logger.ERROR).
    destruct Hlevel as (l & -> & _). destruct l; reflexivity.
  - intros l l' ts tag message data Hle.
    rewrite !method_written. unfold Logger.enabled.
    destruct (Logger.CURRENT_LEVEL_js env) as [c|]; [|discriminate].
    rewrite !Z.leb_le. lia.
Qed.

(** A run of [X14_logger_levels]: with LOG_LEVEL=debug, [warn] writes
    because [debug] does. *)
Lemma X14_logger_levels_witness :
  Logger.warn (Logger.CURRENT_LEVEL_js (Some "debug")) "t" "Server" "up" JNull
  <> None.
Proof.
  destruct (X14_logger_levels (Some "debug")) as (_ & _ & _ & Hup).
  apply (Hup Logger.DEBUG Logger.WARN "t" "Server" "up" JNull).
  - simpl. lia.
  - vm_compute. discriminate.
Defined.

(** ** Vest: the batched depth requests *)

Lemma forEachPush_In {A : Type} (body : JsVal -> Outcome (option A))
    (items : list JsVal) :
  forall (pushed res : list A),
  forEachPush body items pushed = Normal res ->
  forall a, In a res ->
    In a pushed \/ exists x, In x items /\ body x = Normal (Some a).
Proof.
  induction items as [|x items IH]; intros pushed res Heq a Hin; simpl in Heq.
  - injection Heq as <-. left. exact Hin.
  - destruct (body x) as [[y|]|e] eqn:Hx; [| |discriminate Heq].
    + destruct (IH _ _ Heq a Hin) as [Hp|(x' & Hx' & Hb)].
      * apply in_app_or in Hp as [Hp|[<-|[]]]; [left; exact Hp|].
        right. exists x. split; [left; reflexivity | exact Hx].
      * right. exists x'. split; [right; exact Hx' | exact Hb].
    + destruct (IH _ _ Heq a Hin) as [Hp|(x' & Hx' & Hb)]; [left; exact Hp|].
      right. exists x'. split; [right; exact Hx' | exact Hb].
Qed.

Section VestBatches.

Variable ALLOWED_SYMBOLS : list string.
Variable parseFloat : JsVal -> JsNumber.
Variable CONCURRENCY : nat.
Variable depth : nat -> AxiosResult.

Lemma batchLoop_ends (symbolsToFetch : list VestService.Queued) (fuel : nat) :
  (1 <= CONCURRENCY)%nat ->
  forall i results,
    (length symbolsToFetch <= i + fuel)%nat ->
    VestService.batchLoop parseFloat CONCURRENCY depth symbolsToFetch fuel i
      results
    = Some (results
            ++ VestService.pushBatch parseFloat depth
                 (skipn i (VestService.indexed symbolsToFetch))).
Proof.
  clear ALLOWED_SYMBOLS.
  intros HC.
  assert (Hlen : length (VestService.indexed symbolsToFetch)
                 = length symbolsToFetch).
  { unfold VestService.indexed.
    rewrite length_combine, length_seq. apply Nat.min_id. }
  induction fuel as [|fuel IH]; intros i results Hi; simpl.
  - destruct (Nat.ltb_spec i (length symbolsToFetch)) as [Hlt|Hge]; [lia|].
    rewrite skipn_all2 by lia. simpl. rewrite app_nil_r. reflexivity.
  - destruct (Nat.ltb_spec i (length symbolsToFetch)) as [Hlt|Hge].
    + rewrite IH by lia. f_equal. rewrite <- app_assoc. f_equal.
      unfold VestService.pushBatch. rewrite <- flat_map_app. f_equal.
      rewrite (Nat.add_comm i CONCURRENCY), <- skipn_skipn.
      apply firstn_skipn.
    + rewrite skipn_all2 by lia. simpl. rewrite app_nil_r. reflexivity.
Qed.

Lemma batchLoop_spins (symbolsToFetch : list VestService.Queued) (fuel : nat) :
  CONCURRENCY = 0%nat ->
  forall i results,
    (i < length symbolsToFetch)%nat ->
    VestService.batchLoop parseFloat CONCURRENCY depth symbolsToFetch fuel i
      results = None.
Proof.
  clear ALLOWED_SYMBOLS.
  intros ->. induction fuel as [|fuel IH]; intros i results Hi; simpl;
    destruct (Nat.ltb_spec i (length symbolsToFetch)) as [_|Hge];
    try lia; [reflexivity|].
  rewrite Nat.add_0_r. apply IH. exact Hi.
Qed.

Lemma vest_eachTicker_accepts (t : JsVal) (q : VestService.Queued) :
  VestService.eachTicker ALLOWED_SYMBOLS t = Normal (Some q) ->
  exists s, VestService.base q = JStr s /\ In s ALLOWED_SYMBOLS.
Proof.
  unfold VestService.eachTicker. intros H.
  repeat next_step H.
  injection H as <-. simpl.
  apply allowedVal_In.
  match goal with
  | Hn : negb (ExtendedService.allowedVal _ _) = false |- _ =>
      apply negb_false_iff in Hn; exact Hn
  end.
Qed.

Lemma vest_resolve_accepts (entry : nat * VestService.Queued) (r : MarketData) :
  VestService.resolve parseFloat depth entry = Some r ->
  md_symbol r = VestService.base (snd entry)
  /\ (0 < md_bid r)%Q /\ (0 < md_ask r)%Q.
Proof.
  clear ALLOWED_SYMBOLS CONCURRENCY.
  unfold VestService.resolve, VestService.eachResult.
  destruct (VestService.fetchDepth parseFloat (depth (fst entry)))
    as [[b a]|]; [|discriminate].
  destruct (positive b) as [bid|] eqn:Hb; [|discriminate].
  destruct (positive a) as [ask|] eqn:Ha; [|discriminate].
  intros [= <-]. simpl.
  apply positive_Some in Hb as [_ Hb], Ha as [_ Ha]. auto.
Qed.

(** X15. Vest REST polling with [CONCURRENCY] at least 1: [fetchMarkets]
    resolves, after at most as many iterations as symbols were queued.
    When reading the ticker list throws, it resolves to no record and one
    error entry, without a depth request.  Otherwise it resolves to the
    records of the queued symbols whose depth request gave a bid and an ask
    above zero, in the order of the ticker list, whatever the batch size;
    every record carries an allow-listed symbol. *)
Theorem X15_vest_batches (response : AxiosResult) :
  (1 <= CONCURRENCY)%nat ->
  match VestService.queueSymbols ALLOWED_SYMBOLS response with
  | Thrown e =>
      forall fuel,
        VestService.fetchMarkets ALLOWED_SYMBOLS parseFloat CONCURRENCY depth
          fuel response
        = Some ([], [{| level := ERROR; tag := "Vest";
                        message := String.append "REST fetch failed: " e |}])
  | Normal symbolsToFetch =>
      (forall fuel,
         (length symbolsToFetch <= fuel)%nat ->
         VestService.fetchMarkets ALLOWED_SYMBOLS parseFloat CONCURRENCY depth
           fuel response
         = Some (VestService.pushBatch parseFloat depth
                   (VestService.indexed symbolsToFetch), []))
      /\ forall r,
           In r (VestService.pushBatch parseFloat depth
                   (VestService.indexed symbolsToFetch)) ->
           (exists s, md_symbol r = JStr s /\ In s ALLOWED_SYMBOLS)
           /\ (0 < md_bid r)%Q /\ (0 < md_ask r)%Q
  end.
Proof.
  intros HC. unfold VestService.fetchMarkets.
  destruct (VestService.queueSymbols ALLOWED_SYMBOLS response)
    as [symbolsToFetch|e] eqn:Hq; [|reflexivity].
  split.
  - intros fuel Hfuel.
    rewrite (batchLoop_ends symbolsToFetch fuel HC 0 []) by lia.
    reflexivity.
  - intros r Hr. unfold VestService.pushBatch in Hr.
    apply in_flat_map in Hr as ([k item] & Hitem & Hres).
    destruct (VestService.resolve parseFloat depth (k, item)) as [r'|] eqn:Hr';
      [|destruct Hres].
    destruct Hres as [<-|[]].
    apply vest_resolve_accepts in Hr' as (Hsym & Hb & Ha). simpl in Hsym.
    split; [|auto]. rewrite Hsym.
    apply in_combine_r in Hitem.
    unfold VestService.queueSymbols in Hq.
    repeat next_step Hq.
    destruct (forEachPush_In _ _ _ _ Hq item Hitem) as [[]|(t & _ & Ht)].
    exact (vest_eachTicker_accepts _ _ Ht).
Qed.

(** X16. Vest REST polling with [CONCURRENCY] 0: once a symbol is queued,
    the batch loop makes no progress and [fetchMarkets] never resolves. *)
Theorem X16_vest_zero_concurrency (response : AxiosResult)
    (symbolsToFetch : list VestService.Queued) (fuel : nat) :
  CONCURRENCY = 0%nat ->
  VestService.queueSymbols ALLOWED_SYMBOLS response = Normal symbolsToFetch ->
  symbolsToFetch <> [] ->
  VestService.fetchMarkets ALLOWED_SYMBOLS parseFloat CONCURRENCY depth
    fuel response = None.
Proof.
  intros HC Hq Hne. unfold VestService.fetchMarkets. rewrite Hq.
  rewrite (batchLoop_spins symbolsToFetch fuel HC 0 []); [reflexivity|].
  destruct symbolsToFetch; [congruence | simpl; lia].
Qed.

End VestBatches.

(** A run of [X15_vest_batches]: one ticker, batches of two. *)
Lemma X15_vest_batches_witness :
  VestService.fetchMarkets btcOnly numberOrNaN 2 (fun _ => vestDepth) 1
    vestTickers
  = Some ([{| md_symbol := JStr "BTC"; md_bid := 100; md_ask := 101 |}], []).
Proof.
  pose proof (X15_vest_batches btcOnly numberOrNaN 2 (fun _ => vestDepth)
                vestTickers ltac:(lia)) as H.
  change (VestService.queueSymbols btcOnly vestTickers)
    with (Normal [{| VestService.base := JStr "BTC";
                     VestService.querySym := JStr "BTC-PERP" |}] : Outcome _)
    in H.
  destruct H as [Hrun _].
  rewrite (Hrun 1%nat) by (simpl; lia).
  reflexivity.
Defined.

(** A run of [X16_vest_zero_concurrency]: the same poll with batches of
    none has not resolved after a thousand iterations. *)
Lemma X16_vest_zero_concurrency_witness :
  VestService.fetchMarkets btcOnly numberOrNaN 0 (fun _ => vestDepth) 1000
    vestTickers = None.
Proof.
  apply (X16_vest_zero_concurrency btcOnly numberOrNaN 0 (fun _ => vestDepth)
           vestTickers
           [{| VestService.base := JStr "BTC";
               VestService.querySym := JStr "BTC-PERP" |}]).
  - reflexivity.
  - reflexivity.
  - discriminate.
Defined.

(** ** Vest WebSocket: depth messages *)

Section VestDepth.

Variable parseFloat : JsVal -> JsNumber.
Variable toNumber : JsVal -> JsNumber.

(** X17. Vest WebSocket [handleMessage]: an update is emitted only for a
    message whose channel is a string ending in [@depth]; its symbol is
    the part of the channel before the first dash, and its bid or its ask
    is above zero.  One side is enough: a depth message with a positive
    best bid and no asks is emitted with ask 0. *)
Theorem X17_vest_depth_updates :
  (forall parsed u,
     VestWebSocketService.handleMessage parseFloat toNumber parsed = Some u ->
     (exists msg c,
        parsed = Normal msg
        /\ getProp msg "channel" = Normal (JStr c)
        /\ str_endsWith c "@depth" = true
        /\ VestWebSocketService.u_symbol u = JStr (str_splitFirst c "-"))
     /\ ((exists q, VestWebSocketService.u_bid u = Fin q /\ (0 < q)%Q)
         \/ (exists q, VestWebSocketService.u_ask u = Fin q /\ (0 < q)%Q)))
  /\ (forall c price size levels q,
        str_endsWith c "@depth" = true ->
        parseFloat price = Fin q -> (0 < q)%Q ->
        VestWebSocketService.handleMessage parseFloat toNumber
          (Normal (JObj [("channel", JStr c);
                         ("data",
                          JObj [("bids", JArr (JArr [price; size] :: levels));
                                ("asks", JArr [])])]))
        = Some {| VestWebSocketService.u_symbol := JStr (str_splitFirst c "-");
                  VestWebSocketService.u_bid := Fin q;
                  VestWebSocketService.u_ask := Fin 0 |}).
Proof.
  split.
  - intros parsed u H.
    unfold VestWebSocketService.handleMessage in H.
    destruct (VestWebSocketService.handleMessage_try parseFloat toNumber parsed)
      as [emitted|e] eqn:Ht; [subst emitted | discriminate H].
    unfold VestWebSocketService.handleMessage_try in Ht.
    destruct parsed as [msg|e]; [|discriminate Ht]. simpl in Ht.
    destruct (getProp msg "channel") as [channel|e] eqn:Hch;
      [|discriminate Ht]. simpl in Ht.
    destruct (truthy channel) eqn:Htr; [|discriminate Ht]. simpl in Ht.
    destruct channel as [| | | | |c| |]; try discriminate Ht. simpl in Ht.
    destruct (str_endsWith c "@depth") eqn:Hend; [|discriminate Ht].
    simpl in Ht.
    repeat next_step Ht.
    + injection Ht as <-. simpl. split.
      * exists msg, c. auto.
      * match goal with
        | Hp : positive ?n = Some _ |- _ =>
            apply positive_Some in Hp as [-> Hp]
        end.
        left. eexists. split; [reflexivity | assumption].
    + injection Ht as <-. simpl. split.
      * exists msg, c. auto.
      * repeat match goal with
        | Hp : positive ?n = Some _ |- _ =>
            apply positive_Some in Hp as [-> Hp]
        end.
        right. eexists. split; [reflexivity | assumption].
  - intros c price size levels q Hend Hprice Hq.
    unfold VestWebSocketService.handleMessage,
      VestWebSocketService.handleMessage_try. simpl.
    assert (Hne : negb (c =? "")%string = true).
    { destruct c; [discriminate Hend | reflexivity]. }
    rewrite Hne, Hend. simpl.
    unfold VestWebSocketService.bestOf. simpl.
    rewrite Hprice. simpl.
    apply Qlt_bool_iff in Hq. rewrite Hq. reflexivity.
Qed.

End VestDepth.

(** A run of [X17_vest_depth_updates]: a book with a bid only. *)
Lemma X17_vest_depth_updates_witness :
  VestWebSocketService.handleMessage numberOrNaN numberOrNaN
    (Normal (JObj [("channel", JStr "BTC-PERP@depth");
                   ("data",
                    JObj [("bids", JArr [JArr [JNum 100; JNum 2]]);
                          ("asks", JArr [])])]))
  = Some {| VestWebSocketService.u_symbol := JStr "BTC";
            VestWebSocketService.u_bid := Fin 100;
            VestWebSocketService.u_ask := Fin 0 |}.
Proof.
  apply (proj2 (X17_vest_depth_updates numberOrNaN numberOrNaN)
           "BTC-PERP@depth" (JNum 100) (JNum 2) [] 100%Q).
  - reflexivity.
  - reflexivity.
  - reflexivity.
Defined.

(** ** Frontend: price trends *)

Lemma eachPair_prices (trends : gmap string MarketDataHook.Trend)
    (prev : gmap string Q) (pair : MarketDataHook.WirePair) :
  snd (MarketDataHook.eachPair (trends, prev) pair)
  = <[MarketDataHook.w_symbol pair := MarketDataHook.currentSpread pair]> prev.
Proof. reflexivity. Qed.

Lemma eachPair_trends (trends : gmap string MarketDataHook.Trend)
    (prev : gmap string Q) (pair : MarketDataHook.WirePair) (s : string) :
  fst (MarketDataHook.eachPair (trends, prev) pair) !! s
  = if String.eqb s (MarketDataHook.w_symbol pair)
    then match MarketDataHook.trendOf (prev !! s)
                 (MarketDataHook.currentSpread pair) with
         | Some t => Some t
         | None => trends !! s
         end
    else trends !! s.
Proof.
  unfold MarketDataHook.eachPair, MarketDataHook.trendOf. cbn [fst].
  destruct (String.eqb_spec s (MarketDataHook.w_symbol pair)) as [->|Hne].
  - destruct (prev !! MarketDataHook.w_symbol pair) as [p|]; [|reflexivity].
    destruct (Qeq_bool p (MarketDataHook.currentSpread pair)) eqn:Heq; simpl.
    + apply Qeq_bool_iff in Heq.
      destruct (Qlt_bool p _) eqn:H1;
        [apply Qlt_bool_iff in H1; rewrite Heq in H1;
         exfalso; exact (Qlt_irrefl _ H1)|].
      destruct (Qlt_bool _ p) eqn:H2;
        [apply Qlt_bool_iff in H2; rewrite Heq in H2;
         exfalso; exact (Qlt_irrefl _ H2)|].
      reflexivity.
    + destruct (Qlt_bool p _); [apply lookup_insert_eq|].
      destruct (Qlt_bool _ p); [apply lookup_insert_eq | reflexivity].
  - assert (Hne' : MarketDataHook.w_symbol pair <> s) by congruence.
    destruct (prev !! MarketDataHook.w_symbol pair) as [p|]; [|reflexivity].
    destruct (negb _); [|reflexivity].
    destruct (Qlt_bool p _); [apply lookup_insert_ne, Hne'|].
    destruct (Qlt_bool _ p); [apply lookup_insert_ne, Hne' | reflexivity].
Qed.

Lemma trends_fold (newData : list MarketDataHook.WirePair) :
  forall (trends : gmap string MarketDataHook.Trend) (prev : gmap string Q),
  List.NoDup (map MarketDataHook.w_symbol newData) ->
  let r := fold_left MarketDataHook.eachPair newData (trends, prev) in
  (forall pair, In pair newData ->
     fst r !! MarketDataHook.w_symbol pair
     = match MarketDataHook.trendOf (prev !! MarketDataHook.w_symbol pair)
               (MarketDataHook.currentSpread pair) with
       | Some t => Some t
       | None => trends !! MarketDataHook.w_symbol pair
       end
     /\ snd r !! MarketDataHook.w_symbol pair
        = Some (MarketDataHook.currentSpread pair))
  /\ (forall s, ~ In s (map MarketDataHook.w_symbol newData) ->
        fst r !! s = trends !! s /\ snd r !! s = prev !! s).
Proof.
  induction newData as [|pair rest IH]; intros trends prev Hnd; cbv zeta;
    cbn [fold_left].
  - split; [intros pair [] | auto].
  - inversion Hnd as [|? ? Hnotin Hnd']; subst.
    destruct (MarketDataHook.eachPair (trends, prev) pair) as [t1 p1] eqn:He.
    pose proof (eachPair_trends trends prev pair) as Ht.
    pose proof (eachPair_prices trends prev pair) as Hp.
    rewrite He in Ht, Hp. cbn [fst snd] in Ht, Hp.
    destruct (IH t1 p1 Hnd') as [Hin Hout]. cbv zeta in Hin, Hout.
    split.
    + intros pair' [<-|Hin'].
      * destruct (Hout _ Hnotin) as [-> ->].
        rewrite Ht, String.eqb_refl, Hp, lookup_insert_eq. auto.
      * destruct (Hin pair' Hin') as [-> ->]. split; [|reflexivity].
        assert (Hne : MarketDataHook.w_symbol pair
                      <> MarketDataHook.w_symbol pair').
        { intros Heq. apply Hnotin. rewrite Heq. apply in_map, Hin'. }
        rewrite Hp, lookup_insert_ne by exact Hne.
        rewrite Ht.
        destruct (String.eqb_spec (MarketDataHook.w_symbol pair')
                    (MarketDataHook.w_symbol pair)); [congruence|].
        reflexivity.
    + intros s Hs. simpl in Hs.
      assert (Hne : MarketDataHook.w_symbol pair <> s) by tauto.
      destruct (Hout s) as [-> ->]; [tauto|].
      rewrite Ht, Hp, lookup_insert_ne by exact Hne.
      destruct (String.eqb_spec s (MarketDataHook.w_symbol pair));
        [congruence|]. auto.
Qed.

Lemma trends_settled (newData : list MarketDataHook.WirePair) :
  forall prev : gmap string Q,
  (forall pair, In pair newData ->
     prev !! MarketDataHook.w_symbol pair
     = Some (MarketDataHook.currentSpread pair)) ->
  fold_left MarketDataHook.eachPair newData (∅, prev) = (∅, prev).
Proof.
  induction newData as [|pair rest IH]; intros prev Hprev; cbn [fold_left];
    [reflexivity|].
  assert (Hstep : MarketDataHook.eachPair (∅, prev) pair = (∅, prev)).
  { unfold MarketDataHook.eachPair.
    rewrite (Hprev pair (or_introl eq_refl)).
    rewrite (proj2 (Qeq_bool_iff _ _) (Qeq_refl _)). simpl.
    rewrite insert_id by exact (Hprev pair (or_introl eq_refl)).
    reflexivity. }
  rewrite Hstep. apply IH. intros pair' Hin. apply Hprev. right. exact Hin.
Qed.

(** X18. [calculateTrends] on pairs with distinct symbols: a pair is marked
    up when its spread is above the spread remembered for its symbol, down
    when it is below, and not at all when they are equal or none is
    remembered; symbols outside the data get no mark and keep what was
    remembered.  Afterwards the spread of every pair is remembered, so the
    same data again gives no mark at all. *)
Theorem X18_trends_compare_with_last_refresh
    (newData : list MarketDataHook.WirePair) (previousPrices : gmap string Q) :
  List.NoDup (map MarketDataHook.w_symbol newData) ->
  let r := MarketDataHook.calculateTrends newData previousPrices in
  (forall pair, In pair newData ->
     fst r !! MarketDataHook.w_symbol pair
     = MarketDataHook.trendOf
         (previousPrices !! MarketDataHook.w_symbol pair)
         (MarketDataHook.currentSpread pair)
     /\ snd r !! MarketDataHook.w_symbol pair
        = Some (MarketDataHook.currentSpread pair))
  /\ (forall s, ~ In s (map MarketDataHook.w_symbol newData) ->
        fst r !! s = None /\ snd r !! s = previousPrices !! s)
  /\ MarketDataHook.calculateTrends newData (snd r) = (∅, snd r).
Proof.
  intros Hnd r.
  destruct (trends_fold newData ∅ previousPrices Hnd) as [Hin Hout].
  cbv zeta in Hin, Hout. fold (MarketDataHook.calculateTrends newData
                                 previousPrices) in Hin, Hout.
  fold r in Hin, Hout.
  split; [|split].
  - intros pair Hp. destruct (Hin pair Hp) as [Ht Hs]. split; [|exact Hs].
    rewrite Ht, lookup_empty.
    destruct (MarketDataHook.trendOf _ _); reflexivity.
  - intros s Hs. destruct (Hout s Hs) as [Ht Hp].
    rewrite Ht, lookup_empty. auto.
  - apply trends_settled. intros pair Hp. exact (proj2 (Hin pair Hp)).
Qed.

(** A run of [X18_trends_compare_with_last_refresh]: BTC rises from 1 to
    2 and ETH is seen for the first time. *)
Lemma X18_trends_compare_with_last_refresh_witness :
  fst (MarketDataHook.calculateTrends [wireBtc 2; wireEth 3] {["BTC" := 1%Q]})
    !! "BTC" = Some MarketDataHook.Up
  /\ fst (MarketDataHook.calculateTrends [wireBtc 2; wireEth 3]
            {["BTC" := 1%Q]})
       !! "ETH" = None.
Proof.
  assert (Hnd : List.NoDup
                  (map MarketDataHook.w_symbol [wireBtc 2; wireEth 3])).
  { simpl. constructor; [intros [H|[]]; discriminate H|].
    constructor; [intros []|constructor]. }
  destruct (X18_trends_compare_with_last_refresh [wireBtc 2; wireEth 3]
              {["BTC" := 1%Q]} Hnd) as [Hin _].
  split.
  - exact (proj1 (Hin (wireBtc 2) (or_introl eq_refl))).
  - exact (proj1 (Hin (wireEth 3) (or_intror (or_introl eq_refl)))).
Defined.

(** ** Lighter WebSocket: order book messages *)

Lemma orZero_eq (q : Q) : (orZero q == q)%Q.
Proof.
  unfold orZero. destruct (Qeq_bool q 0) eqn:E; [|reflexivity].
  apply Qeq_bool_iff in E. symmetry. exact E.
Qed.

Section LighterBooks.

Variable parseFloat : JsVal -> JsNumber.
Variable parseInt : string -> JsNumber.
Variable toNumber : JsVal -> JsNumber.

Lemma updateSide_cases (valid : list JsNumber -> list Q)
    (best : Q -> list Q -> Q) (side : JsVal) (current : Q) (updated : bool)
    (current' : Q) (updated' : bool) :
  LighterWebSocketService.updateSide parseFloat toNumber valid best side
    current updated = Normal (current', updated') ->
  ((current' = current /\ updated' = updated)
   \/ (updated' = true /\ ~ (current' == current)%Q))
  /\ forall again flag,
       (again == current')%Q ->
       LighterWebSocketService.updateSide parseFloat toNumber valid best side
         again flag = Normal (again, flag).
Proof.
  clear parseInt.
  unfold LighterWebSocketService.updateSide.
  destruct (truthy side); [|intros [= <- <-]; auto].
  destruct (getLength side) as [len|e]; [|discriminate]. simpl.
  destruct (gtZero toNumber len); [|intros [= <- <-]; auto].
  destruct (LighterWebSocketService.pricesOf parseFloat side) as [prices|e];
    [|discriminate]. simpl.
  destruct (valid prices) as [|first rest]; [intros [= <- <-]; auto|].
  destruct (Qeq_bool (best first rest) current) eqn:Heq; simpl.
  - intros [= <- <-]. split; [auto|].
    intros again flag Hagain.
    apply Qeq_bool_iff in Heq.
    assert (Hb : Qeq_bool (best first rest) again = true).
    { apply Qeq_bool_iff. rewrite Heq. symmetry. exact Hagain. }
    rewrite Hb. reflexivity.
  - intros [= <- <-]. split.
    + right. split; [reflexivity|].
      intros H. apply Qeq_bool_iff in H. congruence.
    + intros again flag Hagain.
      assert (Hb : Qeq_bool (best first rest) again = true).
      { apply Qeq_bool_iff. symmetry. exact Hagain. }
      rewrite Hb. reflexivity.
Qed.

Lemma findSymbol_In (index : list (string * JsVal)) (marketId : JsNumber)
    (symbol : string) :
  LighterWebSocketService.findSymbol index marketId = Some symbol ->
  In symbol (map fst index).
Proof.
  clear parseFloat parseInt toNumber.
  unfold LighterWebSocketService.findSymbol.
  destruct (List.find _ index) as [entry|] eqn:Hf; [|discriminate].
  intros [= <-]. apply find_some in Hf as [Hin _]. apply in_map, Hin.
Qed.

(** X19. Lighter WebSocket [handleMessage]: a message either changes
    nothing and emits nothing, or stores one book and emits it.  The
    emitted book is for a symbol of the market index, has a bid or an ask
    above zero, replaces the stored book of that symbol and differs from
    it if there was one; handling the same message again right away emits
    nothing. *)
Theorem X19_lighter_book_updates (st : LighterWebSocketService.Books)
    (parsed : Outcome JsVal) :
  let r := LighterWebSocketService.handleMessage parseFloat parseInt toNumber
             st parsed in
  match snd r with
  | None => fst r = st
  | Some u =>
      LighterWebSocketService.marketIndexMap (fst r)
      = LighterWebSocketService.marketIndexMap st
      /\ LighterWebSocketService.orderBooks (fst r)
         = <[LighterWebSocketService.b_symbol u :=
               (LighterWebSocketService.b_bid u,
                LighterWebSocketService.b_ask u)]>
             (LighterWebSocketService.orderBooks st)
      /\ In (LighterWebSocketService.b_symbol u)
           (map fst (LighterWebSocketService.marketIndexMap st))
      /\ ((0 < LighterWebSocketService.b_bid u)%Q
          \/ (0 < LighterWebSocketService.b_ask u)%Q)
      /\ (forall bid ask,
            LighterWebSocketService.orderBooks st
              !! LighterWebSocketService.b_symbol u = Some (bid, ask) ->
            ~ ((LighterWebSocketService.b_bid u == bid)%Q
               /\ (LighterWebSocketService.b_ask u == ask)%Q))
      /\ LighterWebSocketService.handleMessage parseFloat parseInt toNumber
           (fst r) parsed = (fst r, None)
  end.
Proof.
  cbv zeta. unfold LighterWebSocketService.handleMessage at 1 2 3 4 5 6 7.
  destruct (LighterWebSocketService.handleMessage_try parseFloat parseInt
              toNumber st parsed) as [[u|]|e] eqn:H;
    [|reflexivity|reflexivity].
  cbn [fst snd LighterWebSocketService.marketIndexMap
       LighterWebSocketService.orderBooks].
  split; [reflexivity|]. split; [reflexivity|].
  unfold LighterWebSocketService.handleMessage_try in H.
  repeat next_step H.
  injection H as <-.
  cbn [LighterWebSocketService.b_symbol LighterWebSocketService.b_bid
       LighterWebSocketService.b_ask].
  pose proof (updateSide_cases _ _ _ _ _ _ _ Heqo7) as [Hbid Hbid'].
  pose proof (updateSide_cases _ _ _ _ _ _ _ Heqo8) as [Hask Hask'].
  apply andb_true_iff in Heqb2 as [Hnew Hpos].
  split; [exact (findSymbol_In _ _ _ Heqo6)|]. split; [|split].
  - apply orb_true_iff in Hpos as [Hp|Hp]; apply Qlt_bool_iff in Hp; auto.
  - intros bid0 ask0 Hst [Hq Hq0].
    rewrite Hst in Hbid, Hask, Hnew. simpl in Hnew.
    rewrite orb_false_r in Hnew. subst b0.
    destruct Hask as [[_ Hb]|[_ Hne]];
      [|apply Hne; rewrite Hq0; symmetry; apply orZero_eq].
    destruct Hbid as [[_ Hb']|[_ Hne]]; [congruence|].
    apply Hne. rewrite Hq. symmetry. apply orZero_eq.
  - assert (Hagain :
      LighterWebSocketService.handleMessage_try parseFloat parseInt toNumber
        {| LighterWebSocketService.marketIndexMap :=
             LighterWebSocketService.marketIndexMap st;
           LighterWebSocketService.orderBooks :=
             <[s1 := (q, q0)]> (LighterWebSocketService.orderBooks st) |}
        (Normal a) = Normal None).
    { unfold LighterWebSocketService.handleMessage_try.
      cbn [mbind Outcome_bind LighterWebSocketService.marketIndexMap
           LighterWebSocketService.orderBooks].
      rewrite Heqo0. cbn [mbind Outcome_bind]. rewrite Heqb.
      rewrite Heqo1. cbn [mbind Outcome_bind]. rewrite Heqb0.
      rewrite Heqo2. cbn [mbind Outcome_bind].
      rewrite Heqo3. cbn [mbind Outcome_bind].
      rewrite Heqo6, Heqb1, lookup_insert_eq.
      rewrite Heqo4. cbn [mbind Outcome_bind].
      rewrite (Hbid' (orZero q) false (orZero_eq q)). cbn [mbind Outcome_bind].
      rewrite Heqo5. cbn [mbind Outcome_bind].
      rewrite (Hask' (orZero q0) false (orZero_eq q0)).
      cbn [mbind Outcome_bind]. reflexivity. }
    rewrite Hagain. reflexivity.
Qed.

End LighterBooks.

(** A run of [X19_lighter_book_updates]: the first book of market 7. *)
Lemma X19_lighter_book_updates_witness :
  snd (LighterWebSocketService.handleMessage numberOrNaN
         (fun _ => Fin 7) numberOrNaN lighterIndex lighterBookMessage)
  = Some {| LighterWebSocketService.b_symbol := "BTC";
            LighterWebSocketService.b_bid := 100;
            LighterWebSocketService.b_ask := 101 |}
  /\ In "BTC" (map fst (LighterWebSocketService.marketIndexMap lighterIndex)).
Proof.
  pose proof (X19_lighter_book_updates numberOrNaN (fun _ => Fin 7)
                numberOrNaN lighterIndex lighterBookMessage) as H.
  cbv zeta in H.
  change (snd (LighterWebSocketService.handleMessage numberOrNaN
                 (fun _ => Fin 7) numberOrNaN lighterIndex lighterBookMessage))
    with (Some {| LighterWebSocketService.b_symbol := "BTC";
                  LighterWebSocketService.b_bid := 100;
                  LighterWebSocketService.b_ask := 101 |}) in H.
  split; [reflexivity|]. exact (proj1 (proj2 (proj2 H))).
Defined.

(** ** Lighter WebSocket: the market index *)

Lemma index_set_In (index : list (string * JsVal)) (k : string) (v : JsVal)
    (k' : string) (v' : JsVal) :
  In (k', v') (LighterWebSocketService.index_set index k v) ->
  (k' = k /\ v' = v) \/ In (k', v') index.
Proof.
  induction index as [|[k0 v0] rest IH]; simpl.
  - intros [[= <- <-]|[]]. auto.
  - destruct (String.eqb k k0).
    + intros [[= <- <-]|Hin]; auto.
    + intros [[= <- <-]|Hin]; [auto|].
      destruct (IH Hin) as [H|H]; auto.
Qed.

Lemma index_set_keys (index : list (string * JsVal)) (k : string) (v : JsVal)
    (k' : string) :
  In k' (map fst index) ->
  In k' (map fst (LighterWebSocketService.index_set index k v)).
Proof.
  induction index as [|[k0 v0] rest IH]; simpl; [intros []|].
  destruct (String.eqb_spec k k0) as [->|Hne]; simpl.
  - auto.
  - intros [H|H]; auto.
Qed.

Lemma index_set_nonempty (index : list (string * JsVal)) (k : string)
    (v : JsVal) :
  LighterWebSocketService.index_set index k v <> [].
Proof.
  destruct index as [|[k0 v0] rest]; simpl; [discriminate|].
  destruct (String.eqb k k0); discriminate.
Qed.

Section LighterIndex.

Variable isCrypto : JsVal -> Outcome bool.

Lemma indexGrows_refl (acc : list (string * JsVal) * nat) :
  indexGrows isCrypto acc acc.
Proof.
  unfold indexGrows. repeat split; auto; lia.
Qed.

Lemma indexGrows_eachIndexed (acc acc' : list (string * JsVal) * nat)
    (m : JsVal) :
  LighterWebSocketService.eachIndexed isCrypto acc m = Normal acc' ->
  indexGrows isCrypto acc acc'.
Proof.
  unfold LighterWebSocketService.eachIndexed. intros H.
  repeat next_step H;
    try (injection H as <-; apply indexGrows_refl).
  all: injection H as <-; unfold indexGrows; cbn [fst snd];
    split; [intros k Hk; apply index_set_keys, Hk|];
    split; [|split; [lia | intros _; apply index_set_nonempty]];
    intros k v Hin; apply index_set_In in Hin as [[-> ->]|Hin];
    [right; split; [assumption | discriminate] | left; exact Hin].
Qed.

Lemma indexGrows_loop (items : list JsVal) :
  forall acc, indexGrows isCrypto acc (fst (LighterWebSocketService.indexLoop isCrypto
                                    items acc)).
Proof.
  induction items as [|m items IH]; intros acc; simpl;
    [apply indexGrows_refl|].
  destruct (LighterWebSocketService.eachIndexed isCrypto acc m) as [acc'|e]
    eqn:Hm; [|apply indexGrows_refl].
  apply indexGrows_eachIndexed in Hm.
  specialize (IH acc').
  destruct Hm as (K1 & E1 & C1 & N1), IH as (K2 & E2 & C2 & N2).
  unfold indexGrows. repeat split.
  - auto.
  - intros k v Hin. destruct (E2 k v Hin) as [H|H]; auto.
  - lia.
  - intros Hlt.
    destruct (Nat.eq_dec (snd acc')
                (snd (fst (LighterWebSocketService.indexLoop isCrypto items
                             acc')))) as [Heq|Hne].
    + intros Hnil. assert (Hlt' : (snd acc < snd acc')%nat) by lia.
      apply (N1 Hlt').
      destruct (fst acc') as [|[k v] rest] eqn:Hacc'; [reflexivity|].
      exfalso. specialize (K2 k (or_introl eq_refl)).
      rewrite Hnil in K2. exact K2.
    + apply N2. lia.
Qed.

(** X20. Lighter WebSocket market index: [fetchMarketIndices] never drops
    a symbol from the index; every entry it adds or overwrites is for a
    symbol that [isCrypto] accepts and has a defined market id; it returns
    true only when the index is not empty afterwards.  So [connect] goes
    on to open the socket only with a non-empty index, and otherwise
    retries after 3000 ms. *)
Theorem X20_lighter_market_index (index : list (string * JsVal))
    (response : AxiosResult) :
  let r := LighterWebSocketService.fetchMarketIndices isCrypto index response in
  let c := LighterWebSocketService.connect isCrypto index response in
  (forall k, In k (map fst index) -> In k (map fst (fst r)))
  /\ (forall k v, In (k, v) (fst r) ->
        In (k, v) index
        \/ (isCrypto (JStr k) = Normal true /\ v <> JUndefined))
  /\ (snd r = true -> fst r <> [])
  /\ (snd c = LighterWebSocketService.OpenSocket -> fst c <> [])
  /\ (forall delay,
        snd c = LighterWebSocketService.RetryConnect delay ->
        delay = 3000 /\ index = []).
Proof.
  intros r c.
  assert (Hr : indexGrows isCrypto (index, 0%nat) (fst r, if snd r then 1%nat else 0%nat)
               \/ r = (index, false)).
  { unfold r, LighterWebSocketService.fetchMarketIndices.
    match goal with
    | |- context [match ?x with Normal _ => _ | Thrown _ => _ end] =>
        destruct x as [items|e]; [|right; reflexivity]
    end.
    left.
    pose proof (indexGrows_loop items (index, 0%nat)) as Hg.
    destruct (LighterWebSocketService.indexLoop isCrypto items (index, 0%nat))
      as [[index' count] [e|]]; simpl in *.
    - destruct Hg as (K & E & _ & _). unfold indexGrows. simpl.
      repeat split; auto; lia.
    - destruct Hg as (K & E & C & N). unfold indexGrows. simpl.
      repeat split; auto.
      + destruct (0 <? count)%nat; lia.
      + destruct (Nat.ltb_spec 0 count); [auto | lia]. }
  assert (H1 : forall k, In k (map fst index) -> In k (map fst (fst r))).
  { destruct Hr as [(K & _)| ->]; auto. }
  assert (H2 : forall k v, In (k, v) (fst r) ->
                 In (k, v) index
                 \/ (isCrypto (JStr k) = Normal true /\ v <> JUndefined)).
  { destruct Hr as [(_ & E & _)| ->]; auto. }
  assert (H3 : snd r = true -> fst r <> []).
  { destruct Hr as [(_ & _ & _ & N)| ->]; [|discriminate].
    simpl in N. intros Hs. rewrite Hs in N. apply N. lia. }
  split; [exact H1|]. split; [exact H2|]. split; [exact H3|].
  unfold c, LighterWebSocketService.connect. fold r.
  destruct index as [|entry index']; simpl.
  - destruct r as [index1 success]. simpl in *.
    destruct success; simpl.
    + split; [intros _; auto | intros delay; discriminate].
    + split; [discriminate|]. intros delay [= <-]. auto.
  - split; [intros _; discriminate | intros delay; discriminate].
Qed.

End LighterIndex.

(** A run of [X20_lighter_market_index]: the first [connect], with one
    market in the response, opens the socket with that market indexed. *)
Lemma X20_lighter_market_index_witness :
  LighterWebSocketService.connect acceptAll [] (lighterBody [lighterMarket])
  = ([("BTC", JNum 7)], LighterWebSocketService.OpenSocket)
  /\ fst (LighterWebSocketService.connect acceptAll []
            (lighterBody [lighterMarket])) <> [].
Proof.
  split; [reflexivity|].
  apply (proj1 (proj2 (proj2 (proj2
           (X20_lighter_market_index acceptAll [] (lighterBody [lighterMarket])))))).
  reflexivity.
Defined.

(** ** Only allow-listed symbols leave the aggregator *)

Lemma cache_set_In (c : Cache) (k : string) (p : AggregatedPair)
    (k' : string) (p' : AggregatedPair) :
  In (k', p') (cache_set c k p) -> (k' = k /\ p' = p) \/ In (k', p') c.
Proof.
  induction c as [|[k0 p0] c IH]; simpl.
  - intros [[= <- <-]|[]]. auto.
  - destruct (String.eqb_spec k k0) as [->|Hne].
    + intros [[= <- <-]|Hin]; auto.
    + intros [[= <- <-]|Hin]; [auto|].
      destruct (IH Hin) as [H|H]; auto.
Qed.

Lemma cache_get_In (c : Cache) (k : string) (p : AggregatedPair) :
  cache_get c k = Some p -> In (k, p) c.
Proof.
  induction c as [|[k0 p0] c IH]; simpl; [discriminate|].
  destruct (String.eqb_spec k k0) as [->|Hne].
  - intros [= <-]. left. reflexivity.
  - intros H. right. exact (IH H).
Qed.

Section SymbolHygiene.

Variable ALLOWED_SYMBOLS : list string.
Variable venueRank : ExchangeName -> nat.

Lemma outputsAllowed_checkPair (now : Z) (st : State) (p : AggregatedPair) :
  In (symbol p) ALLOWED_SYMBOLS ->
  outputsAllowed ALLOWED_SYMBOLS st ->
  outputsAllowed ALLOWED_SYMBOLS (checkPair now st p).
Proof.
  clear venueRank.
  intros Hp (Hm & Ha & Hi). unfold checkPair.
  destruct (Num_gt0 (bestBid p) && Num_gt0 (bestAsk p));
    [|repeat split; assumption].
  assert (Hm' : forall st1,
            st1 = st \/
            (savedSpreads st1 = savedSpreads st ++
               [{| m_symbol := symbol p; m_spread := realSpread p;
                   m_bestBid := bestBid p; m_bestAsk := bestAsk p;
                   m_bestBidEx := bestBidEx p; m_bestAskEx := bestAskEx p |}]
             /\ alertStore st1 = alertStore st) ->
            outputsAllowed ALLOWED_SYMBOLS st1).
  { intros st1 [->|[Hs Hal]]; [repeat split; assumption|].
    unfold outputsAllowed. rewrite Hs, Hal. repeat split; try assumption.
    intros m Hin. apply in_app_or in Hin as [Hin|[<-|[]]]; [auto | exact Hp]. }
  match goal with
  | |- context [if DB_SAVE_THROTTLE <=? ?d then ?a else ?b] =>
      set (st1 := if DB_SAVE_THROTTLE <=? d then a else b);
      assert (H1 : outputsAllowed ALLOWED_SYMBOLS st1)
        by (apply Hm'; unfold st1;
            destruct (DB_SAVE_THROTTLE <=? d); [right; split; reflexivity | left; reflexivity])
  end.
  destruct (Num_ge (realSpread p) ALERT_THRESHOLD); [|exact H1].
  destruct H1 as (Hm1 & Ha1 & Hi1).
  unfold saveAlert.
  destruct (tooSoon _ now); simpl; [repeat split; assumption|].
  repeat split; try assumption.
  intros r Hin. apply in_app_or in Hin as [Hin|[<-|[]]]; [auto | exact Hp].
Qed.

Lemma outputsAllowed_checkPairs (now : Z) (ps : list AggregatedPair) :
  forall st,
  (forall p, In p ps -> In (symbol p) ALLOWED_SYMBOLS) ->
  outputsAllowed ALLOWED_SYMBOLS st ->
  outputsAllowed ALLOWED_SYMBOLS (fold_left (checkPair now) ps st).
Proof.
  clear venueRank.
  induction ps as [|p ps IH]; intros st Hps Hst; simpl; [exact Hst|].
  apply IH; [intros q Hq; apply Hps; right; exact Hq|].
  apply outputsAllowed_checkPair; [apply Hps; left; reflexivity | exact Hst].
Qed.

Lemma outputsAllowed_ext (st st' : State) :
  savedSpreads st' = savedSpreads st ->
  alertStore st' = alertStore st ->
  outputsAllowed ALLOWED_SYMBOLS st ->
  outputsAllowed ALLOWED_SYMBOLS st'.
Proof.
  clear venueRank.
  unfold outputsAllowed. intros -> ->. auto.
Qed.

Lemma hygiene_updateAndRecalculate (now : Z) (st : State) :
  cacheOwnSymbols ALLOWED_SYMBOLS st ->
  outputsAllowed ALLOWED_SYMBOLS st ->
  cacheOwnSymbols ALLOWED_SYMBOLS
    (updateAndRecalculate ALLOWED_SYMBOLS venueRank now st)
  /\ outputsAllowed ALLOWED_SYMBOLS
       (updateAndRecalculate ALLOWED_SYMBOLS venueRank now st).
Proof.
  intros Hc Ho.
  assert (Hc' : forall k p,
            In (k, p) (calculateSpreads venueRank (freshFilter now)
                         (PRICE_CACHE st)) ->
            symbol p = k /\ In k ALLOWED_SYMBOLS).
  { intros k p Hin. unfold calculateSpreads in Hin.
    apply in_map_iff in Hin as ([k0 p0] & [= <- <-] & Hin0).
    rewrite symbol_recomputePair. exact (Hc _ _ Hin0). }
  split.
  - unfold cacheOwnSymbols.
    rewrite PRICE_CACHE_updateAndRecalculate. exact Hc'.
  - unfold updateAndRecalculate.
    set (st1 := with_cache st _).
    set (st2 := fold_left (checkPair now) _ st1).
    assert (H2 : outputsAllowed ALLOWED_SYMBOLS st2).
    { apply outputsAllowed_checkPairs; [|exact Ho].
      intros p Hp. unfold cache_values in Hp.
      apply in_map_iff in Hp as ([k p0] & <- & Hin).
      destruct (Hc' _ _ Hin) as [Hsym Hk]. simpl. rewrite Hsym. exact Hk. }
    apply (outputsAllowed_ext st2); [| |exact H2].
    + unfold throttledBroadcast, performBroadcast, performBroadcast_with,
        set_pending.
      repeat match goal with
      | |- context [if ?b then _ else _] => destruct b
      end; reflexivity.
    + apply alertStore_throttledBroadcast.
Qed.

Lemma hygiene_step (st : State) (ev : Event) :
  cacheOwnSymbols ALLOWED_SYMBOLS st ->
  outputsAllowed ALLOWED_SYMBOLS st ->
  cacheOwnSymbols ALLOWED_SYMBOLS (step ALLOWED_SYMBOLS venueRank st ev)
  /\ outputsAllowed ALLOWED_SYMBOLS (step ALLOWED_SYMBOLS venueRank st ev).
Proof.
  intros Hc Ho. destruct ev as [| |e data now|i now|i out]; simpl.
  - split; [|exact Ho].
    unfold cacheOwnSymbols, startScheduler. simpl.
    assert (Hseed : forall syms c,
              (forall k p, In (k, p) c ->
                 symbol p = k /\ In k ALLOWED_SYMBOLS) ->
              (forall s, In s syms -> In s ALLOWED_SYMBOLS) ->
              forall k p,
                In (k, p) (fold_left (fun c sym => cache_set c sym (createPair sym))
                             syms c) ->
                symbol p = k /\ In k ALLOWED_SYMBOLS).
    { induction syms as [|s syms IH]; intros c Hcc Hs k p; simpl; [apply Hcc|].
      apply IH; [|intros s' Hs'; apply Hs; right; exact Hs'].
      intros k' p' Hin. apply cache_set_In in Hin as [[-> ->]|Hin];
        [|exact (Hcc _ _ Hin)].
      split; [reflexivity | apply Hs; left; reflexivity]. }
    apply Hseed; [intros k p [] | auto].
  - split; [exact Hc | exact Ho].
  - unfold handleUpdate, ensurePair.
    destruct (allowed ALLOWED_SYMBOLS (tp_symbol data)) eqn:Hal; simpl;
      [|split; assumption].
    apply allowed_In in Hal.
    destruct (cache_get (PRICE_CACHE st) (tp_symbol data)) as [existing|]
      eqn:Hget.
    + apply hygiene_updateAndRecalculate; [|exact Ho].
      intros k p Hin. simpl in Hin.
      apply cache_set_In in Hin as [[-> ->]|Hin]; [|exact (Hc _ _ Hin)].
      split; [|exact Hal]. simpl.
      exact (proj1 (Hc _ _ (cache_get_In _ _ _ Hget))).
    + apply hygiene_updateAndRecalculate; [|exact Ho].
      intros k p Hin. simpl in Hin.
      apply cache_set_In in Hin as [[-> ->]|Hin]; [split; [reflexivity | exact Hal]|].
      apply cache_set_In in Hin as [[-> ->]|Hin]; [|exact (Hc _ _ Hin)].
      split; [reflexivity | exact Hal].
  - destruct (nth_error (timers st) i) as [due|]; [|split; assumption].
    destruct (due <=? now); [|split; assumption].
    split.
    + unfold cacheOwnSymbols. rewrite PRICE_CACHE_trailingBroadcast. exact Hc.
    + apply (outputsAllowed_ext st); [| |exact Ho].
      * unfold trailingBroadcast, performBroadcast, performBroadcast_with,
          set_pending. simpl.
        repeat match goal with
        | |- context [if ?b then _ else _] => destruct b
        end; reflexivity.
      * rewrite alertStore_trailingBroadcast. reflexivity.
  - split.
    + unfold cacheOwnSymbols. rewrite PRICE_CACHE_alertWriteDone. exact Hc.
    + destruct Ho as (Hm & Ha & Hi).
      unfold alertWriteDone, saveAlert_callback.
      destruct (nth_error (inflight (alertStore st)) i) as [row|] eqn:Hrow;
        [|repeat split; assumption].
      destruct out as [|err]; simpl; repeat split; try assumption.
      * intros r Hin. apply in_app_or in Hin as [Hin|[<-|[]]]; [auto|].
        apply Hi. exact (nth_error_In _ _ Hrow).
      * intros r Hin. apply Hi. exact (In_remove_nth _ _ _ Hin).
      * intros r Hin. apply Hi. exact (In_remove_nth _ _ _ Hin).
Qed.

(** X21. Along every trace from the initial state, every pair of the
    cache sits under its own symbol, and every [saveSpread] call, every
    alert row written and every alert row of a pending write is for an
    allow-listed symbol: an update for a symbol off the allow-list never
    reaches the database. *)
Theorem X21_only_allowed_symbols_are_stored (evs : list Event) :
  let st := run ALLOWED_SYMBOLS venueRank initialState evs in
  (forall k p, cache_get (PRICE_CACHE st) k = Some p ->
     symbol p = k /\ In k ALLOWED_SYMBOLS)
  /\ (forall m, In m (savedSpreads st) -> In (m_symbol m) ALLOWED_SYMBOLS)
  /\ (forall r, In r (alerts (alertStore st)) ->
        In (row_symbol r) ALLOWED_SYMBOLS)
  /\ (forall r, In r (inflight (alertStore st)) ->
        In (row_symbol r) ALLOWED_SYMBOLS).
Proof.
  intros st.
  assert (H : cacheOwnSymbols ALLOWED_SYMBOLS st
              /\ outputsAllowed ALLOWED_SYMBOLS st).
  { unfold st. clear st. induction evs as [|ev evs' IH] using rev_ind.
    - split; [intros k p [] |]. repeat split; intros x [].
    - rewrite run_app. simpl. destruct IH as [Hc Ho].
      apply hygiene_step; assumption. }
  destruct H as [Hc (Hm & Ha & Hi)].
  split; [|repeat split; assumption].
  intros k p Hget. exact (Hc _ _ (cache_get_In _ _ _ Hget)).
Qed.

End SymbolHygiene.

(** A run of [X21_only_allowed_symbols_are_stored]: the metric saved by the
    update of [broadcastOnce] is for BTC. *)
Lemma X21_only_allowed_symbols_are_stored_witness :
  map m_symbol (savedSpreads (run btcOnly fieldOrder initialState broadcastOnce))
  = ["BTC"]
  /\ Forall (fun m => In (m_symbol m) btcOnly)
       (savedSpreads (run btcOnly fieldOrder initialState broadcastOnce)).
Proof.
  split; [reflexivity|].
  apply List.Forall_forall.
  exact (proj1 (proj2 (X21_only_allowed_symbols_are_stored btcOnly fieldOrder
                         broadcastOnce))).
Defined.
